(** * Driver notification bot: check-in ledger, streaks, compliance tracker
      and follow-up scheduler

    A shallow embedding of the services of the bot
    ([app/services/checks.py], [streaks.py], [compliance.py],
    [autosend.py]) together with the properties of its specification.

    Conventions.
    - A [datetime] is an instant, counted in seconds ([Z]); the difference
      of two aware datetimes is the difference of the instants.  A
      [timedelta] added to a datetime of a named zone is added to the
      wall clock of the zone ([Zones]).  A [date] is a day number.  SQL
      [now()] and Python [datetime.now] are passed in as the argument
      [now].
    - A table is the list of its rows; [compliance_tracking], whose
      conflict target is its key [driver_id], is a finite map.
    - SQL [NULL] and Python [None] are [None]. *)

From stdpp Require Import base decidable option list strings gmap fin_maps.
From Stdlib Require Import ZArith Lia.

Local Open Scope Z_scope.

Definition datetime := Z.
Definition date := Z.
Definition timedelta := Z.

Definition minutes (n : Z) : timedelta := n * 60.
Definition hours (n : Z) : timedelta := n * 3600.

(** Time zones, as [zoneinfo] has them.  [wall_clock z zone t] is the
    reading of the wall clock of the zone at the instant [t], counted in
    seconds like an instant; [instant_of z zone r] is the instant at which
    the wall clock of the zone reads [r], the first of them when the clock
    reads [r] twice ([fold=0]). *)
Record Zones := mkZones {
  wall_clock : string -> datetime -> Z;
  instant_of : string -> Z -> datetime
}.

(** Python truthiness of an [Optional[int]]: [None] and [0] are falsy. *)
Definition truthy_int (o : option Z) : bool :=
  match o with
  | Some n => negb (n =? 0)
  | None => false
  end.

(** Python truthiness of an [Optional[datetime]]: only [None] is falsy. *)
Definition truthy_dt (o : option datetime) : bool :=
  match o with
  | Some _ => true
  | None => false
  end.

(** [status in {...}] on strings. *)
Definition str_in (s : string) (l : list string) : bool :=
  existsb (String.eqb s) l.

(** [needle in hay] on strings. *)
Fixpoint contains (needle hay : string) : bool :=
  String.prefix needle hay ||
  match hay with
  | EmptyString => false
  | String _ rest => contains needle rest
  end.

(** [any(token in text for token in tokens)]. *)
Definition any_in (tokens : list string) (text : string) : bool :=
  existsb (fun token => contains token text) tokens.

(** ** Rows of the datastore *)

(** The [drivers] table: the fields of the dataclass [checks.Driver] and
    the two further columns the services write, [last_check_date] and
    [updated_at]. *)
Record Driver := mkDriver {
  driver_id_of : Z;
  telegram_user_id : Z;
  username : option string;
  display_name : option string;
  active : bool;
  streak_current : Z;
  streak_best : Z;
  notify_chat_id : option Z;
  last_pass_at : option datetime;
  last_congrats_at : option datetime;
  last_check_date : option date;
  driver_updated_at : datetime
}.

(** The [daily_checkins] table, dataclass [checks.Checkin]. *)
Record Checkin := mkCheckin {
  checkin_id_of : Z;
  driver_id : Z;
  group_id : Z;
  check_date_of : date;
  sent_at : option datetime;
  responded_at : option datetime;
  status : string;
  reason : option string;
  reviewer_user_id : option Z;
  reviewed_at : option datetime;
  review_message_id : option Z;
  media_count : Z;
  updated_at : datetime
}.

(** [Checkin.is_terminal]. *)
Definition is_terminal (c : Checkin) : bool :=
  str_in (status c) ["pass"; "fail"; "needs_fix"; "excused"]%string.

(** The [media] table. *)
Record Media := mkMedia {
  media_checkin_id : Z;
  media_kind : string;
  media_file_id : string;
  media_group_id : option string
}.

(** ** Streak engine ([app/services/streaks.py]) *)

Module Streaks.

(** The [SET] clause of [update_after_pass]; the right-hand sides read
    the row as it was before the update. *)
Definition pass_row (now : datetime) (check_date : date) (d : Driver) : Driver :=
  {| driver_id_of := driver_id_of d;
     telegram_user_id := telegram_user_id d;
     username := username d;
     display_name := display_name d;
     active := active d;
     streak_current := streak_current d + 1;
     streak_best := Z.max (streak_best d) (streak_current d + 1);
     notify_chat_id := notify_chat_id d;
     last_pass_at := last_pass_at d;
     last_congrats_at := last_congrats_at d;
     last_check_date := Some check_date;
     driver_updated_at := now |}.

(** [UPDATE drivers SET ... WHERE id = $1]. *)
Definition update_after_pass (now : datetime) (drivers : list Driver)
    (id : Z) (check_date : date) : list Driver :=
  map (fun d => if driver_id_of d =? id then pass_row now check_date d else d)
      drivers.

(** The [SET] clause of [reset_missed_checks]. *)
Definition zero_row (now : datetime) (d : Driver) : Driver :=
  {| driver_id_of := driver_id_of d;
     telegram_user_id := telegram_user_id d;
     username := username d;
     display_name := display_name d;
     active := active d;
     streak_current := 0;
     streak_best := streak_best d;
     notify_chat_id := notify_chat_id d;
     last_pass_at := last_pass_at d;
     last_congrats_at := last_congrats_at d;
     last_check_date := last_check_date d;
     driver_updated_at := now |}.

(** The sub-query
    [EXISTS (SELECT 1 FROM daily_checkins dc WHERE dc.driver_id = d.id
             AND dc.group_id = $1 AND dc.date = $2)]. *)
Definition has_checkin (checkins : list Checkin) (d : Driver)
    (gid : Z) (day : date) : bool :=
  existsb (fun dc => (driver_id dc =? driver_id_of d)
                     && (group_id dc =? gid)
                     && (check_date_of dc =? day)) checkins.

(** [UPDATE drivers AS d SET streak_current = 0 ...
     WHERE d.active = true AND NOT EXISTS (...)]. *)
Definition reset_missed_checks (now : datetime) (drivers : list Driver)
    (checkins : list Checkin) (gid : Z) (day : date) : list Driver :=
  map (fun d => if active d && negb (has_checkin checkins d gid day)
                then zero_row now d else d)
      drivers.

(** The streak operations as events on the [drivers] table. *)
Inductive op :=
| Pass (now : datetime) (id : Z) (day : date)
| Rollover (now : datetime) (checkins : list Checkin) (gid : Z) (day : date).

Definition step (drivers : list Driver) (o : op) : list Driver :=
  match o with
  | Pass now id day => update_after_pass now drivers id day
  | Rollover now checkins gid day =>
      reset_missed_checks now drivers checkins gid day
  end.

Definition run (drivers : list Driver) (ops : list op) : list Driver :=
  fold_left step ops drivers.

(** The best streak dominates the current one. *)
Definition best_dominates (d : Driver) : Prop :=
  streak_current d <= streak_best d.

(** The best streak dominates the current one and, being a count of
    days, is not negative. *)
Definition streak_ok (d : Driver) : Prop :=
  best_dominates d /\ 0 <= streak_best d.

End Streaks.

(** ** Check-in ledger ([app/services/checks.py]) *)

Module Checks.

(** The part of the datastore the ledger works on.  [checkin_seq] is the
    sequence that numbers the rows of [daily_checkins]. *)
Record DB := mkDB {
  drivers : list Driver;
  daily_checkins : list Checkin;
  media : list Media;
  checkin_seq : Z
}.

(** [UPDATE t SET ... WHERE p]: every row that satisfies [p] is rewritten
    by [f]. *)
Definition update_where {A} (p : A -> bool) (f : A -> A) (rows : list A) : list A :=
  map (fun r => if p r then f r else r) rows.

(** [fetchrow] on [UPDATE ... WHERE p RETURNING *]: the first row that was
    rewritten, or [None] when the statement touched no row. *)
Definition returning {A} (p : A -> bool) (f : A -> A) (rows : list A) : option A :=
  f <$> find p rows.

Definition by_id (id : Z) (c : Checkin) : bool := checkin_id_of c =? id.

(** The conflict target [(driver_id, date)] of [daily_checkins]. *)
Definition by_day (did : Z) (day : date) (c : Checkin) : bool :=
  (driver_id c =? did) && (check_date_of c =? day).

(** [WHERE driver_id = $1 AND group_id = $2 AND date = $3]. *)
Definition by_group_day (did gid : Z) (day : date) (c : Checkin) : bool :=
  (driver_id c =? did) && (group_id c =? gid) && (check_date_of c =? day).

Definition by_driver (did : Z) (d : Driver) : bool := driver_id_of d =? did.

(** Modelled from the spec: the declaration of the table [daily_checkins]
    (its column defaults) is not part of the sources.  The spec has
    [ensure] create a [pending] row and counts media from zero, so a row
    inserted with only [(driver_id, group_id, date)] starts as [pending]
    with [media_count = 0] and every optional column [NULL]. *)
Definition new_checkin (id did gid : Z) (day : date) (now : datetime) : Checkin :=
  {| checkin_id_of := id; driver_id := did; group_id := gid;
     check_date_of := day; sent_at := None; responded_at := None;
     status := "pending"; reason := None; reviewer_user_id := None;
     reviewed_at := None; review_message_id := None; media_count := 0;
     updated_at := now |}.

(** [DO UPDATE SET group_id = EXCLUDED.group_id, updated_at = now()]. *)
Definition touch_row (gid : Z) (now : datetime) (c : Checkin) : Checkin :=
  {| checkin_id_of := checkin_id_of c; driver_id := driver_id c;
     group_id := gid;
     check_date_of := check_date_of c; sent_at := sent_at c;
     responded_at := responded_at c; status := status c;
     reason := reason c; reviewer_user_id := reviewer_user_id c;
     reviewed_at := reviewed_at c;
     review_message_id := review_message_id c;
     media_count := media_count c;
     updated_at := now |}.

(** [INSERT INTO daily_checkins (driver_id, group_id, date) VALUES (...)
     ON CONFLICT (driver_id, date) DO UPDATE SET ... RETURNING *], the
    statement shared by [ensure_checkin] and [record_media].  The row to
    insert is formed, with its [id] drawn from [checkin_seq], before the
    conflict is seen: the number is spent on either branch. *)
Definition upsert_checkin (db : DB) (did gid : Z) (day : date) (now : datetime)
    : DB * Checkin :=
  match find (by_day did day) (daily_checkins db) with
  | Some c =>
      ({| drivers := drivers db;
          daily_checkins :=
            update_where (by_day did day) (touch_row gid now) (daily_checkins db);
          media := media db;
          checkin_seq := checkin_seq db + 1 |},
       touch_row gid now c)
  | None =>
      let c := new_checkin (checkin_seq db) did gid day now in
      ({| drivers := drivers db;
          daily_checkins := daily_checkins db ++ [c];
          media := media db;
          checkin_seq := checkin_seq db + 1 |},
       c)
  end.

Definition ensure_checkin (db : DB) (did gid : Z) (day : date) (now : datetime)
    : DB * Checkin :=
  upsert_checkin db did gid day now.

(** [SET sent_at = COALESCE(sent_at, now()), updated_at = now()]. *)
Definition notified_row (now : datetime) (c : Checkin) : Checkin :=
  {| checkin_id_of := checkin_id_of c; driver_id := driver_id c;
     group_id := group_id c; check_date_of := check_date_of c;
     sent_at := Some (default now (sent_at c));
     responded_at := responded_at c; status := status c;
     reason := reason c; reviewer_user_id := reviewer_user_id c;
     reviewed_at := reviewed_at c;
     review_message_id := review_message_id c;
     media_count := media_count c;
     updated_at := now |}.

(** [mark_notified]; [None] stands for the exception raised when
    [_record_to_checkin] is handed no record. *)
Definition mark_notified (db : DB) (id : Z) (now : datetime) : option (DB * Checkin) :=
  c ← returning (by_id id) (notified_row now) (daily_checkins db);
  Some ({| drivers := drivers db;
           daily_checkins :=
             update_where (by_id id) (notified_row now) (daily_checkins db);
           media := media db;
           checkin_seq := checkin_seq db |}, c).

(** The [SET] clause of [reset_checkin]. *)
Definition reset_row (now : datetime) (c : Checkin) : Checkin :=
  {| checkin_id_of := checkin_id_of c; driver_id := driver_id c;
     group_id := group_id c; check_date_of := check_date_of c;
     sent_at := None; responded_at := None; status := "pending";
     reason := None; reviewer_user_id := None; reviewed_at := None;
     review_message_id := None; media_count := 0;
     updated_at := now |}.

(** [UPDATE drivers SET last_pass_at = $v, updated_at = now()]. *)
Definition set_last_pass (v : option datetime) (now : datetime) (d : Driver) : Driver :=
  {| driver_id_of := driver_id_of d;
     telegram_user_id := telegram_user_id d;
     username := username d;
     display_name := display_name d;
     active := active d;
     streak_current := streak_current d;
     streak_best := streak_best d;
     notify_chat_id := notify_chat_id d;
     last_pass_at := v;
     last_congrats_at := last_congrats_at d;
     last_check_date := last_check_date d;
     driver_updated_at := now |}.

(** [reset_checkin]; [None] is its [ValueError("Checkin not found")]. *)
Definition reset_checkin (db : DB) (id : Z) (now : datetime) : option (DB * Checkin) :=
  match find (by_id id) (daily_checkins db) with
  | None => None
  | Some record =>
      let did := driver_id record in
      let media1 := filter (fun m => media_checkin_id m ≠ id) (media db) in
      c ← returning (by_id id) (reset_row now) (daily_checkins db);
      Some ({| drivers :=
                 update_where (by_driver did) (set_last_pass None now) (drivers db);
               daily_checkins :=
                 update_where (by_id id) (reset_row now) (daily_checkins db);
               media := media1;
               checkin_seq := checkin_seq db |}, c)
  end.

(** The [SET] clause of the last statement of [record_media]. *)
Definition media_row (now : datetime) (c : Checkin) : Checkin :=
  {| checkin_id_of := checkin_id_of c; driver_id := driver_id c;
     group_id := group_id c; check_date_of := check_date_of c;
     sent_at := sent_at c;
     responded_at := Some (default now (responded_at c));
     status := if str_in (status c) ["pending"; "submitted"]%string
               then "submitted"%string else status c;
     reason := None;
     reviewer_user_id := reviewer_user_id c;
     reviewed_at := reviewed_at c;
     review_message_id := review_message_id c;
     media_count := media_count c + 1;
     updated_at := now |}.

Section RecordMedia.

(** The declaration of the table [media] is not part of the sources: the
    constraint that makes [INSERT ... ON CONFLICT DO NOTHING] skip a row is
    left open. *)
Variable media_conflict : Media -> list Media -> bool.

(** [record_media]: the three statements of its transaction.  [None] is
    the exception raised when the final [UPDATE] returns no record. *)
Definition record_media (db : DB) (did gid : Z) (day : date)
    (kind file_id : string) (mgid : option string) (now : datetime)
    : option (DB * Checkin * bool) :=
  let '(db1, checkin_record) := upsert_checkin db did gid day now in
  let first_media := media_count checkin_record =? 0 in
  let checkin_id := checkin_id_of checkin_record in
  let m := mkMedia checkin_id kind file_id mgid in
  let media1 := if media_conflict m (media db1) then media db1
                else media db1 ++ [m] in
  updated ← returning (by_id checkin_id) (media_row now) (daily_checkins db1);
  Some ({| drivers := drivers db1;
           daily_checkins :=
             update_where (by_id checkin_id) (media_row now) (daily_checkins db1);
           media := media1;
           checkin_seq := checkin_seq db1 |}, updated, first_media).

End RecordMedia.

(** The [SET] clause of [update_review_status]. *)
Definition review_row (st : string) (why : option string) (reviewer : Z)
    (now : datetime) (c : Checkin) : Checkin :=
  {| checkin_id_of := checkin_id_of c; driver_id := driver_id c;
     group_id := group_id c; check_date_of := check_date_of c;
     sent_at := sent_at c; responded_at := responded_at c;
     status := st; reason := why; reviewer_user_id := Some reviewer;
     reviewed_at := Some now;
     review_message_id := review_message_id c;
     media_count := media_count c;
     updated_at := now |}.

Definition update_review_status (db : DB) (did gid : Z) (day : date)
    (st : string) (reviewer : Z) (why : option string) (now : datetime)
    : DB * option Checkin :=
  match returning (by_group_day did gid day) (review_row st why reviewer now)
          (daily_checkins db) with
  | Some record =>
      let rows := update_where (by_group_day did gid day)
                    (review_row st why reviewer now) (daily_checkins db) in
      let drivers1 :=
        if String.eqb st "pass" then
          update_where (by_driver did) (set_last_pass (Some now) now) (drivers db)
        else if str_in st ["fail"; "needs_fix"]%string then
          update_where (by_driver did) (set_last_pass None now) (drivers db)
        else drivers db in
      ({| drivers := drivers1; daily_checkins := rows;
          media := media db; checkin_seq := checkin_seq db |}, Some record)
  | None => (db, None)
  end.

(** The [SET] clause of [reopen_checkin]. *)
Definition reopen_row (now : datetime) (c : Checkin) : Checkin :=
  {| checkin_id_of := checkin_id_of c; driver_id := driver_id c;
     group_id := group_id c; check_date_of := check_date_of c;
     sent_at := sent_at c; responded_at := responded_at c;
     status := "submitted"; reason := None; reviewer_user_id := None;
     reviewed_at := None;
     review_message_id := review_message_id c;
     media_count := media_count c;
     updated_at := now |}.

Definition reopen_checkin (db : DB) (did gid : Z) (day : date) (now : datetime)
    : DB * option Checkin :=
  match returning (by_group_day did gid day) (reopen_row now) (daily_checkins db) with
  | Some record =>
      ({| drivers :=
            update_where (by_driver did) (set_last_pass None now) (drivers db);
          daily_checkins :=
            update_where (by_group_day did gid day) (reopen_row now)
              (daily_checkins db);
          media := media db;
          checkin_seq := checkin_seq db |}, Some record)
  | None => (db, None)
  end.

(** [set_review_message]. *)
Definition message_row (mid : Z) (now : datetime) (c : Checkin) : Checkin :=
  {| checkin_id_of := checkin_id_of c; driver_id := driver_id c;
     group_id := group_id c; check_date_of := check_date_of c;
     sent_at := sent_at c; responded_at := responded_at c;
     status := status c; reason := reason c;
     reviewer_user_id := reviewer_user_id c;
     reviewed_at := reviewed_at c;
     review_message_id := Some mid;
     media_count := media_count c;
     updated_at := now |}.

Definition set_review_message (db : DB) (id mid : Z) (now : datetime) : DB :=
  {| drivers := drivers db;
     daily_checkins := update_where (by_id id) (message_row mid now) (daily_checkins db);
     media := media db;
     checkin_seq := checkin_seq db |}.

(** [fetch_checkin_by_id]. *)
Definition fetch_checkin_by_id (db : DB) (id : Z) : option Checkin :=
  find (by_id id) (daily_checkins db).

(** [find_driver_by_id]. *)
Definition find_driver_by_id (db : DB) (did : Z) : option Driver :=
  find (by_driver did) (drivers db).

(** The constraints of [daily_checkins]: the primary key [id], drawn from
    [checkin_seq], and the conflict target [(driver_id, date)]. *)
Definition day_key (c : Checkin) : Z * date := (driver_id c, check_date_of c).

Definition checkins_ok (db : DB) : Prop :=
  NoDup (checkin_id_of <$> daily_checkins db)
  /\ NoDup (day_key <$> daily_checkins db)
  /\ Forall (fun c => checkin_id_of c < checkin_seq db) (daily_checkins db).

(** [fetch_checkin]. *)
Definition fetch_checkin (db : DB) (did gid : Z) (day : date) : option Checkin :=
  find (by_group_day did gid day) (daily_checkins db).

(** [set_offthread_warning]. *)
Definition warning_row (warn : bool) (now : datetime) (c : Checkin) : Checkin :=
  {| checkin_id_of := checkin_id_of c; driver_id := driver_id c;
     group_id := group_id c; check_date_of := check_date_of c;
     sent_at := sent_at c; responded_at := responded_at c;
     status := status c;
     reason := if warn then Some "offthread_warning"%string else None;
     reviewer_user_id := reviewer_user_id c;
     reviewed_at := reviewed_at c;
     review_message_id := review_message_id c;
     media_count := media_count c;
     updated_at := now |}.

Definition set_offthread_warning (db : DB) (id : Z) (warn : bool)
    (now : datetime) : DB :=
  {| drivers := drivers db;
     daily_checkins := update_where (by_id id) (warning_row warn now) (daily_checkins db);
     media := media db;
     checkin_seq := checkin_seq db |}.

(** The [SET] clause of the [UPDATE] of [set_excused]. *)
Definition excused_row (why : string) (now : datetime) (c : Checkin) : Checkin :=
  {| checkin_id_of := checkin_id_of c; driver_id := driver_id c;
     group_id := group_id c; check_date_of := check_date_of c;
     sent_at := sent_at c; responded_at := responded_at c;
     status := "excused"; reason := Some why; reviewer_user_id := None;
     reviewed_at := Some now;
     review_message_id := review_message_id c;
     media_count := media_count c;
     updated_at := now |}.

(** The row of the [INSERT] of [set_excused]: the columns it names, and
    the defaults of [new_checkin] for the others. *)
Definition excused_checkin (id did gid : Z) (day : date) (why : string)
    (now : datetime) : Checkin :=
  {| checkin_id_of := id; driver_id := did; group_id := gid;
     check_date_of := day; sent_at := None; responded_at := None;
     status := "excused"; reason := Some why; reviewer_user_id := None;
     reviewed_at := Some now; review_message_id := None; media_count := 0;
     updated_at := now |}.

(** [set_excused].  Its [INSERT] has no [ON CONFLICT] clause: when the
    driver has a row for the day under another group, the [UPDATE] finds
    nothing and the [INSERT] violates the key [(driver_id, date)]; [None]
    is that exception, and no row is written. *)
Definition set_excused (db : DB) (did gid : Z) (day : date) (why : string)
    (now : datetime) : option (DB * Checkin) :=
  match returning (by_group_day did gid day) (excused_row why now)
          (daily_checkins db) with
  | Some record =>
      Some ({| drivers := drivers db;
               daily_checkins :=
                 update_where (by_group_day did gid day) (excused_row why now)
                   (daily_checkins db);
               media := media db;
               checkin_seq := checkin_seq db |}, record)
  | None =>
      match find (by_day did day) (daily_checkins db) with
      | Some _ => None
      | None =>
          let c := excused_checkin (checkin_seq db) did gid day why now in
          Some ({| drivers := drivers db;
                   daily_checkins := daily_checkins db ++ [c];
                   media := media db;
                   checkin_seq := checkin_seq db + 1 |}, c)
      end
  end.

(** The number that a failing [INSERT] has drawn from [checkin_seq] is
    spent. *)
Definition spend_id (db : DB) : DB :=
  {| drivers := drivers db; daily_checkins := daily_checkins db;
     media := media db; checkin_seq := checkin_seq db + 1 |}.

(** The writes of the ledger, as events.  An operation that raises
    leaves the tables as they were: [reset_checkin] and [mark_notified]
    raise before they have written, [record_media] runs in a transaction,
    and the failing [INSERT] of [set_excused] is its only statement that
    would write a row. *)
Inductive op :=
| Ensure (did gid : Z) (day : date) (now : datetime)
| MarkNotified (id : Z) (now : datetime)
| Reset (id : Z) (now : datetime)
| RecordMedia (did gid : Z) (day : date) (kind file_id : string)
    (mgid : option string) (now : datetime)
| SetReviewMessage (id mid : Z) (now : datetime)
| SetWarning (id : Z) (warn : bool) (now : datetime)
| SetExcused (did gid : Z) (day : date) (why : string) (now : datetime)
| UpdateReview (did gid : Z) (day : date) (st : string) (reviewer : Z)
    (why : option string) (now : datetime)
| Reopen (did gid : Z) (day : date) (now : datetime).

Definition step (media_conflict : Media -> list Media -> bool) (db : DB) (o : op)
    : DB :=
  match o with
  | Ensure did gid day now => (ensure_checkin db did gid day now).1
  | MarkNotified id now =>
      match mark_notified db id now with Some (db1, _) => db1 | None => db end
  | Reset id now =>
      match reset_checkin db id now with Some (db1, _) => db1 | None => db end
  | RecordMedia did gid day kind file_id mgid now =>
      match record_media media_conflict db did gid day kind file_id mgid now with
      | Some (db1, _, _) => db1
      | None => db
      end
  | SetReviewMessage id mid now => set_review_message db id mid now
  | SetWarning id warn now => set_offthread_warning db id warn now
  | SetExcused did gid day why now =>
      match set_excused db did gid day why now with
      | Some (db1, _) => db1
      | None => spend_id db
      end
  | UpdateReview did gid day st reviewer why now =>
      (update_review_status db did gid day st reviewer why now).1
  | Reopen did gid day now => (reopen_checkin db did gid day now).1
  end.

Definition run (media_conflict : Media -> list Media -> bool) (db : DB)
    (ops : list op) : DB :=
  foldl (step media_conflict) db ops.

Definition is_reset (o : op) : bool :=
  match o with
  | Reset _ _ => true
  | _ => false
  end.

Definition empty_db : DB :=
  {| drivers := []; daily_checkins := []; media := []; checkin_seq := 1 |}.

End Checks.

(** ** Compliance tracker ([app/services/compliance.py]) *)

Module Compliance.

Definition REPORT_WINDOW : timedelta := hours 24.

Definition PAUSE_TOKENS : list string :=
  ["inactive"; "home"; "home time"]%string.

Definition EXCEPTION_KEYWORDS : list string :=
  ["trailer not ready"; "dropped"; "drop yard"; "at shop"; "shop";
   "in shop"; "no trailer"; "waiting on trailer"]%string.

Record DriverChatInfo := mkChatInfo {
  chat_id : Z;
  title : string;
  link : option string
}.

(** A row of [compliance_tracking], dataclass [ComplianceState]. *)
Record ComplianceState := mkState {
  state_driver_id : Z;
  consecutive_reports : Z;
  last_report_at : option datetime;
  last_driver_alert_at : option datetime;
  last_dispatch_alert_at : option datetime;
  last_status : option string;
  last_comment_thread_id : option Z
}.

Record ComplianceEntry := mkEntry {
  driver : Driver;
  checkin : option Checkin;
  entry_status : string;
  entry_reason : option string;
  target_date : date
}.

(** [now - t <= REPORT_WINDOW]. *)
Definition within_window (now t : datetime) : bool := now - t <=? REPORT_WINDOW.

(** [t and now - t <= REPORT_WINDOW] for an optional timestamp. *)
Definition recent (now : datetime) (t : option datetime) : bool :=
  match t with
  | Some t => within_window now t
  | None => false
  end.

Section Evaluate.

(** [str.lower] and the calendar day of an instant in the group's time
    zone ([now.date()]) are library functions; they are left open. *)
Variable lower : string -> string.
Variable date_of : datetime -> date.

Definition _evaluate_driver (d : Driver) (c : option Checkin) (now : datetime)
    : string * option string * date :=
  match c with
  | Some c =>
      let reason_text := lower (default ""%string (reason c)) in
      if negb (String.eqb reason_text "") && any_in EXCEPTION_KEYWORDS reason_text
      then ("exception"%string, reason c, check_date_of c)
      else if String.eqb (status c) "pass" && recent now (reviewed_at c)
      then ("compliant"%string, None, check_date_of c)
      else if String.eqb (status c) "excused"
      then ("exception"%string, reason c, check_date_of c)
      else if String.eqb (status c) "needs_fix"
      then ("exception"%string, Some "Needs fix"%string, check_date_of c)
      else if String.eqb (status c) "fail"
      then ("non_compliant"%string, reason c, check_date_of c)
      else if str_in (status c) ["pending"; "submitted"]%string
              && recent now (last_pass_at d)
      then ("compliant"%string, None, check_date_of c)
      else ("non_compliant"%string, reason c, check_date_of c)
  | None =>
      if recent now (last_pass_at d)
      then ("compliant"%string, None, date_of now)
      else ("non_compliant"%string, None, date_of now)
  end.

Definition _is_paused_chat (title : string) : bool :=
  any_in PAUSE_TOKENS (lower title).

(** The first loop of [send_hourly_report]: one entry per active driver,
    with the latest check-in of the driver when there is one. *)
Definition evaluate_entry (latest_by_driver : gmap Z Checkin) (now : datetime)
    (d : Driver) : ComplianceEntry :=
  let c := latest_by_driver !! driver_id_of d in
  let '(st, why, day) := _evaluate_driver d c now in
  {| driver := d; checkin := c; entry_status := st; entry_reason := why;
     target_date := day |}.

(** [chat_map.get(entry.driver.notify_chat_id)
     if entry.driver.notify_chat_id else None]. *)
Definition chat_info_of (chat_map : gmap Z DriverChatInfo) (e : ComplianceEntry)
    : option DriverChatInfo :=
  if truthy_int (notify_chat_id (driver e))
  then cid ← notify_chat_id (driver e); chat_map !! cid
  else None.

(** The body of the loop that reclassifies the pending entries.  The
    loop runs over [pending_entries], the entries whose status is
    [non_compliant], and writes to the entry objects that [entries]
    holds as well. *)
Definition reclassify (chat_map : gmap Z DriverChatInfo) (e : ComplianceEntry)
    : ComplianceEntry :=
  if String.eqb (entry_status e) "non_compliant" then
    match chat_info_of chat_map e with
    | Some info =>
        if _is_paused_chat (title info)
        then {| driver := driver e; checkin := checkin e;
                entry_status := "exception";
                entry_reason := Some "Chat inactive"%string;
                target_date := target_date e |}
        else e
    | None => e
    end
  else e.

(** [bot.get_chat] and the [DriverChatInfo] that [_fetch_chat_info] makes
    of its answer; [None] when the call raises. *)
Variable fetch_chat : Z -> option DriverChatInfo.

(** The loop of [_fetch_chat_info]: every linked chat is asked for once;
    a chat that cannot be fetched gets no entry. *)
Fixpoint fetch_chats (entries : list ComplianceEntry) (seen : gset Z)
    (result : gmap Z DriverChatInfo) : gmap Z DriverChatInfo :=
  match entries with
  | [] => result
  | e :: rest =>
      match notify_chat_id (driver e) with
      | Some cid =>
          if (cid =? 0) || bool_decide (cid ∈ seen) then fetch_chats rest seen result
          else match fetch_chat cid with
               | Some info =>
                   fetch_chats rest ({[cid]} ∪ seen) (<[cid := info]> result)
               | None => fetch_chats rest ({[cid]} ∪ seen) result
               end
      | None => fetch_chats rest seen result
      end
  end.

Definition _fetch_chat_info (entries : list ComplianceEntry)
    : gmap Z DriverChatInfo :=
  fetch_chats entries ∅ ∅.

(** The entries of a tick as the tracking loop of [send_hourly_report]
    sees them: evaluated, and the pending ones reclassified by the
    titles of their chats. *)
Definition classify_all (drivers : list Driver) (latest_by_driver : gmap Z Checkin)
    (now : datetime) : list ComplianceEntry :=
  let entries := evaluate_entry latest_by_driver now <$> drivers in
  let pending_entries :=
    filter (fun e => entry_status e = "non_compliant"%string) entries in
  let chat_map := _fetch_chat_info pending_entries in
  reclassify chat_map <$> entries.

End Evaluate.

(** [_upsert_state].  A comparison with a [NULL] [last_status] is not
    true, so such a row takes the second [WHEN]. *)
Definition _upsert_state (tracking : gmap Z ComplianceState) (did : Z)
    (st : string) (now : datetime) : gmap Z ComplianceState * ComplianceState :=
  let row :=
    match tracking !! did with
    | None =>
        {| state_driver_id := did;
           consecutive_reports := if String.eqb st "non_compliant" then 1 else 0;
           last_report_at := Some now;
           last_driver_alert_at := None;
           last_dispatch_alert_at := None;
           last_status := Some st;
           last_comment_thread_id := None |}
    | Some old =>
        {| state_driver_id := state_driver_id old;
           consecutive_reports :=
             if String.eqb st "non_compliant"
                && bool_decide (last_status old = Some "non_compliant"%string)
             then consecutive_reports old + 1
             else if String.eqb st "non_compliant" then 1
             else 0;
           last_report_at := Some now;
           last_driver_alert_at := last_driver_alert_at old;
           last_dispatch_alert_at := last_dispatch_alert_at old;
           last_status := Some st;
           last_comment_thread_id := last_comment_thread_id old |}
    end in
  (<[did := row]> tracking, row).

Definition _reset_state (tracking : gmap Z ComplianceState) (did : Z)
    (now : datetime) (st : string) : gmap Z ComplianceState :=
  alter (fun old =>
    {| state_driver_id := state_driver_id old;
       consecutive_reports := 0;
       last_report_at := Some now;
       last_driver_alert_at := last_driver_alert_at old;
       last_dispatch_alert_at := last_dispatch_alert_at old;
       last_status := Some st;
       last_comment_thread_id := last_comment_thread_id old |}) did tracking.

Definition _should_alert_driver (state : ComplianceState) (now : datetime) : bool :=
  if consecutive_reports state <? 2 then false
  else match last_driver_alert_at state with
       | Some t => if now - t <? REPORT_WINDOW then false else true
       | None => true
       end.

Definition _should_alert_dispatch (state : ComplianceState) (now : datetime) : bool :=
  if consecutive_reports state <? 3 then false
  else match last_dispatch_alert_at state with
       | Some t => if now - t <? REPORT_WINDOW then false else true
       | None => true
       end.

Definition _mark_driver_alert (tracking : gmap Z ComplianceState) (did : Z)
    (when : datetime) : gmap Z ComplianceState :=
  alter (fun old =>
    {| state_driver_id := state_driver_id old;
       consecutive_reports := consecutive_reports old;
       last_report_at := last_report_at old;
       last_driver_alert_at := Some when;
       last_dispatch_alert_at := last_dispatch_alert_at old;
       last_status := last_status old;
       last_comment_thread_id := last_comment_thread_id old |}) did tracking.

Definition _mark_dispatch_alert (tracking : gmap Z ComplianceState) (did : Z)
    (when : datetime) : gmap Z ComplianceState :=
  alter (fun old =>
    {| state_driver_id := state_driver_id old;
       consecutive_reports := consecutive_reports old;
       last_report_at := last_report_at old;
       last_driver_alert_at := last_driver_alert_at old;
       last_dispatch_alert_at := Some when;
       last_status := last_status old;
       last_comment_thread_id := last_comment_thread_id old |}) did tracking.

(** What the tracking loop of [send_hourly_report] decides for one entry:
    the new table, and whether the entry joins [alert_driver] and
    [alert_dispatch]. *)
Definition track_entry (tracking : gmap Z ComplianceState) (now : datetime)
    (d : Driver) (st : string) : gmap Z ComplianceState * bool * bool :=
  let did := driver_id_of d in
  let '(t1, state) := _upsert_state tracking did st now in
  if String.eqb st "non_compliant" then
    let nudge := truthy_int (notify_chat_id d) && _should_alert_driver state now in
    let t2 := if nudge then _mark_driver_alert t1 did now else t1 in
    let escalate := _should_alert_dispatch state now in
    let t3 := if escalate then _mark_dispatch_alert t2 did now else t2 in
    (t3, nudge, escalate)
  else
    let t2 := if negb (consecutive_reports state =? 0)
              then _reset_state t1 did now st else t1 in
    (t2, false, false).

(** The two kinds of alert, and an alert that a tick decided to send. *)
Inductive alert_kind := DriverAlert | DispatchAlert.

Inductive alert := Alert (k : alert_kind) (did : Z) (at_time : datetime).

(** The tracking loop over the entries of one tick; the alerts are listed
    in the order in which they were decided. *)
Fixpoint track_entries (tracking : gmap Z ComplianceState) (now : datetime)
    (entries : list (Driver * string)) : gmap Z ComplianceState * list alert :=
  match entries with
  | [] => (tracking, [])
  | (d, st) :: rest =>
      let '(t1, nudge, escalate) := track_entry tracking now d st in
      let '(t2, alerts) := track_entries t1 now rest in
      (t2,
       (if nudge then [Alert DriverAlert (driver_id_of d) now] else [])
       ++ (if escalate then [Alert DispatchAlert (driver_id_of d) now] else [])
       ++ alerts)
  end.

(** A run of ticks, each with its clock reading and its entries. *)
Fixpoint run_ticks (tracking : gmap Z ComplianceState)
    (ticks : list (datetime * list (Driver * string)))
    : gmap Z ComplianceState * list alert :=
  match ticks with
  | [] => (tracking, [])
  | (now, entries) :: rest =>
      let '(t1, a1) := track_entries tracking now entries in
      let '(t2, a2) := run_ticks t1 rest in
      (t2, a1 ++ a2)
  end.

(** The tracking part of [handle_pass_event]. *)
Definition handle_pass_event (tracking : gmap Z ComplianceState) (did : Z)
    (event_time : datetime) : gmap Z ComplianceState :=
  let '(t1, _) := _upsert_state tracking did "compliant" event_time in
  _reset_state t1 did event_time "compliant".

(** *** The numbers of the hourly report *)

Section Report.

Variable lower : string -> string.
Variable date_of : datetime -> date.
Variable fetch_chat : Z -> option DriverChatInfo.

(** [chat_info and _is_paused_chat(chat_info.title)], the test of the
    loop that reclassifies. *)
Definition inactive_chat (chat_map : gmap Z DriverChatInfo) (e : ComplianceEntry)
    : bool :=
  match chat_info_of chat_map e with
  | Some info => _is_paused_chat lower (title info)
  | None => false
  end.

(** The numbers that the summary of [send_hourly_report] prints, and the
    number [compliant_total] that it computes beside them. *)
Record Summary := mkSummary {
  compliant_total : Z;
  exception_total : Z;
  effective_total : Z;
  pending_total : Z;
  compliant_count : Z
}.

(** [send_hourly_report] up to its summary.  [pending_entries.remove(entry)]
    takes out the entry that the loop has just rewritten: it is the first
    one of the list that equals it, since the entries before it that are
    still in the list are [non_compliant]. *)
Definition report_summary (drivers : list Driver)
    (latest_by_driver : gmap Z Checkin) (now : datetime) : Summary :=
  let entries0 := evaluate_entry lower date_of latest_by_driver now <$> drivers in
  let pending_entries :=
    filter (fun e => entry_status e = "non_compliant"%string) entries0 in
  let chat_map := _fetch_chat_info fetch_chat pending_entries in
  let entries := reclassify lower chat_map <$> entries0 in
  let pending_left :=
    filter (fun e => inactive_chat chat_map e = false) pending_entries in
  let compliant :=
    Z.of_nat (length (filter (fun e => entry_status e = "compliant"%string) entries)) in
  let exception_entries :=
    filter (fun e => entry_status e = "exception"%string) entries in
  let effective :=
    Z.max (Z.of_nat (length drivers) - Z.of_nat (length exception_entries)) 0 in
  let pending := Z.of_nat (length pending_left) in
  {| compliant_total := compliant;
     exception_total := Z.of_nat (length exception_entries);
     effective_total := effective;
     pending_total := pending;
     compliant_count := Z.max (effective - pending) 0 |}.

End Report.

(** *** Comment prompts *)

Section Prompts.

(** The declaration of [compliance_tracking] is not part of the sources:
    the row that [store_comment_prompt] inserts takes the columns that the
    statement does not name from [blank]. *)
Variable blank : ComplianceState.

Definition prompt_row (message_id : option Z) (old : ComplianceState)
    : ComplianceState :=
  {| state_driver_id := state_driver_id old;
     consecutive_reports := consecutive_reports old;
     last_report_at := last_report_at old;
     last_driver_alert_at := last_driver_alert_at old;
     last_dispatch_alert_at := last_dispatch_alert_at old;
     last_status := last_status old;
     last_comment_thread_id := message_id |}.

(** [store_comment_prompt]. *)
Definition store_comment_prompt (tracking : gmap Z ComplianceState)
    (did message_id : Z) : gmap Z ComplianceState :=
  match tracking !! did with
  | Some old => <[did := prompt_row (Some message_id) old]> tracking
  | None =>
      <[did := {| state_driver_id := did;
                  consecutive_reports := consecutive_reports blank;
                  last_report_at := last_report_at blank;
                  last_driver_alert_at := last_driver_alert_at blank;
                  last_dispatch_alert_at := last_dispatch_alert_at blank;
                  last_status := last_status blank;
                  last_comment_thread_id := Some message_id |}]> tracking
  end.

End Prompts.

(** [resolve_comment_prompt]: [fetchrow] takes a row that waits for the
    message, if there is one. *)
Definition resolve_comment_prompt (tracking : gmap Z ComplianceState)
    (message_id : Z) : gmap Z ComplianceState * option Z :=
  match map_to_list
          (filter (fun kv => last_comment_thread_id kv.2 = Some message_id)
                  tracking) with
  | (did, _) :: _ => (alter (prompt_row None) did tracking, Some did)
  | [] => (tracking, None)
  end.

(** [clear_tracking]: a row is added to [compliance_resets], and
    [compliance_tracking] is emptied. *)
Definition clear_tracking (resets : nat) (tracking : gmap Z ComplianceState)
    : nat * gmap Z ComplianceState :=
  (S resets, ∅).

End Compliance.

(** ** Groups and driver chats ([app/services/roles.py]) *)

Module Roles.

Definition DRIVER_PAUSE_TOKENS : list string :=
  ["inactive"; "home"; "home time"]%string.

(** Dataclass [GroupSettings]; a time of day is counted in minutes. *)
Record GroupSettings := mkGroup {
  group_id_of : Z;
  group_title : string;
  rolling_topic_id : Z;
  compliance_topic_id : option Z;
  trailer_topic_id : option Z;
  tz : string;
  paused : bool;
  autosend_enabled : bool;
  autosend_time : option Z;
  digest_time : Z
}.

(** What the services read of a transport [Chat]. *)
Record Chat := mkChat {
  chat_ident : Z;
  chat_title : option string;
  chat_full_name : option string
}.

(** [a or b] on optional strings: [None] and the empty string are falsy. *)
Definition str_or (a : option string) (b : string) : string :=
  match a with
  | Some s => if String.eqb s "" then b else s
  | None => b
  end.

(** [fetch_group]. *)
Definition fetch_group (groups : list GroupSettings) (gid : Z) : option GroupSettings :=
  find (fun g => group_id_of g =? gid) groups.

Section Pause.

Variable lower : string -> string.

Definition is_driver_chat_paused (chat : option Chat) : bool :=
  match chat with
  | None => false
  | Some chat =>
      let title := str_or (chat_title chat) (str_or (chat_full_name chat) "") in
      any_in DRIVER_PAUSE_TOKENS (lower title)
  end.

End Pause.

(** The group as [refresh_group_pause] rebuilds it: the title it was
    given, and [paused = False]. *)
Definition renamed (new_title : string) (g : GroupSettings) : GroupSettings :=
  {| group_id_of := group_id_of g; group_title := new_title;
     rolling_topic_id := rolling_topic_id g;
     compliance_topic_id := compliance_topic_id g;
     trailer_topic_id := trailer_topic_id g;
     tz := tz g; paused := false;
     autosend_enabled := autosend_enabled g;
     autosend_time := autosend_time g;
     digest_time := digest_time g |}.

Definition by_group (gid : Z) (g : GroupSettings) : bool := group_id_of g =? gid.

(** [refresh_group_pause] on the table [groups]; [None] when
    [bot.get_chat] raises.  The column [updated_at] of [groups] is not
    part of [GroupSettings] and is left out. *)
Definition refresh_group_pause (get_chat : Z -> option Chat)
    (groups : list GroupSettings) (group : GroupSettings)
    : option (list GroupSettings * GroupSettings) :=
  chat ← get_chat (group_id_of group);
  let new_title := str_or (chat_title chat) (group_title group) in
  if negb (String.eqb new_title (group_title group)) || paused group then
    Some (Checks.update_where (by_group (group_id_of group)) (renamed new_title)
            groups,
          renamed new_title group)
  else Some (groups, group).

(** The errors of a dispatcher check.  [TransportError] stands for an
    exception of the bot API, which these functions let through. *)
Inductive DispatcherError :=
| DispatcherGroupNotConfigured
| InvalidDispatcherContext
| UnauthorizedDispatcher (message : string)
| TransportError.

(** [_validate_membership] on [member.status]; [None]: it returns. *)
Definition _validate_membership (status : string) (require_admin : bool)
    : option DispatcherError :=
  if str_in status ["left"; "kicked"]%string then
    Some (UnauthorizedDispatcher
            "You must be a member of the dispatcher group to use this command.")
  else if require_admin && negb (str_in status ["administrator"; "creator"]%string)
  then Some (UnauthorizedDispatcher "Admin privileges required for this action.")
  else None.

(** [ensure_dispatcher_context]; [get_chat_member] answers with the
    status of the member, or [None] when the call raises. *)
Definition ensure_dispatcher_context (get_chat : Z -> option Chat)
    (get_chat_member : Z -> Z -> option string)
    (groups : list GroupSettings) (chat_id : Z) (message_thread_id : option Z)
    (user_id : Z) (require_admin : bool)
    : DispatcherError + (list GroupSettings * GroupSettings) :=
  match fetch_group groups chat_id with
  | None => inl DispatcherGroupNotConfigured
  | Some group =>
      if negb (bool_decide (Some (rolling_topic_id group) = message_thread_id))
      then inl InvalidDispatcherContext
      else
        match get_chat_member chat_id user_id with
        | None => inl TransportError
        | Some status =>
            match _validate_membership status require_admin with
            | Some e => inl e
            | None =>
                match refresh_group_pause get_chat groups group with
                | Some r => inr r
                | None => inl TransportError
                end
            end
        end
  end.

End Roles.

(** ** Follow-up scheduler ([app/services/autosend.py]) *)

Module Autosend.

Import Roles.

Definition FOLLOWUP_DELAYS : list timedelta := [minutes 15; minutes 50].

(** The id [f"followup:{checkin_id}:{idx}"] of a follow-up job is kept as
    the pair of the two numbers it is printed from. *)
Abbreviation job_id := (Z * Z)%type.

(** The argument list [args] of a follow-up job. *)
Record FollowupArgs := mkArgs {
  arg_checkin_id : Z;
  arg_group_id : Z;
  arg_thread_id : Z;
  arg_driver_id : Z;
  arg_target_chat_id : Z;
  arg_slot : Z;
  arg_tz_name : string
}.

(** A job of the scheduler with the trigger ['date']. *)
Record Job := mkJob {
  run_date : datetime;
  job_args : FollowupArgs
}.

(** [SchedulerService]: the follow-up jobs of the job store of
    [self.scheduler], and the index [self._followup_jobs]. *)
Record SchedulerService := mkService {
  scheduler : gmap job_id Job;
  _followup_jobs : gmap Z (list job_id)
}.

Definition empty_service : SchedulerService :=
  {| scheduler := ∅; _followup_jobs := ∅ |}.

(** [enumerate(l, start=n)]. *)
Fixpoint enumerate {A} (start : Z) (l : list A) : list (Z * A) :=
  match l with
  | [] => []
  | x :: rest => (start, x) :: enumerate (start + 1) rest
  end.

(** [cancel_followups]: the list is popped from the index, and each of
    its jobs that the scheduler still has is removed. *)
Definition cancel_followups (svc : SchedulerService) (checkin_id : Z)
    : SchedulerService :=
  let job_ids := default [] (_followup_jobs svc !! checkin_id) in
  {| scheduler := foldl (fun s j => delete j s) (scheduler svc) job_ids;
     _followup_jobs := delete checkin_id (_followup_jobs svc) |}.

(** The job that [schedule_followups] hands to [add_job] for a slot.
    [now] is [datetime.now(tz=ZoneInfo(group.tz))]: [now + delay] adds to
    the wall clock of the zone and keeps no fold, and the scheduler takes
    the result for the instant that the zone gives that reading. *)
Definition job_at (z : Zones) (checkin_id : Z) (group : GroupSettings)
    (d : Driver) (target_chat_id : Z) (now : datetime) (idx : Z)
    (delay : timedelta) : Job :=
  {| run_date :=
       instant_of z (tz group) (wall_clock z (tz group) now + delay);
     job_args := {| arg_checkin_id := checkin_id;
                    arg_group_id := group_id_of group;
                    arg_thread_id := rolling_topic_id group;
                    arg_driver_id := driver_id_of d;
                    arg_target_chat_id := target_chat_id;
                    arg_slot := idx;
                    arg_tz_name := tz group |} |}.

(** The loop of [schedule_followups]: [add_job(..., replace_existing=True)]
    and [jobs.append(job_id)] for each delay. *)
Definition arm (z : Zones) (checkin_id : Z) (group : GroupSettings) (d : Driver)
    (target_chat_id : Z) (now : datetime)
    (acc : gmap job_id Job * list job_id) (slot : Z * timedelta)
    : gmap job_id Job * list job_id :=
  let '(idx, delay) := slot in
  let jid := (checkin_id, idx) in
  (<[jid := job_at z checkin_id group d target_chat_id now idx delay]> acc.1,
   acc.2 ++ [jid]).

Definition schedule_followups (z : Zones) (svc : SchedulerService)
    (checkin_id : Z) (group : GroupSettings) (d : Driver) (target_chat_id : Z)
    (now : datetime) : SchedulerService :=
  let svc1 := cancel_followups svc checkin_id in
  let '(sched, jobs) :=
    foldl (arm z checkin_id group d target_chat_id now)
          (scheduler svc1, []) (enumerate 1 FOLLOWUP_DELAYS) in
  {| scheduler := sched;
     _followup_jobs :=
       match jobs with
       | [] => _followup_jobs svc1
       | _ => <[checkin_id := jobs]> (_followup_jobs svc1)
       end |}.

(** [list.remove(x)]: the first occurrence goes. *)
Fixpoint remove_first (x : job_id) (l : list job_id) : list job_id :=
  match l with
  | [] => []
  | y :: rest => if bool_decide (y = x) then rest else y :: remove_first x rest
  end.

(** A message that a job hands to the transport. *)
Inductive sent :=
| DriverNotification (chat : Z) (checkin_id : Z) (day : date)
| ReplyPrompt (chat : Z)
| StillPending (group thread slot driver : Z).

(** The answers of the transport while a job runs.  [get_chat] is [None]
    when the call raises.  [delivers] tells whether a send succeeds.
    [sync_card] is the effect of [checks.sync_review_card] on the
    ledger: [None] when a transport error escapes it, [Some None] when
    the stored card was edited in place, [Some (Some m)] when a fresh
    card with message id [m] was posted and stored. *)
Record World := mkWorld {
  get_chat : Z -> option Chat;
  delivers : sent -> bool;
  sync_card : Checkin -> option (option Z)
}.

(** [a or b] on an optional number. *)
Definition int_or (a : option Z) (b : Z) : Z :=
  if truthy_int a then default b a else b.

(** [chat_id or driver.notify_chat_id or driver.telegram_user_id]. *)
Definition target_chat (chat : option Z) (d : Driver) : Z :=
  int_or chat (int_or (notify_chat_id d) (telegram_user_id d)).

Section Followup.

Variable lower : string -> string.
Variable zones : Zones.

(** The first lines of [_run_followup_job]: the job takes its own id out
    of the list that the index holds, and pops the entry once the list
    is empty. *)
Definition forget_job (svc : SchedulerService) (checkin_id slot : Z)
    : SchedulerService :=
  let jid := (checkin_id, slot) in
  match _followup_jobs svc !! checkin_id with
  | Some jobs =>
      if bool_decide (jobs ≠ []) && bool_decide (jid ∈ jobs) then
        let jobs1 := remove_first jid jobs in
        {| scheduler := scheduler svc;
           _followup_jobs :=
             match jobs1 with
             | [] => delete checkin_id (_followup_jobs svc)
             | _ => <[checkin_id := jobs1]> (_followup_jobs svc)
             end |}
      else svc
  | None => svc
  end.

(** The sends at the end of [_run_followup_job]: the two messages of
    [checks.send_driver_notification], the notice for the dispatchers, and
    the review card.  An exception of the transport ends the job where it
    is raised; the handler of the job logs it. *)
Definition remind (w : World) (db : Checks.DB) (now : datetime)
    (a : FollowupArgs) (d : Driver) (group : GroupSettings) (c : Checkin)
    : Checks.DB * list sent :=
  let chat := target_chat (Some (arg_target_chat_id a)) d in
  let m1 := DriverNotification chat (checkin_id_of c) (check_date_of c) in
  let m2 := ReplyPrompt chat in
  let m3 := StillPending (group_id_of group) (arg_thread_id a) (arg_slot a)
              (driver_id_of d) in
  if negb (delivers w m1) then (db, [])
  else if negb (delivers w m2) then (db, [m1])
  else if negb (delivers w m3) then (db, [m1; m2])
  else match sync_card w c with
       | Some (Some mid) =>
           (Checks.set_review_message db (checkin_id_of c) mid now, [m1; m2; m3])
       | _ => (db, [m1; m2; m3])
       end.

Definition _run_followup_job (w : World) (svc : SchedulerService)
    (db : Checks.DB) (groups : list GroupSettings) (now : datetime)
    (a : FollowupArgs) : SchedulerService * Checks.DB * list sent :=
  let checkin_id := arg_checkin_id a in
  let svc1 := forget_job svc checkin_id (arg_slot a) in
  match Checks.fetch_checkin_by_id db checkin_id with
  | None => (cancel_followups svc1 checkin_id, db, [])
  | Some c =>
      if negb (str_in (status c) ["pending"; "submitted"]%string)
         || truthy_dt (responded_at c)
      then (cancel_followups svc1 checkin_id, db, [])
      else
        match Checks.find_driver_by_id db (arg_driver_id a),
              fetch_group groups (arg_group_id a) with
        | Some d, Some group =>
            if arg_target_chat_id a <? 0 then
              match get_chat w (arg_target_chat_id a) with
              | Some chat =>
                  if is_driver_chat_paused lower (Some chat)
                  then (cancel_followups svc1 checkin_id, db, [])
                  else let '(db1, out) := remind w db now a d group c in
                       (svc1, db1, out)
              | None => (cancel_followups svc1 checkin_id, db, [])
              end
            else let '(db1, out) := remind w db now a d group c in
                 (svc1, db1, out)
        | _, _ => (cancel_followups svc1 checkin_id, db, [])
        end
  end.

(** The scheduler runs a job once the clock has reached its [run_date];
    a job with the trigger ['date'] leaves the job store as it is run.
    [None]: the job is not in the store, or not yet due. *)
Definition fire (w : World) (svc : SchedulerService) (db : Checks.DB)
    (groups : list GroupSettings) (jid : job_id) (clock : datetime)
    : option (SchedulerService * Checks.DB * list sent) :=
  match scheduler svc !! jid with
  | Some job =>
      if run_date job <=? clock then
        Some (_run_followup_job w
                {| scheduler := delete jid (scheduler svc);
                   _followup_jobs := _followup_jobs svc |}
                db groups clock (job_args job))
      else None
  | None => None
  end.

(** The calls that reach the scheduler, as events. *)
Inductive op :=
| Schedule (checkin_id : Z) (group : GroupSettings) (d : Driver)
    (target_chat_id : Z) (now : datetime)
| Cancel (checkin_id : Z)
| Fire (w : World) (db : Checks.DB) (groups : list GroupSettings)
    (jid : job_id) (clock : datetime).

Definition step (svc : SchedulerService) (o : op) : SchedulerService :=
  match o with
  | Schedule c g d target now => schedule_followups zones svc c g d target now
  | Cancel c => cancel_followups svc c
  | Fire w db groups jid clock =>
      match fire w svc db groups jid clock with
      | Some (svc1, _, _) => svc1
      | None => svc
      end
  end.

Definition run (svc : SchedulerService) (ops : list op) : SchedulerService :=
  foldl step svc ops.

End Followup.

(** The follow-up jobs that the scheduler holds for a check-in. *)
Definition outstanding (svc : SchedulerService) (checkin_id : Z) : gmap job_id Job :=
  filter (fun kv => kv.1.1 = checkin_id) (scheduler svc).

(** The index tells the truth about the job store: a list of the index
    is not empty, repeats no job and holds only the two slots of its
    check-in; the store holds a job of a check-in exactly when the list of
    the check-in names it; and a job carries the numbers of its id. *)
Definition in_sync (svc : SchedulerService) : Prop :=
  (forall (c : Z) jobs, _followup_jobs svc !! c = Some jobs ->
     jobs <> [] /\ NoDup jobs /\ forall j, j ∈ jobs -> j = (c, 1) \/ j = (c, 2))
  /\ (forall c i : Z,
        is_Some (scheduler svc !! (c, i))
        <-> exists jobs, _followup_jobs svc !! c = Some jobs /\ (c, i) ∈ jobs)
  /\ (forall jid job, scheduler svc !! jid = Some job ->
        (arg_checkin_id (job_args job), arg_slot (job_args job)) = jid).

(** *** The cron jobs of a group *)

(** The triggers that [_schedule_group] builds. *)
Inductive cron :=
| DailyAt (hour minute : Z) (zone : string)
| EveryTwoHours (zone : string)
| MondayAt (hour minute : Z) (zone : string).

(** The method of the service that a cron job runs. *)
Inductive runner :=
| RunDigest
| RunMidnightReset
| RunAutosend
| RunCompliance
| RunWeeklyLeaderboard.

(** A cron job: its method, its trigger and its argument [group.id]. *)
Record CronJob := mkCron {
  cron_run : runner;
  cron_trigger : cron;
  cron_arg : Z
}.

(** The id [f"{kind}:{group_id}"] of a cron job is kept as the pair that
    it is printed from. *)
Abbreviation cron_id := (string * Z)%type.

Definition _job_id (kind : string) (group_id : Z) : cron_id := (kind, group_id).

(** [_schedule_group] on the cron jobs of the job store; every [add_job]
    has [replace_existing=True].  An [autosend_time] that is set is truthy
    (a [datetime.time] has been truthy at every hour since Python 3.5, and
    the module imports [zoneinfo]). *)
Definition _schedule_group (store : gmap cron_id CronJob) (group : GroupSettings)
    : gmap cron_id CronJob :=
  let gid := group_id_of group in
  let zone := tz group in
  let s1 :=
    <[_job_id "digest" gid :=
        mkCron RunDigest
          (DailyAt (digest_time group / 60) (digest_time group mod 60) zone) gid]>
      store in
  let s2 :=
    <[_job_id "reset" gid := mkCron RunMidnightReset (DailyAt 0 5 zone) gid]> s1 in
  let s3 :=
    match autosend_time group with
    | Some t =>
        if autosend_enabled group
        then <[_job_id "autosend" gid :=
                 mkCron RunAutosend (DailyAt (t / 60) (t mod 60) zone) gid]> s2
        else s2
    | None => s2
    end in
  if truthy_int (compliance_topic_id group) then
    <[_job_id "weekly" gid :=
        mkCron RunWeeklyLeaderboard (MondayAt 6 0 zone) gid]>
      (<[_job_id "compliance" gid :=
           mkCron RunCompliance (EveryTwoHours zone) gid]> s3)
  else s3.

Definition GROUP_JOB_KINDS : list string :=
  ["digest"; "reset"; "autosend"; "compliance"; "weekly"]%string.

(** [_remove_group_jobs]. *)
Definition _remove_group_jobs (store : gmap cron_id CronJob) (group_id : Z)
    : gmap cron_id CronJob :=
  foldl (fun s kind => delete (_job_id kind group_id) s) store GROUP_JOB_KINDS.

(** [refresh_group]. *)
Definition refresh_group (store : gmap cron_id CronJob)
    (groups : list GroupSettings) (group_id : Z) : gmap cron_id CronJob :=
  let store1 := _remove_group_jobs store group_id in
  match fetch_group groups group_id with
  | Some group => _schedule_group store1 group
  | None => store1
  end.

(** [initialize]. *)
Definition initialize (store : gmap cron_id CronJob) (groups : list GroupSettings)
    : gmap cron_id CronJob :=
  foldl _schedule_group store groups.

(** The cron jobs of the store all have one of the five kinds. *)
Definition cron_kinds_ok (store : gmap cron_id CronJob) : Prop :=
  forall kind gid, is_Some (store !! (kind, gid)) -> kind ∈ GROUP_JOB_KINDS.

(** *** The autosend job *)

Section AutosendJob.

Variable lower : string -> string.

(** [t.astimezone(ZoneInfo(zone)).date()], a library function. *)
Variable local_date : string -> datetime -> date.
Variable zones : Zones.

(** The body of the loop of [_run_autosend_job] for one driver.  An
    exception ends the body where it is raised and is logged by the
    handler of the loop; what was written before it stays written. *)
Definition autosend_driver (w : World) (group : GroupSettings) (today : date)
    (now : datetime) (svc : SchedulerService) (db : Checks.DB) (d : Driver)
    : SchedulerService * Checks.DB * list sent :=
  if truthy_int (notify_chat_id d)
     && match get_chat w (default 0 (notify_chat_id d)) with
        | Some chat => is_driver_chat_paused lower (Some chat)
        | None => false
        end
  then (svc, db, [])
  else
    let '(db1, checkin) :=
      Checks.ensure_checkin db (driver_id_of d) (group_id_of group) today now in
    if match sent_at checkin with
       | Some t => local_date (tz group) t =? today
       | None => false
       end
    then (svc, db1, [])
    else
      let stale :=
        (0 <? media_count checkin)
        || negb (str_in (status checkin) ["pending"; "submitted"]%string) in
      let svc1 := if stale then cancel_followups svc (checkin_id_of checkin)
                  else svc in
      match (if stale then Checks.reset_checkin db1 (checkin_id_of checkin) now
             else Some (db1, checkin)) with
      | None => (svc1, db1, [])
      | Some (db2, checkin2) =>
          match Checks.mark_notified db2 (checkin_id_of checkin2) now with
          | None => (svc1, db2, [])
          | Some (db3, checkin3) =>
              let target := target_chat None d in
              let m1 := DriverNotification target (checkin_id_of checkin3) today in
              let m2 := ReplyPrompt target in
              if negb (delivers w m1) then (svc1, db3, [])
              else if negb (delivers w m2) then (svc1, db3, [m1])
              else
                match sync_card w checkin3 with
                | None => (svc1, db3, [m1; m2])
                | Some card =>
                    let db4 :=
                      match card with
                      | Some mid =>
                          Checks.set_review_message db3 (checkin_id_of checkin3)
                            mid now
                      | None => db3
                      end in
                    (schedule_followups zones svc1 (checkin_id_of checkin3) group d
                       target now,
                     db4, [m1; m2])
                end
          end
      end.

(** The loop of [_run_autosend_job] over the active drivers that were
    listed before it. *)
Definition autosend_drivers (w : World) (group : GroupSettings) (today : date)
    (now : datetime) (svc : SchedulerService) (db : Checks.DB)
    (drivers : list Driver) : SchedulerService * Checks.DB * list sent :=
  foldl (fun acc d =>
           let '(svc1, db1, out1) := acc in
           let '(svc2, db2, out2) := autosend_driver w group today now svc1 db1 d in
           (svc2, db2, out1 ++ out2))
        (svc, db, []) drivers.

(** [_run_autosend_job].  An exception of [refresh_group_pause] escapes
    the job before it has written. *)
Definition _run_autosend_job (w : World) (svc : SchedulerService)
    (db : Checks.DB) (groups : list GroupSettings) (group_id : Z)
    (now : datetime)
    : SchedulerService * Checks.DB * list GroupSettings * list sent :=
  match fetch_group groups group_id with
  | None => (svc, db, groups, [])
  | Some group =>
      if negb (autosend_enabled group) || negb (bool_decide (is_Some (autosend_time group)))
      then (svc, db, groups, [])
      else
        match refresh_group_pause (get_chat w) groups group with
        | None => (svc, db, groups, [])
        | Some (groups1, group1) =>
            if paused group1 then (svc, db, groups1, [])
            else
              let today := local_date (tz group1) now in
              let '(svc1, db1, out) :=
                autosend_drivers w group1 today now svc db
                  (filter (fun d => active d = true) (Checks.drivers db)) in
              (svc1, db1, groups1, out)
        end
  end.

End AutosendJob.

End Autosend.

(** ** Handlers ([app/handlers/review.py], [app/handlers/media.py]) *)

Module Handlers.

Import Roles Autosend.

(** What the handlers work on: the scheduler service, the datastore and
    the table [compliance_tracking]. *)
Record State := mkState {
  svc : SchedulerService;
  db : Checks.DB;
  tracking : gmap Z Compliance.ComplianceState
}.

(** How a call of the review handler ends: the text of its
    [callback.answer], or an exception that escapes it. *)
Inductive answer :=
| DriverMissing
| NoRecord
| PausedForGroup
| UnableToUpdate
| MarkedPass
| Escaped.

Section PassEvent.

(** [t.astimezone(ZoneInfo(zone)).date()], [date.weekday()], and the
    [.date()] of a timestamp as the datastore hands it out: library
    functions. *)
Variable local_date : string -> datetime -> date.
Variable weekday : date -> Z.
Variable stored_date : datetime -> date.

(** The number of rows with [status = 'pass'] among the check-ins of the
    driver and the group between two days, the count of the query of
    [handle_pass_event]. *)
Definition week_passes (db : Checks.DB) (did gid : Z) (first last : date) : Z :=
  Z.of_nat
    (length
       (filter (fun c => driver_id c = did /\ group_id c = gid
                         /\ first <= check_date_of c <= last
                         /\ status c = "pass"%string)
               (Checks.daily_checkins db))).

(** [UPDATE drivers SET last_congrats_at = $2, updated_at = now()]. *)
Definition congrats_row (event_time now : datetime) (d : Driver) : Driver :=
  {| driver_id_of := driver_id_of d;
     telegram_user_id := telegram_user_id d;
     username := username d;
     display_name := display_name d;
     active := active d;
     streak_current := streak_current d;
     streak_best := streak_best d;
     notify_chat_id := notify_chat_id d;
     last_pass_at := last_pass_at d;
     last_congrats_at := Some event_time;
     last_check_date := last_check_date d;
     driver_updated_at := now |}.

(** The second half of [compliance.handle_pass_event]: the weekly
    congratulation.  [send_ok] tells whether the message to a chat gets
    through; the chat that was congratulated is returned. *)
Definition pass_congrats (send_ok : Z -> bool) (db : Checks.DB)
    (group : GroupSettings) (d : Driver) (event_time now : datetime)
    : Checks.DB * option Z :=
  let week_start := local_date (tz group) event_time
                    - weekday (local_date (tz group) event_time) in
  let week_end := week_start + 6 in
  let passes := week_passes db (driver_id_of d) (group_id_of group)
                  week_start week_end in
  if 5 <=? passes then
    if match last_congrats_at d with
       | Some t => stored_date t <? week_start
       | None => true
       end
    then
      let chat_id := int_or (notify_chat_id d) (telegram_user_id d) in
      if send_ok chat_id then
        ({| Checks.drivers :=
              Checks.update_where (Checks.by_driver (driver_id_of d))
                (congrats_row event_time now) (Checks.drivers db);
            Checks.daily_checkins := Checks.daily_checkins db;
            Checks.media := Checks.media db;
            Checks.checkin_seq := Checks.checkin_seq db |},
         Some chat_id)
      else (db, None)
    else (db, None)
  else (db, None).

(** The action [pass] of [handle_review_action], once the guard has let
    the dispatcher through with [group]. *)
Definition pass_action (w : World) (send_ok : Z -> bool) (st : State)
    (group : GroupSettings) (did : Z) (day : date) (reviewer : Z)
    (now : datetime) : State * answer :=
  match Checks.find_driver_by_id (db st) did with
  | None => (st, DriverMissing)
  | Some driver =>
      match Checks.fetch_checkin (db st) (driver_id_of driver)
              (group_id_of group) day with
      | None => (st, NoRecord)
      | Some _ =>
          if paused group then (st, PausedForGroup)
          else
            match Checks.update_review_status (db st) (driver_id_of driver)
                    (group_id_of group) day "pass" reviewer None now with
            | (db1, None) =>
                ({| svc := svc st; db := db1; tracking := tracking st |},
                 UnableToUpdate)
            | (db1, Some updated) =>
                let db2 :=
                  {| Checks.drivers :=
                       Streaks.update_after_pass now (Checks.drivers db1)
                         (driver_id_of driver) day;
                     Checks.daily_checkins := Checks.daily_checkins db1;
                     Checks.media := Checks.media db1;
                     Checks.checkin_seq := Checks.checkin_seq db1 |} in
                let driver2 :=
                  default driver
                    (Checks.find_driver_by_id db2 (driver_id_of driver)) in
                let svc1 := cancel_followups (svc st) (checkin_id_of updated) in
                match sync_card w updated with
                | None =>
                    ({| svc := svc1; db := db2; tracking := tracking st |},
                     Escaped)
                | Some card =>
                    let db3 :=
                      match card with
                      | Some mid =>
                          Checks.set_review_message db2 (checkin_id_of updated)
                            mid now
                      | None => db2
                      end in
                    let pass_time := default now (reviewed_at updated) in
                    let tracking1 :=
                      Compliance.handle_pass_event (tracking st)
                        (driver_id_of driver2) pass_time in
                    let '(db4, _) :=
                      pass_congrats send_ok db3 group driver2 pass_time now in
                    ({| svc := svc1; db := db4; tracking := tracking1 |},
                     MarkedPass)
                end
            end
      end
  end.

End PassEvent.

(** An upload as [handle_media_message] sees it. *)
Record Upload := mkUpload {
  private : bool;
  is_reply : bool;
  upload_kind : string;
  upload_file_id : string;
  upload_media_group_id : option string
}.

(** How [handle_media_message] ends. *)
Inductive media_outcome :=
| Blocked
| Warned (c : Checkin)
| Stored (c : Checkin) (first_media : bool)
| MediaEscaped.

Section MediaMessage.

Variable media_conflict : Media -> list Media -> bool.

(** [handle_media_message] from the point where the driver, the group and
    the day are known and [bot.get_me] has answered.  [answer_ok] tells
    whether [message.answer] gets through.  The messages to the
    dispatchers come after the last write and are left out. *)
Definition handle_media_message (w : World) (answer_ok : bool)
    (svc : SchedulerService) (db : Checks.DB) (driver : Driver)
    (group : GroupSettings) (today : date) (now : datetime) (u : Upload)
    : SchedulerService * Checks.DB * media_outcome :=
  let existing :=
    Checks.fetch_checkin db (driver_id_of driver) (group_id_of group) today in
  let prev_count := match existing with
                    | Some e => media_count e
                    | None => 0
                    end in
  let offthread_warned :=
    match existing with
    | Some e => bool_decide (reason e = Some "offthread_warning"%string)
    | None => false
    end in
  let offthread := negb (private u) && negb (is_reply u) in
  if offthread && ((1 <=? prev_count) || offthread_warned) then (svc, db, Blocked)
  else if offthread && (prev_count =? 0) then
    let '(db1, checkin) :=
      match existing with
      | Some e => (db, e)
      | None => Checks.ensure_checkin db (driver_id_of driver)
                  (group_id_of group) today now
      end in
    (cancel_followups svc (checkin_id_of checkin),
     Checks.set_offthread_warning db1 (checkin_id_of checkin) true now,
     Warned checkin)
  else
    match Checks.record_media media_conflict db (driver_id_of driver)
            (group_id_of group) today (upload_kind u) (upload_file_id u)
            (upload_media_group_id u) now with
    | None => (svc, db, MediaEscaped)
    | Some (db1, checkin, first_media) =>
        let db2 :=
          Checks.set_offthread_warning db1 (checkin_id_of checkin) false now in
        if private u && first_media && negb answer_ok
        then (svc, db2, MediaEscaped)
        else
          let svc1 := if private u || is_reply u
                      then cancel_followups svc (checkin_id_of checkin)
                      else svc in
          match sync_card w checkin with
          | None => (svc1, db2, MediaEscaped)
          | Some card =>
              let db3 :=
                match card with
                | Some mid =>
                    Checks.set_review_message db2 (checkin_id_of checkin) mid now
                | None => db2
                end in
              (svc1, db3, Stored checkin first_media)
          end
    end.

End MediaMessage.

End Handlers.

(** * Vocabulary of the statements, and sample data *)

(** The driver has a row in [daily_checkins] for the group and the day. *)
Definition has_row (checkins : list Checkin) (d : Driver) (gid : Z) (day : date)
    : Prop :=
  exists dc, dc ∈ checkins /\ driver_id dc = driver_id_of d
             /\ group_id dc = gid /\ check_date_of dc = day.

(** The driver has a row in [daily_checkins] for the day, under whatever
    group. *)
Definition has_row_at_all (checkins : list Checkin) (d : Driver) (day : date)
    : Prop :=
  exists dc, dc ∈ checkins /\ driver_id dc = driver_id_of d
             /\ check_date_of dc = day.

(** The rollover as it reads without the group: the row of an active
    driver is the one that [reset_missed_checks] zeroes exactly when the
    driver has no row at all for the day. *)
Definition zeroed_iff_no_row_at_all (now : datetime) (drivers : list Driver)
    (checkins : list Checkin) (gid : Z) (day : date) : Prop :=
  forall (i : nat) d, drivers !! i = Some d -> active d = true ->
    (Streaks.reset_missed_checks now drivers checkins gid day !! i
     = Some (Streaks.zero_row now d)
     <-> ~ has_row_at_all checkins d day).

Definition sample_driver : Driver :=
  {| driver_id_of := 7; telegram_user_id := 7007; username := Some "ann"%string;
     display_name := None; active := true; streak_current := 3;
     streak_best := 5; notify_chat_id := Some (-500);
     last_pass_at := Some 1000; last_congrats_at := None;
     last_check_date := Some 40; driver_updated_at := 1000 |}.

(** The zone files of a world that is on UTC throughout. *)
Definition utc_zones : Zones :=
  {| wall_clock := fun _ t => t; instant_of := fun _ r => r |}.

(** A reviewed check-in of the sample driver: passed on day 41. *)
Definition sample_pass_row : Checkin :=
  {| checkin_id_of := 1; driver_id := 7; group_id := 100; check_date_of := 41;
     sent_at := Some 900; responded_at := Some 950; status := "pass";
     reason := None; reviewer_user_id := Some 9; reviewed_at := Some 1000;
     review_message_id := Some 77; media_count := 3; updated_at := 1000 |}.

Definition sample_db : Checks.DB :=
  {| Checks.drivers := [sample_driver];
     Checks.daily_checkins := [sample_pass_row];
     Checks.media := [];
     Checks.checkin_seq := 2 |}.

(** What the ledger of the specification records of a check-in: every
    column but [group_id] and the bookkeeping column [updated_at]. *)
Definition ledger_fields (c : Checkin) :=
  (checkin_id_of c, driver_id c, check_date_of c, sent_at c, responded_at c,
   status c, reason c, reviewer_user_id c, reviewed_at c,
   review_message_id c, media_count c).

(** The row that [record_media] works on: the row of the driver and the
    day, or the fresh row that is inserted when there is none. *)
Definition row_before (db : Checks.DB) (did gid : Z) (day : date) (now : datetime)
    : Checkin :=
  default (Checks.new_checkin (Checks.checkin_seq db) did gid day now)
          (find (Checks.by_day did day) (Checks.daily_checkins db)).

(** No driver with the id [did] has a last-pass timestamp. *)
Definition last_pass_cleared (did : Z) (drivers : list Driver) : Prop :=
  Forall (fun d => driver_id_of d = did -> last_pass_at d = None) drivers.

(** The columns of a check-in that [reopen] is to keep. *)
Definition kept_by_reopen (c : Checkin) :=
  (checkin_id_of c, driver_id c, group_id c, check_date_of c, sent_at c,
   responded_at c, review_message_id c, media_count c).

(** The reading of [reopen] under which only the status, the reviewer and
    the reason of the check-in change, and the last-pass timestamps of the
    drivers stay as they are. *)
Definition reopen_touches_only_reviewer_and_reason (db : Checks.DB)
    (did gid : Z) (day : date) (now : datetime) : Prop :=
  forall c,
    find (Checks.by_group_day did gid day) (Checks.daily_checkins db) = Some c ->
    exists db1 c1,
      Checks.reopen_checkin db did gid day now = (db1, Some c1)
      /\ status c1 = "submitted"%string
      /\ reviewer_user_id c1 = None /\ reason c1 = None
      /\ kept_by_reopen c1 = kept_by_reopen c
      /\ reviewed_at c1 = reviewed_at c
      /\ last_pass_at <$> Checks.drivers db1 = last_pass_at <$> Checks.drivers db.

(** The stored time of the last alert of a kind. *)
Definition last_alert (k : Compliance.alert_kind) (s : Compliance.ComplianceState)
    : option datetime :=
  match k with
  | Compliance.DriverAlert => Compliance.last_driver_alert_at s
  | Compliance.DispatchAlert => Compliance.last_dispatch_alert_at s
  end.

Definition last_alert_of (k : Compliance.alert_kind)
    (tracking : gmap Z Compliance.ComplianceState) (did : Z) : option datetime :=
  tracking !! did ≫= last_alert k.

Definition same_kind (a b : Compliance.alert_kind) : bool :=
  match a, b with
  | Compliance.DriverAlert, Compliance.DriverAlert => true
  | Compliance.DispatchAlert, Compliance.DispatchAlert => true
  | _, _ => false
  end.

(** The times at which alerts of one kind were decided for one driver. *)
Definition alert_times (k : Compliance.alert_kind) (did : Z)
    (alerts : list Compliance.alert) : list datetime :=
  omap (fun a => match a with
                 | Compliance.Alert k1 d t =>
                     if same_kind k1 k && (d =? did) then Some t else None
                 end) alerts.

(** No alert within the report window before [now]: there is no stored
    time, or it lies a full window back. *)
Definition cooled (now : datetime) (last : option datetime) : Prop :=
  forall t, last = Some t -> Compliance.REPORT_WINDOW <= now - t.

(** Successive times are at least a report window apart, the first one
    counted from [last]. *)
Fixpoint spaced (last : option datetime) (times : list datetime) : Prop :=
  match times with
  | [] => True
  | t :: rest => cooled t last /\ spaced (Some t) rest
  end.

(** The time of the last alert once the alerts at [times] have been
    stamped over [last]. *)
Definition latest (last : option datetime) (times : list datetime)
    : option datetime :=
  fold_left (fun _ t => Some t) times last.

(** Which of the two flags of [track_entry] belongs to a kind. *)
Definition fired (k : Compliance.alert_kind) (nudge escalate : bool) : bool :=
  match k with
  | Compliance.DriverAlert => nudge
  | Compliance.DispatchAlert => escalate
  end.

(** A driver without a linked chat. *)
Definition unlinked_driver : Driver :=
  {| driver_id_of := 8; telegram_user_id := 8008; username := Some "bob"%string;
     display_name := None; active := true; streak_current := 0;
     streak_best := 0; notify_chat_id := None;
     last_pass_at := None; last_congrats_at := None;
     last_check_date := None; driver_updated_at := 0 |}.

(** The tracking row of a driver that one tick has found non-compliant. *)
Definition one_report (did : Z) (at_time : datetime) : Compliance.ComplianceState :=
  {| Compliance.state_driver_id := did;
     Compliance.consecutive_reports := 1;
     Compliance.last_report_at := Some at_time;
     Compliance.last_driver_alert_at := None;
     Compliance.last_dispatch_alert_at := None;
     Compliance.last_status := Some "non_compliant"%string;
     Compliance.last_comment_thread_id := None |}.

(** Four ticks, two hours apart, that each find the sample driver
    non-compliant. *)
Definition four_ticks : list (datetime * list (Driver * string)) :=
  [(0, [(sample_driver, "non_compliant"%string)]);
   (7200, [(sample_driver, "non_compliant"%string)]);
   (14400, [(sample_driver, "non_compliant"%string)]);
   (21600, [(sample_driver, "non_compliant"%string)])].

(** The reading of the nudge under which the counter and the cooldown
    alone decide it. *)
Definition nudge_decided_by_count_and_cooldown
    (tracking : gmap Z Compliance.ComplianceState) (now : datetime)
    (d : Driver) (st : string) : Prop :=
  (Compliance.track_entry tracking now d st).1.2 = true
  <-> 2 <= Compliance.consecutive_reports
             (Compliance._upsert_state tracking (driver_id_of d) st now).2
      /\ cooled now
           (Compliance.last_driver_alert_at
              (Compliance._upsert_state tracking (driver_id_of d) st now).2).

(** Lower case on the letters [A] to [Z], and the calendar day in UTC:
    instances of the two library functions for the examples. *)
Definition ascii_lower_char (a : Ascii.ascii) : Ascii.ascii :=
  let n := Ascii.nat_of_ascii a in
  if (Nat.leb 65 n && Nat.leb n 90)%bool then Ascii.ascii_of_nat (n + 32) else a.

Fixpoint ascii_lower (s : string) : string :=
  match s with
  | EmptyString => EmptyString
  | String a rest => String (ascii_lower_char a) (ascii_lower rest)
  end.

Definition utc_date (t : datetime) : date := t / 86400.

(** The conditions of the classification. *)
Definition keyword_reason (lower : string -> string) (c : Checkin) : Prop :=
  any_in Compliance.EXCEPTION_KEYWORDS (lower (default ""%string (reason c))) = true.

Definition in_window (now : datetime) (t : option datetime) : Prop :=
  exists t0, t = Some t0 /\ now - t0 <= Compliance.REPORT_WINDOW.

Definition still_open (c : Checkin) : Prop :=
  status c = "pending"%string \/ status c = "submitted"%string.

Definition excused_or_needs_fix (c : Checkin) : Prop :=
  status c = "excused"%string \/ status c = "needs_fix"%string.

Definition passed_or_covered (now : datetime) (d : Driver) (c : Checkin) : Prop :=
  (status c = "pass"%string /\ in_window now (reviewed_at c))
  \/ (still_open c /\ in_window now (last_pass_at d)).

(** The classification that knows only of drivers with a check-in: a
    driver is [non_compliant] unless a check-in makes the driver compliant
    or an exception. *)
Definition non_compliant_without_checkin_grounds (lower : string -> string)
    (date_of : datetime -> date) (now : datetime) (d : Driver)
    (c : option Checkin) : Prop :=
  ~ (exists c1, c = Some c1 /\ passed_or_covered now d c1) ->
  ~ (exists c1, c = Some c1 /\ (keyword_reason lower c1 \/ excused_or_needs_fix c1)) ->
  (Compliance._evaluate_driver lower date_of d c now).1.1 = "non_compliant"%string.

(** The chat of the entry is known and its title holds a pause token. *)
Definition chat_paused (lower : string -> string)
    (chat_map : gmap Z Compliance.DriverChatInfo) (e : Compliance.ComplianceEntry)
    : Prop :=
  exists info, Compliance.chat_info_of chat_map e = Some info
               /\ Compliance._is_paused_chat lower (Compliance.title info) = true.

(** A pass of the sample driver whose stored reason names the shop. *)
Definition shop_row : Checkin :=
  {| checkin_id_of := 2; driver_id := 7; group_id := 100; check_date_of := 42;
     sent_at := None; responded_at := Some 1500; status := "pass";
     reason := Some "Truck is AT SHOP"%string; reviewer_user_id := Some 9;
     reviewed_at := Some 1800; review_message_id := None; media_count := 1;
     updated_at := 1800 |}.

(** The entry of a tick for the driver without a linked chat. *)
Definition unlinked_entry : Compliance.ComplianceEntry :=
  {| Compliance.driver := unlinked_driver; Compliance.checkin := None;
     Compliance.entry_status := "non_compliant";
     Compliance.entry_reason := None; Compliance.target_date := 0 |}.




Definition sample_group : Roles.GroupSettings :=
  {| Roles.group_id_of := 100; Roles.group_title := "Dispatch";
     Roles.rolling_topic_id := 5; Roles.compliance_topic_id := Some 6;
     Roles.trailer_topic_id := None; Roles.tz := "UTC"; Roles.paused := false;
     Roles.autosend_enabled := true; Roles.autosend_time := Some 480;
     Roles.digest_time := 630 |}.

(** A transport that knows every chat under the title [Truck 12],
    delivers every message and edits the review card in place. *)
Definition quiet_world : Autosend.World :=
  {| Autosend.get_chat :=
       fun id => Some {| Roles.chat_ident := id;
                         Roles.chat_title := Some "Truck 12"%string;
                         Roles.chat_full_name := None |};
     Autosend.delivers := fun _ => true;
     Autosend.sync_card := fun _ => Some None |}.

(** Day 43 of the sample driver: notified, and no answer yet. *)
Definition waiting_row : Checkin :=
  {| checkin_id_of := 3; driver_id := 7; group_id := 100; check_date_of := 43;
     sent_at := Some 5000; responded_at := None; status := "pending";
     reason := None; reviewer_user_id := None; reviewed_at := None;
     review_message_id := Some 78; media_count := 0; updated_at := 5000 |}.

Definition waiting_db : Checks.DB :=
  {| Checks.drivers := [sample_driver];
     Checks.daily_checkins := [waiting_row];
     Checks.media := [];
     Checks.checkin_seq := 4 |}.

(** The same day after the driver has sent a photo: [record_media] has
    made the check-in [submitted] and has set the response time. *)
Definition answered_row : Checkin :=
  {| checkin_id_of := 3; driver_id := 7; group_id := 100; check_date_of := 43;
     sent_at := Some 5000; responded_at := Some 4000; status := "submitted";
     reason := None; reviewer_user_id := None; reviewed_at := None;
     review_message_id := Some 78; media_count := 1; updated_at := 5000 |}.

Definition answered_db : Checks.DB :=
  {| Checks.drivers := [sample_driver];
     Checks.daily_checkins := [answered_row];
     Checks.media := [];
     Checks.checkin_seq := 4 |}.


(** [r1] is the row [r] at a later time: the same id, driver and day. *)
Definition same_row (r r1 : Checkin) : Prop :=
  checkin_id_of r1 = checkin_id_of r /\ driver_id r1 = driver_id r
  /\ check_date_of r1 = check_date_of r.

Definition no_reset (ops : list Checks.op) : Prop :=
  Forall (fun o => Checks.is_reset o = false) ops.

(** The driver has a row for the day under a group other than [gid]. *)
Definition taken_by_other_group (db : Checks.DB) (did gid : Z) (day : date)
    : Prop :=
  exists r, r ∈ Checks.daily_checkins db /\ driver_id r = did
            /\ check_date_of r = day /\ group_id r <> gid.

(** The check-in that an event of the scheduler is about. *)
Definition op_checkin (o : Autosend.op) : Z :=
  match o with
  | Autosend.Schedule c _ _ _ _ => c
  | Autosend.Cancel c => c
  | Autosend.Fire _ _ _ jid _ => jid.1
  end.

(** A follow-up job has nothing to remind of: the check-in is gone, or
    closed, or the driver has answered. *)
Definition nothing_to_remind (db : Checks.DB) (c : Z) : Prop :=
  forall row, Checks.fetch_checkin_by_id db c = Some row ->
              ~ still_open row \/ responded_at row <> None.

(** The settings of a group that a refresh of its title is to keep. *)
Definition settings_of (g : Roles.GroupSettings) :=
  (Roles.group_id_of g, Roles.rolling_topic_id g, Roles.compliance_topic_id g,
   Roles.trailer_topic_id g, Roles.tz g, Roles.autosend_enabled g,
   Roles.autosend_time g, Roles.digest_time g).

(** A group that was flagged as paused. *)
Definition paused_group : Roles.GroupSettings :=
  {| Roles.group_id_of := 100; Roles.group_title := "Dispatch";
     Roles.rolling_topic_id := 5; Roles.compliance_topic_id := Some 6;
     Roles.trailer_topic_id := None; Roles.tz := "UTC"; Roles.paused := true;
     Roles.autosend_enabled := true; Roles.autosend_time := Some 480;
     Roles.digest_time := 630 |}.

(** A transport that knows every chat under the title [Dispatch]. *)
Definition dispatch_chat (id : Z) : option Roles.Chat :=
  Some {| Roles.chat_ident := id; Roles.chat_title := Some "Dispatch"%string;
          Roles.chat_full_name := None |}.

(** The sample group with autosend switched off. *)
Definition manual_group : Roles.GroupSettings :=
  {| Roles.group_id_of := 100; Roles.group_title := "Dispatch";
     Roles.rolling_topic_id := 5; Roles.compliance_topic_id := Some 6;
     Roles.trailer_topic_id := None; Roles.tz := "UTC"; Roles.paused := false;
     Roles.autosend_enabled := false; Roles.autosend_time := Some 480;
     Roles.digest_time := 630 |}.

(** The row of the driver for the day, when it carries a notification
    time, carries one of that day. *)
Definition notified_today_only (local_date : string -> datetime -> date)
    (group : Roles.GroupSettings) (d : Driver) (today : date) (db : Checks.DB)
    : Prop :=
  forall row t,
    find (Checks.by_day (driver_id_of d) today) (Checks.daily_checkins db)
    = Some row ->
    sent_at row = Some t -> local_date (Roles.tz group) t = today.

(** The row of the driver for the day has the id [c] and carries a
    notification time of that day. *)
Definition notified_today (local_date : string -> datetime -> date)
    (group : Roles.GroupSettings) (d : Driver) (today : date) (c : Z)
    (db : Checks.DB) : Prop :=
  exists row t,
    find (Checks.by_day (driver_id_of d) today) (Checks.daily_checkins db)
    = Some row
    /\ checkin_id_of row = c /\ sent_at row = Some t
    /\ local_date (Roles.tz group) t = today.

(** The id of the check-in of a driver and a day. *)
Definition checkin_of (db : Checks.DB) (did : Z) (day : date) : option Z :=
  checkin_id_of <$> find (Checks.by_day did day) (Checks.daily_checkins db).

(** An [UPDATE] that keeps the id, the driver and the day of a row, and a
    notification time that is there. *)
Definition keeps_notice (f : Checkin -> Checkin) : Prop :=
  forall x,
    checkin_id_of (f x) = checkin_id_of x
    /\ driver_id (f x) = driver_id x
    /\ check_date_of (f x) = check_date_of x
    /\ forall t, sent_at x = Some t -> sent_at (f x) = Some t.

(** What comes after a run of the autosend job for a group and a day: a
    write of the ledger, or the body of the job for a driver, in a later
    run for the group on the day or further down the list of the same
    run. *)
Inductive later :=
| Written (o : Checks.op)
| Pass (w : Autosend.World) (svc : Autosend.SchedulerService) (now : datetime)
    (d : Driver).

(** The event is not a [reset_checkin] of the check-in [c]. *)
Definition spares (c : option Z) (e : later) : Prop :=
  match e with
  | Written (Checks.Reset id _) => c <> Some id
  | _ => True
  end.

Definition later_step (lower : string -> string)
    (local_date : string -> datetime -> date) (zones : Zones)
    (media_conflict : Media -> list Media -> bool)
    (group : Roles.GroupSettings) (today : date) (db : Checks.DB) (e : later)
    : Checks.DB :=
  match e with
  | Written o => Checks.step media_conflict db o
  | Pass w svc now d =>
      (Autosend.autosend_driver lower local_date zones w group today now svc
         db d).1.2
  end.

(** The datastore after the events. *)
Definition later_db (lower : string -> string)
    (local_date : string -> datetime -> date) (zones : Zones)
    (media_conflict : Media -> list Media -> bool)
    (group : Roles.GroupSettings) (today : date) (db : Checks.DB)
    (events : list later) : Checks.DB :=
  foldl (later_step lower local_date zones media_conflict group today) db events.

(** No other driver waits for a reply to the message. *)
Definition prompt_free (tracking : gmap Z Compliance.ComplianceState)
    (did message_id : Z) : Prop :=
  forall d s, tracking !! d = Some s -> d <> did ->
              Compliance.last_comment_thread_id s <> Some message_id.

(** The counters and alert times of a row of the tracking table. *)
Definition counters_of (s : Compliance.ComplianceState) :=
  (Compliance.consecutive_reports s, Compliance.last_report_at s,
   Compliance.last_driver_alert_at s, Compliance.last_dispatch_alert_at s,
   Compliance.last_status s).

(** The driver is listed once among the entries of a tick, and as
    [non_compliant]. *)
Definition reported_once (d : Driver) (entries : list (Driver * string)) : Prop :=
  exists pre post,
    entries = pre ++ (d, "non_compliant"%string) :: post
    /\ Forall (fun e => driver_id_of e.1 <> driver_id_of d) pre
    /\ Forall (fun e => driver_id_of e.1 <> driver_id_of d) post.

(** The stored number of reports in a row that found the driver
    non-compliant; zero when the last report found something else. *)
Definition streak_of (tracking : gmap Z Compliance.ComplianceState) (did : Z) : Z :=
  match tracking !! did with
  | Some s =>
      if bool_decide (Compliance.last_status s = Some "non_compliant"%string)
      then Compliance.consecutive_reports s else 0
  | None => 0
  end.

(** Three ticks in which the sample driver is pending beside a driver
    who is compliant. *)
Definition busy_ticks : list (datetime * list (Driver * string)) :=
  [(0, [(unlinked_driver, "compliant"%string);
        (sample_driver, "non_compliant"%string)]);
   (7200, [(sample_driver, "non_compliant"%string);
           (unlinked_driver, "compliant"%string)]);
   (14400, [(unlinked_driver, "compliant"%string);
            (sample_driver, "non_compliant"%string)])].

(** The decision on an alert for which no earlier alert is on record,
    at the [n]-th report in a row. *)
Definition alert_due (k : Compliance.alert_kind) (d : Driver) (n : Z) : bool :=
  match k with
  | Compliance.DriverAlert => truthy_int (notify_chat_id d) && (2 <=? n)
  | Compliance.DispatchAlert => 3 <=? n
  end.

(** What the ledger counts of a check-in: its identity, the response
    time, the status and the number of media. *)
Definition counted (c : Checkin) :=
  (checkin_id_of c, driver_id c, check_date_of c, responded_at c, status c,
   media_count c).

(** An upload in a group chat that is no reply to the bot. *)
Definition offthread_upload : Handlers.Upload :=
  {| Handlers.private := false; Handlers.is_reply := false;
     Handlers.upload_kind := "photo"; Handlers.upload_file_id := "f-9";
     Handlers.upload_media_group_id := None |}.





(** * Properties *)

(** ** Streak engine *)

Section StreakFacts.

Import Streaks.

Lemma has_checkin_true checkins d gid day :
  has_checkin checkins d gid day = true <-> has_row checkins d gid day.
Proof.
  unfold has_checkin, has_row. rewrite existsb_exists. split.
  - intros (dc & Hin & Hb). exists dc.
    apply andb_prop in Hb as [Hb Hday]. apply andb_prop in Hb as [Hdrv Hgrp].
    rewrite list_elem_of_In. repeat split; try assumption; lia.
  - intros (dc & Hin & Hdrv & Hgrp & Hday). exists dc.
    rewrite <- list_elem_of_In. split; [assumption|].
    rewrite !andb_true_iff. repeat split; lia.
Qed.

Lemma has_checkin_false checkins d gid day :
  has_checkin checkins d gid day = false <-> ~ has_row checkins d gid day.
Proof.
  rewrite <- has_checkin_true.
  destruct (has_checkin checkins d gid day); split; intros H;
    first [reflexivity | congruence | exfalso; apply H; reflexivity].
Qed.

Lemma step_preserves_ok drivers o :
  Forall streak_ok drivers -> Forall streak_ok (step drivers o).
Proof.
  intros Hall. destruct o as [now id day | now checkins gid day]; simpl.
  - unfold update_after_pass. apply Forall_fmap.
    eapply Forall_impl; [exact Hall|]. intros d [Hle Hbest]. simpl.
    destruct (driver_id_of d =? id); unfold streak_ok, best_dominates in *;
      simpl; lia.
  - unfold reset_missed_checks. apply Forall_fmap.
    eapply Forall_impl; [exact Hall|]. intros d [Hle Hbest]. simpl.
    destruct (active d && negb (has_checkin checkins d gid day));
      unfold streak_ok, best_dominates in *; simpl; lia.
Qed.

(** The update of a pass raises the best streak together with the
    current one, whatever the sign of the counters. *)
Lemma pass_keeps_dominance now drivers id day :
  Forall best_dominates drivers ->
  Forall best_dominates (update_after_pass now drivers id day).
Proof.
  intros Hall. unfold update_after_pass. apply Forall_fmap.
  eapply Forall_impl; [exact Hall|]. intros d Hle. simpl.
  destruct (driver_id_of d =? id); unfold best_dominates in *; simpl; lia.
Qed.

(** C6. A pass event adds one to the current streak of the driver it
    names and makes the best streak the maximum of the old best and the
    new current streak, so the best streak never decreases; every other
    driver is left alone.  The nightly rollover leaves the best streak
    alone and sets the current streak of an active driver to zero when
    the driver has no check-in row at all for the group of the rollover
    and the day; a driver with a row for that group and day, whatever its
    status, and an inactive driver are left as they are. *)
Theorem streak_engine_spec now (drivers : list Driver) checkins id gid day
    (i : nat) d :
  drivers !! i = Some d ->
  (exists d1,
      update_after_pass now drivers id day !! i = Some d1
      /\ (driver_id_of d = id ->
          streak_current d1 = streak_current d + 1
          /\ streak_best d1 = Z.max (streak_best d) (streak_current d1))
      /\ (driver_id_of d <> id -> d1 = d)
      /\ streak_best d <= streak_best d1)
  /\ (exists d2,
      reset_missed_checks now drivers checkins gid day !! i = Some d2
      /\ streak_best d2 = streak_best d
      /\ (active d = true -> ~ has_row checkins d gid day ->
          streak_current d2 = 0)
      /\ (active d = false \/ has_row checkins d gid day -> d2 = d)).
Proof.
  intros Hi. split.
  - exists (if driver_id_of d =? id then pass_row now day d else d).
    unfold update_after_pass. rewrite list_lookup_fmap, Hi. simpl.
    split; [reflexivity|].
    destruct (Z.eqb_spec (driver_id_of d) id) as [Heq|Hne]; simpl;
      repeat split; intros; try congruence; lia.
  - exists (if active d && negb (has_checkin checkins d gid day)
            then zero_row now d else d).
    unfold reset_missed_checks. rewrite list_lookup_fmap, Hi. simpl.
    split; [reflexivity|]. split; [|split].
    + destruct (active d && negb (has_checkin checkins d gid day)); reflexivity.
    + intros Hact Hno. apply has_checkin_false in Hno. rewrite Hact, Hno.
      reflexivity.
    + intros [Hact | Hrow].
      * rewrite Hact. reflexivity.
      * apply has_checkin_true in Hrow. rewrite Hrow, andb_false_r.
        reflexivity.
Qed.

(** C10. A table in which every best streak is at least the current one,
    and is not negative, stays so through every sequence of pass events
    and rollovers: the update of a pass writes the maximum of the old
    best and the new current streak in the statement that adds one to
    the current streak, and the rollover only writes zero to the current
    streak. *)
Theorem streak_best_dominates drivers ops :
  Forall streak_ok drivers ->
  Forall streak_ok (run drivers ops)
  /\ Forall best_dominates (run drivers ops).
Proof.
  intros Hall.
  assert (Hrun : Forall streak_ok (run drivers ops)).
  { revert drivers Hall. induction ops as [|o ops IH]; intros drivers Hall; simpl.
    - exact Hall.
    - apply IH. apply step_preserves_ok. exact Hall. }
  split; [exact Hrun|].
  eapply Forall_impl; [exact Hrun|]. intros d [Hle _]. exact Hle.
Qed.

(** On the sample table a pass on day 41 takes the streak of driver 7
    from 3 to 4, and the rollover over day 41, for which the driver has
    a row, leaves the driver as it is. *)
Lemma streak_engine_spec_witness :
  (exists d1, update_after_pass 2000 [sample_driver] 7 41 !! 0%nat = Some d1
              /\ streak_current d1 = 4 /\ streak_best d1 = 5)
  /\ reset_missed_checks 2000 [sample_driver] [sample_pass_row] 100 41 !! 0%nat
     = Some sample_driver.
Proof.
  destruct (streak_engine_spec 2000 [sample_driver] [sample_pass_row] 7 100 41
              0 sample_driver eq_refl)
    as [(d1 & H1 & Hpass & _ & _) (d2 & H2 & _ & _ & Hkeep)].
  split.
  - exists d1. split; [exact H1|]. destruct (Hpass eq_refl) as [Hc Hb].
    rewrite Hb, Hc. split; reflexivity.
  - rewrite H2. f_equal. apply Hkeep. right. exists sample_pass_row.
    repeat split. apply list_elem_of_here.
Defined.

(** The sample driver has passed day 41 under group 100.  The rollover
    of group 200 over day 41 finds no row of that group and zeroes the
    streak of three days, though the driver has a row for the day. *)
Lemma rollover_of_other_group_counterexample :
  ~ zeroed_iff_no_row_at_all 2000 [sample_driver] [sample_pass_row] 200 41.
Proof.
  intros Hclaim.
  destruct (Hclaim 0%nat sample_driver eq_refl eq_refl) as [Hzero _].
  apply Hzero; [reflexivity|].
  exists sample_pass_row. repeat split. apply list_elem_of_here.
Qed.

(** A pass, a rollover over a day without a row, and another pass of the
    sample driver. *)
Lemma streak_best_dominates_witness :
  Forall best_dominates
    (run [sample_driver] [Pass 2000 7 42; Rollover 3000 [] 100 42; Pass 4000 7 44]).
Proof.
  apply streak_best_dominates. apply Forall_cons. split.
  - unfold streak_ok, best_dominates. simpl. lia.
  - apply Forall_nil. exact I.
Defined.

End StreakFacts.

(** ** Check-in ledger *)

Section ChecksFacts.

Import Checks.

Lemma find_elem {A} (p : A -> bool) (l : list A) r :
  find p l = Some r -> r ∈ l /\ p r = true.
Proof.
  induction l as [|x l IH]; simpl; [discriminate|].
  destruct (p x) eqn:Hp.
  - intros [= <-]. split; [apply list_elem_of_here | exact Hp].
  - intros H. destruct (IH H) as [Hin Hr].
    split; [apply list_elem_of_further, Hin | exact Hr].
Qed.

Lemma find_none_elem {A} (p : A -> bool) (l : list A) r :
  find p l = None -> r ∈ l -> p r = false.
Proof.
  induction l as [|x l IH]; simpl; intros Hf Hin.
  - inversion Hin.
  - destruct (p x) eqn:Hp; [discriminate|].
    apply elem_of_cons in Hin as [-> | Hin]; [exact Hp | exact (IH Hf Hin)].
Qed.

Lemma find_app_none {A} (p : A -> bool) (l l' : list A) :
  find p l = None -> find p (l ++ l') = find p l'.
Proof.
  induction l as [|x l IH]; simpl; [reflexivity|].
  destruct (p x); [discriminate | exact IH].
Qed.

(** A statement that keeps the test [p] of its rows keeps what a search
    by [p] finds, up to the rewrite. *)
Lemma find_update_where {A} (p q : A -> bool) (f : A -> A) (rows : list A) :
  (forall r, p (f r) = p r) ->
  find p (update_where q f rows) = (fun r => if q r then f r else r) <$> find p rows.
Proof.
  intros Hp. induction rows as [|x rows IH]; simpl; [reflexivity|].
  destruct (q x) eqn:Hq; rewrite ?Hp; destruct (p x); simpl;
    rewrite ?Hq; first [reflexivity | exact IH].
Qed.

Lemma fmap_update_where {A B} (g : A -> B) (q : A -> bool) (f : A -> A)
    (rows : list A) :
  (forall r, g (f r) = g r) -> g <$> update_where q f rows = g <$> rows.
Proof.
  intros Hg. unfold update_where. rewrite <- list_fmap_compose.
  apply list_fmap_ext. intros i x _. simpl. destruct (q x); [apply Hg | reflexivity].
Qed.

(** In a list without two rows of the same key, the search by the key of
    a row of the list finds that row. *)
Lemma find_by_key {A K} (key : A -> K) (p : K -> A -> bool) (rows : list A) r :
  (forall k x, p k x = true <-> key x = k) ->
  NoDup (key <$> rows) -> r ∈ rows -> find (p (key r)) rows = Some r.
Proof.
  intros Hp. induction rows as [|x rows IH]; simpl; intros Hnd Hin.
  - inversion Hin.
  - apply NoDup_cons in Hnd as [Hx Hnd].
    apply elem_of_cons in Hin as [-> | Hin].
    + destruct (p (key x) x) eqn:E; [reflexivity|].
      assert (p (key x) x = true) by (apply Hp; reflexivity). congruence.
    + destruct (p (key r) x) eqn:E.
      * apply Hp in E. exfalso. apply Hx. rewrite E.
        apply list_elem_of_fmap. exists r. split; [reflexivity | exact Hin].
      * apply IH; assumption.
Qed.

Lemma by_id_key k x : by_id k x = true <-> checkin_id_of x = k.
Proof. unfold by_id. apply Z.eqb_eq. Qed.

Lemma by_day_key k x : by_day k.1 k.2 x = true <-> day_key x = k.
Proof.
  destruct k as [did day]. unfold by_day, day_key. simpl.
  rewrite andb_true_iff, !Z.eqb_eq. split; [intros [-> ->]; reflexivity|].
  intros [= -> ->]. split; reflexivity.
Qed.

Lemma find_by_id rows r :
  NoDup (checkin_id_of <$> rows) -> r ∈ rows ->
  find (by_id (checkin_id_of r)) rows = Some r.
Proof. apply (find_by_key checkin_id_of by_id). exact by_id_key. Qed.

Lemma find_by_day rows r :
  NoDup (day_key <$> rows) -> r ∈ rows ->
  find (by_day (driver_id r) (check_date_of r)) rows = Some r.
Proof.
  intros Hnd Hin.
  apply (find_by_key day_key (fun k => by_day k.1 k.2) rows r by_day_key Hnd Hin).
Qed.

Lemma find_fresh_id db :
  checkins_ok db -> find (by_id (checkin_seq db)) (daily_checkins db) = None.
Proof.
  intros (_ & _ & Hlt).
  destruct (find (by_id (checkin_seq db)) (daily_checkins db)) as [r|] eqn:E;
    [|reflexivity].
  apply find_elem in E as [Hin Hid]. apply by_id_key in Hid.
  rewrite Forall_forall in Hlt. specialize (Hlt r Hin). lia.
Qed.

(** C4. [record_media] returns a row; its media count is one more than
    the count of the row of the driver and the day before the call (zero
    for a row that the call creates); the first-response time is set when
    it was unset and kept otherwise; the status becomes [submitted] when
    it was [pending] or [submitted] and is kept otherwise; the reason is
    cleared; the flag tells whether the count before the call was zero;
    the row that is returned is the row that is stored. *)
Theorem record_media_spec (media_conflict : Media -> list Media -> bool)
    db did gid day kind file_id mgid now :
  checkins_ok db ->
  exists db1 c1,
    record_media media_conflict db did gid day kind file_id mgid now
      = Some (db1, c1, media_count (row_before db did gid day now) =? 0)
    /\ checkin_id_of c1 = checkin_id_of (row_before db did gid day now)
    /\ media_count c1 = media_count (row_before db did gid day now) + 1
    /\ responded_at c1
       = Some (default now (responded_at (row_before db did gid day now)))
    /\ status c1
       = (if str_in (status (row_before db did gid day now))
                    ["pending"; "submitted"]%string
          then "submitted"%string
          else status (row_before db did gid day now))
    /\ reason c1 = None
    /\ fetch_checkin_by_id db1 (checkin_id_of c1) = Some c1.
Proof.
  intros Hok. pose proof Hok as (Hid & Hkey & Hlt).
  unfold record_media, upsert_checkin, row_before, fetch_checkin_by_id, returning.
  destruct (find (by_day did day) (daily_checkins db)) as [c|] eqn:Hfind; simpl.
  - apply find_elem in Hfind as [Hin Hday].
    assert (Hself : by_id (checkin_id_of c) (touch_row gid now c) = true)
      by apply Z.eqb_refl.
    rewrite (find_update_where (by_id (checkin_id_of c))) by reflexivity.
    rewrite (find_by_id _ _ Hid Hin). simpl. rewrite Hday.
    eexists _, _. split; [reflexivity|]. simpl.
    repeat split.
    rewrite !(find_update_where (by_id (checkin_id_of c))) by reflexivity.
    rewrite (find_by_id _ _ Hid Hin). simpl. rewrite Hday, Hself. reflexivity.
  - assert (Hself : by_id (checkin_seq db)
                      (new_checkin (checkin_seq db) did gid day now) = true)
      by apply Z.eqb_refl.
    rewrite (find_app_none _ _ _ (find_fresh_id db Hok)). simpl.
    rewrite Hself. simpl.
    eexists _, _. split; [reflexivity|]. simpl.
    repeat split.
    rewrite (find_update_where (by_id (checkin_seq db))) by reflexivity.
    rewrite (find_app_none _ _ _ (find_fresh_id db Hok)). simpl.
    rewrite Hself. simpl. rewrite Hself. reflexivity.
Qed.

(** The constraints of the table survive
    the statement that [ensure_checkin] and [record_media] share, and
    every [UPDATE] that keeps the id, the driver and the day of a row. *)
Lemma update_where_ok db (q : Checkin -> bool) (f : Checkin -> Checkin) :
  (forall r, checkin_id_of (f r) = checkin_id_of r) ->
  (forall r, day_key (f r) = day_key r) ->
  checkins_ok db ->
  checkins_ok {| drivers := drivers db;
                 daily_checkins := update_where q f (daily_checkins db);
                 media := media db;
                 checkin_seq := checkin_seq db |}.
Proof.
  intros Hfid Hfkey (Hid & Hkey & Hlt). unfold checkins_ok. simpl.
  rewrite !fmap_update_where by assumption. repeat split; try assumption.
  unfold update_where. apply Forall_fmap. eapply Forall_impl; [exact Hlt|].
  intros r Hr. simpl. destruct (q r); [rewrite Hfid|]; exact Hr.
Qed.

(** A number that is drawn and not used breaks no constraint. *)
Lemma seq_grows_ok db db1 :
  daily_checkins db1 = daily_checkins db ->
  checkin_seq db <= checkin_seq db1 ->
  checkins_ok db -> checkins_ok db1.
Proof.
  intros Hrows Hseq (Hid & Hkey & Hlt). unfold checkins_ok. rewrite Hrows.
  repeat split; try assumption.
  eapply Forall_impl; [exact Hlt|]. intros r Hr. simpl in *. lia.
Qed.

Lemma upsert_checkin_ok db did gid day now :
  checkins_ok db -> checkins_ok (upsert_checkin db did gid day now).1.
Proof.
  intros Hok. unfold upsert_checkin.
  destruct (find (by_day did day) (daily_checkins db)) as [c|] eqn:Hfind; simpl.
  - eapply seq_grows_ok;
      [| |apply (update_where_ok db (by_day did day) (touch_row gid now));
          [reflexivity | reflexivity | exact Hok]];
      [reflexivity | simpl; lia].
  - destruct Hok as (Hid & Hkey & Hlt). unfold checkins_ok. simpl.
    rewrite !fmap_app. simpl. repeat split.
    + apply NoDup_app. split; [exact Hid|]. split; [|apply NoDup_singleton].
      intros i Hi Hnew. apply list_elem_of_singleton in Hnew. subst i.
      apply list_elem_of_fmap in Hi as (r & Hr & Hin).
      rewrite Forall_forall in Hlt. specialize (Hlt r Hin). lia.
    + apply NoDup_app. split; [exact Hkey|]. split; [|apply NoDup_singleton].
      intros k Hk Hnew. apply list_elem_of_singleton in Hnew. subst k.
      apply list_elem_of_fmap in Hk as (r & Hr & Hin).
      pose proof (find_none_elem _ _ r Hfind Hin) as Hno.
      assert (Hyes : by_day did day r = true)
        by (apply (by_day_key (did, day)); symmetry; exact Hr).
      congruence.
    + apply Forall_app. split.
      * eapply Forall_impl; [exact Hlt|]. intros r Hr. simpl in *. lia.
      * apply Forall_cons. split; [simpl; lia | apply Forall_nil; exact I].
Qed.

Lemma sample_db_ok : checkins_ok sample_db.
Proof.
  unfold checkins_ok, sample_db. simpl. repeat split.
  - apply NoDup_singleton.
  - apply NoDup_singleton.
  - apply Forall_cons. split; [simpl; lia | apply Forall_nil; exact I].
Qed.

(** A late photo for the day that the sample driver has already passed:
    the fourth media item is counted, the status stays [pass], and the
    item is not reported as the first of the day. *)
Lemma record_media_spec_witness :
  exists db1 c1,
    record_media (fun _ _ => false) sample_db 7 100 41 "photo" "f-1" None 2000
      = Some (db1, c1, false)
    /\ media_count c1 = 4 /\ status c1 = "pass"%string /\ reason c1 = None.
Proof.
  destruct (record_media_spec (fun _ _ => false) sample_db 7 100 41
              "photo" "f-1" None 2000 sample_db_ok)
    as (db1 & c1 & Hrun & _ & Hcount & _ & Hstatus & Hreason & _).
  exists db1, c1. repeat split; assumption.
Defined.

(** C8. [reset_checkin] on a check-in that exists returns it, and stores
    it, with status [pending] and no media, reviewer, reason, review time,
    response time, notification time or card; no driver with the id of
    its driver keeps a last-pass timestamp.  [ensure_checkin] for the
    driver and the day of the row then inserts nothing: it returns the
    row with the same id, and every row of the table keeps every column
    of the ledger; drivers and media are untouched.  What the call writes
    is [updated_at] and the group that it was given, so for the group of
    the row no group changes either; and the sequence has moved on by the
    one number that the statement drew before it saw the conflict. *)
Theorem reset_then_ensure db id now gid now2 c :
  checkins_ok db ->
  fetch_checkin_by_id db id = Some c ->
  exists db1 c1,
    reset_checkin db id now = Some (db1, c1)
    /\ fetch_checkin_by_id db1 id = Some c1
    /\ ledger_fields c1
       = (id, driver_id c, check_date_of c, None, None, "pending"%string,
          None, None, None, None, 0)
    /\ last_pass_cleared (driver_id c) (drivers db1)
    /\ exists db2 c2,
         ensure_checkin db1 (driver_id c) gid (check_date_of c) now2 = (db2, c2)
         /\ fetch_checkin_by_id db2 id = Some c2
         /\ ledger_fields c2 = ledger_fields c1
         /\ group_id c2 = gid
         /\ ledger_fields <$> daily_checkins db2
            = ledger_fields <$> daily_checkins db1
         /\ (gid = group_id c ->
             group_id <$> daily_checkins db2 = group_id <$> daily_checkins db1)
         /\ drivers db2 = drivers db1 /\ media db2 = media db1
         /\ checkin_seq db2 = checkin_seq db1 + 1.
Proof.
  intros (Hid & Hkey & Hlt) Hfetch. unfold fetch_checkin_by_id in *.
  pose proof (find_elem _ _ _ Hfetch) as [Hin Hc]. apply by_id_key in Hc.
  assert (Hself : forall r, checkin_id_of r = id -> by_id id r = true)
    by (intros r Hr; apply by_id_key; exact Hr).
  assert (Hfind1 : find (by_id id)
                     (update_where (by_id id) (reset_row now) (daily_checkins db))
                   = Some (reset_row now c)).
  { rewrite (find_update_where (by_id id)) by reflexivity.
    rewrite Hfetch. simpl. rewrite (Hself c Hc). reflexivity. }
  assert (Hday1 : find (by_day (driver_id c) (check_date_of c))
                    (update_where (by_id id) (reset_row now) (daily_checkins db))
                  = Some (reset_row now c)).
  { rewrite (find_update_where (by_day _ _)) by reflexivity.
    rewrite (find_by_day _ _ Hkey Hin). simpl. rewrite (Hself c Hc). reflexivity. }
  unfold reset_checkin, returning. rewrite Hfetch. simpl.
  eexists _, _. split; [reflexivity|]. simpl.
  split; [exact Hfind1|]. split; [unfold ledger_fields; simpl; congruence|].
  split.
  - unfold last_pass_cleared, update_where. apply Forall_fmap, Forall_forall.
    intros d _. simpl. unfold by_driver.
    destruct (Z.eqb_spec (driver_id_of d) (driver_id c)); simpl; congruence.
  - unfold ensure_checkin, upsert_checkin. simpl. rewrite Hday1.
    eexists _, _. split; [reflexivity|]. simpl. repeat split.
    + rewrite (find_update_where (by_id id)) by reflexivity.
      rewrite Hfind1. simpl.
      assert (Hd : by_day (driver_id c) (check_date_of c) (reset_row now c) = true)
        by (apply (by_day_key (driver_id c, check_date_of c)); reflexivity).
      rewrite Hd. reflexivity.
    + rewrite fmap_update_where by reflexivity. reflexivity.
    + intros ->. unfold update_where at 1. rewrite <- list_fmap_compose.
      apply list_fmap_ext. intros i x Hx. simpl.
      destruct (by_day (driver_id c) (check_date_of c) x) eqn:Hday; [|reflexivity].
      simpl. apply list_elem_of_lookup_2 in Hx.
      assert (Hkey1 : NoDup (day_key <$> update_where (by_id id) (reset_row now)
                                            (daily_checkins db)))
        by (rewrite fmap_update_where by reflexivity; exact Hkey).
      pose proof (find_by_day _ x Hkey1 Hx) as Hfx.
      apply (by_day_key (driver_id c, check_date_of c)) in Hday.
      injection Hday as Hd1 Hd2. rewrite Hd1, Hd2, Hday1 in Hfx.
      injection Hfx as <-. reflexivity.
Qed.

(** The day of the sample driver, reset and then ensured for the same
    group: the row with id 1 comes back, pending and empty. *)
Lemma reset_then_ensure_witness :
  exists db1 c1 db2 c2,
    reset_checkin sample_db 1 2000 = Some (db1, c1)
    /\ ensure_checkin db1 7 100 41 3000 = (db2, c2)
    /\ checkin_id_of c2 = 1 /\ status c2 = "pending"%string /\ media_count c2 = 0
    /\ length (daily_checkins db2) = length (daily_checkins db1).
Proof.
  destruct (reset_then_ensure sample_db 1 2000 100 3000 sample_pass_row
              sample_db_ok eq_refl)
    as (db1 & c1 & Hreset & _ & Hfields & _ & db2 & c2 & Hens & _ & Hsame & _
        & Hids & _).
  exists db1, c1, db2, c2. rewrite Hfields in Hsame.
  unfold ledger_fields in Hsame. injection Hsame as Hi _ _ _ _ Hs _ _ _ _ Hm.
  repeat split; try assumption.
  apply (f_equal length) in Hids. rewrite !length_fmap in Hids. exact Hids.
Defined.

(** C9, as the code has it.  [reopen_checkin] on a check-in that exists
    returns it, and stores it, with status [submitted] and with the
    reviewer, the reason and the review time cleared; the media count,
    the response and notification times, the card and the identity of
    the row are kept, and [updated_at] is refreshed.  Like a reset, it
    clears the last-pass timestamp of the driver. *)
Theorem reopen_checkin_spec db did gid day now c :
  checkins_ok db ->
  find (by_group_day did gid day) (daily_checkins db) = Some c ->
  exists db1 c1,
    reopen_checkin db did gid day now = (db1, Some c1)
    /\ fetch_checkin_by_id db1 (checkin_id_of c) = Some c1
    /\ status c1 = "submitted"%string
    /\ reviewer_user_id c1 = None /\ reason c1 = None /\ reviewed_at c1 = None
    /\ kept_by_reopen c1 = kept_by_reopen c
    /\ updated_at c1 = now
    /\ last_pass_cleared did (drivers db1).
Proof.
  intros (Hid & _ & _) Hfind. unfold reopen_checkin, returning. rewrite Hfind.
  simpl. apply find_elem in Hfind as [Hin Hc].
  eexists _, _. split; [reflexivity|]. repeat split.
  - unfold fetch_checkin_by_id. simpl.
    rewrite (find_update_where (by_id _)) by reflexivity.
    rewrite (find_by_id _ _ Hid Hin). simpl. rewrite Hc. reflexivity.
  - unfold last_pass_cleared, update_where. simpl.
    apply Forall_fmap, Forall_forall. intros d _. simpl. unfold by_driver.
    destruct (Z.eqb_spec (driver_id_of d) did); simpl; congruence.
Qed.

(** Reopening the day that the sample driver passed: the row goes back to
    [submitted] with its three media items, and the last-pass timestamp of
    the driver is gone. *)
Lemma reopen_checkin_spec_witness :
  exists db1 c1,
    reopen_checkin sample_db 7 100 41 2000 = (db1, Some c1)
    /\ status c1 = "submitted"%string /\ media_count c1 = 3
    /\ reviewed_at c1 = None
    /\ last_pass_cleared 7 (drivers db1).
Proof.
  destruct (reopen_checkin_spec sample_db 7 100 41 2000 sample_pass_row
              sample_db_ok eq_refl)
    as (db1 & c1 & Hrun & _ & Hst & _ & _ & Hrev & Hkept & _ & Hlp).
  exists db1, c1. unfold kept_by_reopen in Hkept.
  injection Hkept as _ _ _ _ _ _ _ Hm.
  repeat split; assumption.
Defined.

(** On the same input the review time of the row and the last-pass
    timestamp of the driver do not survive a reopen. *)
Lemma reopen_touches_more_counterexample :
  ~ reopen_touches_only_reviewer_and_reason sample_db 7 100 41 2000.
Proof.
  intros Hclaim.
  destruct (Hclaim sample_pass_row eq_refl)
    as (db1 & c1 & Hrun & _ & _ & _ & _ & _ & Hlp).
  vm_compute in Hrun. injection Hrun as <- _. vm_compute in Hlp. discriminate Hlp.
Qed.

End ChecksFacts.

(** ** Compliance tracker *)

Section ComplianceFacts.

Import Compliance.

Lemma eqb_non_compliant st :
  String.eqb st "non_compliant" = true <-> st = "non_compliant"%string.
Proof. apply String.eqb_eq. Qed.

Lemma upsert_counter_zero (tracking : gmap Z ComplianceState) did st now :
  String.eqb st "non_compliant" = false ->
  consecutive_reports (_upsert_state tracking did st now).2 = 0.
Proof.
  intros E. unfold _upsert_state. simpl.
  destruct (tracking !! did); simpl; rewrite E; reflexivity.
Qed.

(** C2. An evaluation stores the state that it returns, with the new
    classification.  The counter is the stored counter plus one when both
    the new and the stored classification are [non_compliant]; it is one
    when the new classification is [non_compliant] and there is no stored
    row, or the stored classification is another one; it is zero for any
    other new classification.  A pass event leaves the counter at zero. *)
Theorem consecutive_reports_update (tracking : gmap Z ComplianceState) did st now :
  exists t1 state,
    _upsert_state tracking did st now = (t1, state)
    /\ t1 !! did = Some state
    /\ last_status state = Some st
    /\ (st = "non_compliant"%string ->
        forall old, tracking !! did = Some old ->
                    last_status old = Some "non_compliant"%string ->
                    consecutive_reports state = consecutive_reports old + 1)
    /\ (st = "non_compliant"%string ->
        (forall old, tracking !! did = Some old ->
                     last_status old <> Some "non_compliant"%string) ->
        consecutive_reports state = 1)
    /\ (st <> "non_compliant"%string -> consecutive_reports state = 0)
    /\ (forall s, handle_pass_event tracking did now !! did = Some s ->
                  consecutive_reports s = 0).
Proof.
  unfold handle_pass_event, _upsert_state.
  eexists _, _. split; [reflexivity|]. split; [apply lookup_insert_eq|].
  split; [destruct (tracking !! did); reflexivity|].
  split; [|split; [|split]].
  - intros -> old Hold Hlast. rewrite Hold. simpl.
    rewrite bool_decide_eq_true_2 by exact Hlast. reflexivity.
  - intros -> Hfresh. destruct (tracking !! did) as [old|] eqn:Hold; simpl;
      [|reflexivity].
    rewrite bool_decide_eq_false_2 by (apply Hfresh; reflexivity). reflexivity.
  - intros Hne. destruct (String.eqb st "non_compliant") eqn:E.
    + apply eqb_non_compliant in E. contradiction.
    + destruct (tracking !! did); reflexivity.
  - intros s. unfold _reset_state. rewrite lookup_alter_eq, lookup_insert_eq.
    simpl. intros [= <-]. reflexivity.
Qed.

(** A second report in a row takes the counter of the sample driver from
    one to two. *)
Lemma consecutive_reports_update_witness :
  exists t1 state,
    _upsert_state {[7 := one_report 7 0]} 7 "non_compliant" 7200 = (t1, state)
    /\ consecutive_reports state = 2.
Proof.
  destruct (consecutive_reports_update {[7 := one_report 7 0]} 7
              "non_compliant" 7200)
    as (t1 & state & Hup & _ & _ & Hinc & _).
  exists t1, state. split; [exact Hup|].
  rewrite (Hinc eq_refl (one_report 7 0)); reflexivity.
Defined.

Lemma should_alert_driver_iff state now :
  _should_alert_driver state now = true
  <-> 2 <= consecutive_reports state /\ cooled now (last_driver_alert_at state).
Proof.
  unfold _should_alert_driver, cooled.
  destruct (Z.ltb_spec (consecutive_reports state) 2) as [Hlt|Hge].
  - split; [discriminate | lia].
  - destruct (last_driver_alert_at state) as [t|].
    + destruct (Z.ltb_spec (now - t) REPORT_WINDOW) as [Hin|Hout].
      * split; [discriminate|]. intros [_ Hc]. specialize (Hc t eq_refl). lia.
      * split; [|reflexivity]. intros _. split; [exact Hge|].
        intros t' [= <-]. exact Hout.
    + split; [|reflexivity]. intros _. split; [exact Hge | discriminate].
Qed.

Lemma should_alert_dispatch_iff state now :
  _should_alert_dispatch state now = true
  <-> 3 <= consecutive_reports state /\ cooled now (last_dispatch_alert_at state).
Proof.
  unfold _should_alert_dispatch, cooled.
  destruct (Z.ltb_spec (consecutive_reports state) 3) as [Hlt|Hge].
  - split; [discriminate | lia].
  - destruct (last_dispatch_alert_at state) as [t|].
    + destruct (Z.ltb_spec (now - t) REPORT_WINDOW) as [Hin|Hout].
      * split; [discriminate|]. intros [_ Hc]. specialize (Hc t eq_refl). lia.
      * split; [|reflexivity]. intros _. split; [exact Hge|].
        intros t' [= <-]. exact Hout.
    + split; [|reflexivity]. intros _. split; [exact Hge | discriminate].
Qed.

(** The evaluation hands on the alert times of the stored row. *)
Lemma upsert_last_alert k (tracking : gmap Z ComplianceState) did st now :
  last_alert k (_upsert_state tracking did st now).2
  = last_alert_of k tracking did.
Proof.
  unfold _upsert_state, last_alert_of. simpl.
  destruct (tracking !! did); destruct k; reflexivity.
Qed.

(** What one entry of a tick does to the stored alert times: the time of
    an alert that fires is stamped for the driver of the entry, and
    nothing else moves. *)
Lemma track_entry_last_alert k (tracking : gmap Z ComplianceState) now d st did :
  last_alert_of k (track_entry tracking now d st).1.1 did
  = if fired k (track_entry tracking now d st).1.2 (track_entry tracking now d st).2
       && (driver_id_of d =? did)
    then Some now
    else last_alert_of k tracking did.
Proof.
  unfold track_entry, _upsert_state, last_alert_of.
  unfold _mark_driver_alert, _mark_dispatch_alert, _reset_state.
  set (row := match tracking !! driver_id_of d with
              | Some old => _ | None => _ end).
  assert (Hrow : last_alert k row = tracking !! driver_id_of d ≫= last_alert k).
  { subst row. destruct (tracking !! driver_id_of d); destruct k; reflexivity. }
  destruct (Z.eqb_spec (driver_id_of d) did) as [<-|Hne].
  - rewrite andb_true_r.
    destruct (String.eqb st "non_compliant"); simpl.
    + destruct (truthy_int (notify_chat_id d) && _should_alert_driver row now);
        destruct (_should_alert_dispatch row now); simpl;
        rewrite ?lookup_alter_eq, ?lookup_insert_eq; simpl;
        destruct k; simpl; try reflexivity; exact Hrow.
    + replace (fired k false false) with false by (destruct k; reflexivity).
      destruct (negb (consecutive_reports row =? 0)); simpl;
        rewrite ?lookup_alter_eq, ?lookup_insert_eq; simpl;
        destruct k; simpl; exact Hrow.
  - rewrite andb_false_r.
    destruct (String.eqb st "non_compliant"); simpl.
    + destruct (truthy_int (notify_chat_id d) && _should_alert_driver row now);
        destruct (_should_alert_dispatch row now); simpl;
        rewrite ?lookup_alter_ne, ?lookup_insert_ne by exact Hne; reflexivity.
    + destruct (negb (consecutive_reports row =? 0)); simpl;
        rewrite ?lookup_alter_ne, ?lookup_insert_ne by exact Hne; reflexivity.
Qed.

(** An alert fires only when the stored time of the last alert of its
    kind lies a full window back. *)
Lemma track_entry_cooled k (tracking : gmap Z ComplianceState) now d st :
  fired k (track_entry tracking now d st).1.2 (track_entry tracking now d st).2
  = true ->
  cooled now (last_alert_of k tracking (driver_id_of d)).
Proof.
  rewrite <- (upsert_last_alert k tracking (driver_id_of d) st now).
  unfold track_entry.
  destruct (_upsert_state tracking (driver_id_of d) st now) as [t1 state]. simpl.
  destruct (String.eqb st "non_compliant"); simpl.
  - destruct k; simpl.
    + intros H. apply andb_prop in H as [_ H].
      apply should_alert_driver_iff in H. apply H.
    + intros H. apply should_alert_dispatch_iff in H. apply H.
  - destruct k; discriminate.
Qed.

Lemma latest_app last a b : latest last (a ++ b) = latest (latest last a) b.
Proof. apply fold_left_app. Qed.

Lemma spaced_app last a b :
  spaced last (a ++ b) <-> spaced last a /\ spaced (latest last a) b.
Proof.
  revert last. induction a as [|t a IH]; intros last; simpl.
  - tauto.
  - rewrite IH. unfold latest. simpl. tauto.
Qed.

Lemma alert_times_app k did a b :
  alert_times k did (a ++ b) = alert_times k did a ++ alert_times k did b.
Proof. apply omap_app. Qed.

(** The alerts of one entry, seen from one kind and one driver. *)
Lemma alert_times_entry k did id now (nudge escalate : bool) rest :
  alert_times k did
    ((if nudge then [Alert DriverAlert id now] else [])
     ++ (if escalate then [Alert DispatchAlert id now] else []) ++ rest)
  = (if fired k nudge escalate && (id =? did) then [now] else [])
    ++ alert_times k did rest.
Proof.
  rewrite !alert_times_app. rewrite app_assoc. f_equal.
  destruct nudge, escalate, k; simpl; destruct (id =? did); reflexivity.
Qed.

Lemma track_entries_spaced k did now entries :
  forall tracking : gmap Z ComplianceState,
    spaced (last_alert_of k tracking did)
           (alert_times k did (track_entries tracking now entries).2)
    /\ last_alert_of k (track_entries tracking now entries).1 did
       = latest (last_alert_of k tracking did)
                (alert_times k did (track_entries tracking now entries).2).
Proof.
  induction entries as [|[d st] rest IH]; intros tracking; simpl.
  - split; [exact I | reflexivity].
  - pose proof (track_entry_last_alert k tracking now d st did) as Hlast.
    pose proof (track_entry_cooled k tracking now d st) as Hcool.
    destruct (track_entry tracking now d st) as [[t1 nudge] escalate].
    simpl in Hlast, Hcool. specialize (IH t1).
    destruct (track_entries t1 now rest) as [t2 alerts]. simpl in IH |- *.
    rewrite alert_times_entry. rewrite spaced_app, latest_app.
    destruct IH as [IHs IHl]. rewrite IHl, Hlast.
    destruct (fired k nudge escalate) eqn:Hf; simpl.
    + destruct (Z.eqb_spec (driver_id_of d) did) as [<-|Hne]; simpl.
      * repeat split; [apply Hcool; reflexivity|].
        rewrite Hlast in IHs. exact IHs.
      * rewrite Hlast in IHs. repeat split. exact IHs.
    + rewrite Hlast in IHs. repeat split. exact IHs.
Qed.

Lemma run_ticks_spaced k did ticks :
  forall tracking : gmap Z ComplianceState,
    spaced (last_alert_of k tracking did)
           (alert_times k did (run_ticks tracking ticks).2)
    /\ last_alert_of k (run_ticks tracking ticks).1 did
       = latest (last_alert_of k tracking did)
                (alert_times k did (run_ticks tracking ticks).2).
Proof.
  induction ticks as [|[now entries] rest IH]; intros tracking; simpl.
  - split; [exact I | reflexivity].
  - destruct (track_entries_spaced k did now entries tracking) as [Hs Hl].
    destruct (track_entries tracking now entries) as [t1 a1]. simpl in Hs, Hl.
    destruct (IH t1) as [IHs IHl].
    destruct (run_ticks t1 rest) as [t2 a2]. simpl in IHs, IHl |- *.
    rewrite alert_times_app, spaced_app, latest_app. rewrite <- Hl.
    repeat split; assumption.
Qed.

(** C3, as the code has it.  For an entry of a tick, with the state that
    the evaluation of the entry returns: the nudge is decided exactly when
    the driver has a linked chat, the counter is at least two and no
    driver alert is stored within the window before the tick; the
    escalation exactly when the counter is at least three and no
    escalation is stored within the window.  An alert that is decided is
    stamped with the time of the tick in the same pass.  Through any run
    of ticks, the times at which one kind of alert is decided for one
    driver lie at least a window apart, the first of them counted from
    the time that was stored before the run. *)
Theorem compliance_alerts_spec (tracking : gmap Z ComplianceState) now d st
    ticks did k :
  ((track_entry tracking now d st).1.2 = true
   <-> truthy_int (notify_chat_id d) = true
       /\ 2 <= consecutive_reports (_upsert_state tracking (driver_id_of d) st now).2
       /\ cooled now (last_driver_alert_at
                        (_upsert_state tracking (driver_id_of d) st now).2))
  /\ ((track_entry tracking now d st).2 = true
      <-> 3 <= consecutive_reports (_upsert_state tracking (driver_id_of d) st now).2
          /\ cooled now (last_dispatch_alert_at
                           (_upsert_state tracking (driver_id_of d) st now).2))
  /\ (fired k (track_entry tracking now d st).1.2 (track_entry tracking now d st).2
      = true ->
      last_alert_of k (track_entry tracking now d st).1.1 (driver_id_of d)
      = Some now)
  /\ spaced (last_alert_of k tracking did)
            (alert_times k did (run_ticks tracking ticks).2).
Proof.
  split; [|split; [|split]].
  - pose proof (upsert_counter_zero tracking (driver_id_of d) st now) as Hzero.
    unfold track_entry.
    destruct (_upsert_state tracking (driver_id_of d) st now) as [t1 state].
    simpl in *.
    destruct (String.eqb st "non_compliant") eqn:E; simpl.
    + rewrite andb_true_iff, should_alert_driver_iff. tauto.
    + split; [discriminate|]. intros (_ & Hge & _).
      rewrite Hzero in Hge; [lia | reflexivity].
  - pose proof (upsert_counter_zero tracking (driver_id_of d) st now) as Hzero.
    unfold track_entry.
    destruct (_upsert_state tracking (driver_id_of d) st now) as [t1 state].
    simpl in *.
    destruct (String.eqb st "non_compliant") eqn:E; simpl.
    + apply should_alert_dispatch_iff.
    + split; [discriminate|]. intros (Hge & _).
      rewrite Hzero in Hge; [lia | reflexivity].
  - intros Hf. rewrite track_entry_last_alert, Hf, Z.eqb_refl. reflexivity.
  - apply run_ticks_spaced.
Qed.

(** Four ticks, two hours apart, find the sample driver non-compliant:
    the nudge goes out with the second and the escalation with the third,
    each of them once. *)
Lemma compliance_alerts_spec_witness :
  (run_ticks ∅ four_ticks).2
  = [Alert DriverAlert 7 7200; Alert DispatchAlert 7 14400]
  /\ spaced None (alert_times DriverAlert 7 (run_ticks ∅ four_ticks).2)
  /\ last_alert_of DriverAlert
       (track_entry {[7 := one_report 7 0]} 7200 sample_driver "non_compliant").1.1
       7 = Some 7200.
Proof.
  pose proof (compliance_alerts_spec ∅ 0 sample_driver "non_compliant"
                four_ticks 7 DriverAlert) as (_ & _ & _ & Hspaced).
  pose proof (compliance_alerts_spec {[7 := one_report 7 0]} 7200 sample_driver
                "non_compliant" [] 7 DriverAlert) as (_ & _ & Hstamp & _).
  split; [vm_compute; reflexivity|]. split; [exact Hspaced|].
  apply Hstamp. vm_compute. reflexivity.
Defined.

(** A driver without a linked chat is not nudged, though the second
    report in a row brings the counter to two and no alert is stored. *)
Lemma nudge_needs_linked_chat_counterexample :
  ~ nudge_decided_by_count_and_cooldown
      {[8 := one_report 8 0]} 7200 unlinked_driver "non_compliant".
Proof.
  unfold nudge_decided_by_count_and_cooldown. intros [_ Hfire].
  assert (Hno : (track_entry {[8 := one_report 8 0]} 7200 unlinked_driver
                   "non_compliant").1.2 = false) by (vm_compute; reflexivity).
  rewrite Hno in Hfire. enough (false = true) by discriminate.
  apply Hfire. split.
  - vm_compute. discriminate.
  - intros t Ht. vm_compute in Ht. discriminate Ht.
Qed.

Lemma recent_iff now t : recent now t = true <-> in_window now t.
Proof.
  unfold recent, in_window, within_window. destruct t as [t|].
  - rewrite Z.leb_le. split.
    + intros H. exists t. split; [reflexivity | exact H].
    + intros (t0 & [= <-] & H). exact H.
  - split; [discriminate|]. intros (t0 & H & _). discriminate H.
Qed.

Lemma open_iff c :
  str_in (status c) ["pending"; "submitted"]%string = true <-> still_open c.
Proof.
  unfold str_in, still_open. simpl.
  rewrite !orb_true_iff, !String.eqb_eq. intuition discriminate.
Qed.

Lemma no_keyword_in_empty : any_in EXCEPTION_KEYWORDS "" = false.
Proof. reflexivity. Qed.

Lemma keyword_test_iff lower c :
  negb (String.eqb (lower (default ""%string (reason c))) "")
  && any_in EXCEPTION_KEYWORDS (lower (default ""%string (reason c))) = true
  <-> keyword_reason lower c.
Proof.
  unfold keyword_reason. rewrite andb_true_iff, negb_true_iff. split.
  - intros [_ H]. exact H.
  - intros H. split; [|exact H].
    destruct (String.eqb_spec (lower (default ""%string (reason c))) "") as [E|E];
      [|reflexivity].
    rewrite E, no_keyword_in_empty in H. discriminate H.
Qed.

(** The map of [_fetch_chat_info] knows the chats that were asked for,
    and of each of them what the transport answered. *)
Lemma fetch_chats_known fetch entries :
  forall (seen : gset Z) (result : gmap Z DriverChatInfo),
    (forall k, k ∈ seen -> result !! k = fetch k) ->
    (forall k, k ∉ seen -> result !! k = None) ->
    exists seen1 : gset Z,
      seen ⊆ seen1
      /\ (forall k, k ∈ seen1 -> fetch_chats fetch entries seen result !! k = fetch k)
      /\ (forall k, k ∉ seen1 -> fetch_chats fetch entries seen result !! k = None)
      /\ (forall e k, e ∈ entries -> notify_chat_id (driver e) = Some k ->
                      k <> 0 -> k ∈ seen1).
Proof.
  induction entries as [|e rest IH]; intros seen result Hin Hout; simpl.
  - exists seen. repeat split; try assumption; try reflexivity.
    intros e k He. inversion He.
  - assert (Hskip :
      exists seen1 : gset Z,
        seen ⊆ seen1
        /\ (forall k, k ∈ seen1 -> fetch_chats fetch rest seen result !! k = fetch k)
        /\ (forall k, k ∉ seen1 -> fetch_chats fetch rest seen result !! k = None)
        /\ (forall e1 k, e1 ∈ rest -> notify_chat_id (driver e1) = Some k ->
                         k <> 0 -> k ∈ seen1)) by (apply IH; assumption).
    destruct (notify_chat_id (driver e)) as [cid|] eqn:Hcid.
    + destruct (Z.eqb_spec cid 0) as [Hz|Hnz]; simpl.
      * destruct Hskip as (seen1 & Hsub & H1 & H2 & H3).
        exists seen1. repeat split; try assumption.
        intros e1 k He1 Hk Hk0. apply elem_of_cons in He1 as [->|He1].
        -- congruence.
        -- exact (H3 e1 k He1 Hk Hk0).
      * destruct (decide (cid ∈ seen)) as [Hs|Hs].
        -- rewrite bool_decide_eq_true_2 by exact Hs.
           destruct Hskip as (seen1 & Hsub & H1 & H2 & H3).
           exists seen1. repeat split; try assumption.
           intros e1 k He1 Hk Hk0. apply elem_of_cons in He1 as [->|He1].
           ++ rewrite Hcid in Hk. injection Hk as <-. apply Hsub, Hs.
           ++ exact (H3 e1 k He1 Hk Hk0).
        -- rewrite bool_decide_eq_false_2 by exact Hs.
           assert (Hnew :
             exists seen1 : gset Z,
               {[cid]} ∪ seen ⊆ seen1
               /\ (forall k, k ∈ seen1 ->
                     match fetch cid with
                     | Some info =>
                         fetch_chats fetch rest ({[cid]} ∪ seen) (<[cid := info]> result)
                     | None => fetch_chats fetch rest ({[cid]} ∪ seen) result
                     end !! k = fetch k)
               /\ (forall k, k ∉ seen1 ->
                     match fetch cid with
                     | Some info =>
                         fetch_chats fetch rest ({[cid]} ∪ seen) (<[cid := info]> result)
                     | None => fetch_chats fetch rest ({[cid]} ∪ seen) result
                     end !! k = None)
               /\ (forall e1 k, e1 ∈ rest -> notify_chat_id (driver e1) = Some k ->
                                k <> 0 -> k ∈ seen1)).
           { destruct (fetch cid) as [info|] eqn:Hf; apply IH.
             - intros k Hk. destruct (decide (k = cid)) as [->|Hne].
               + rewrite lookup_insert_eq. symmetry. exact Hf.
               + rewrite lookup_insert_ne by congruence. apply Hin.
                 apply elem_of_union in Hk as [Hk|Hk]; [|exact Hk].
                 apply elem_of_singleton in Hk. contradiction.
             - intros k Hk. rewrite lookup_insert_ne.
               + apply Hout. intros Hk1. apply Hk, elem_of_union. right. exact Hk1.
               + intros ->. apply Hk, elem_of_union. left.
                 apply elem_of_singleton. reflexivity.
             - intros k Hk. destruct (decide (k = cid)) as [->|Hne].
               + rewrite Hf. apply Hout, Hs.
               + apply Hin. apply elem_of_union in Hk as [Hk|Hk]; [|exact Hk].
                 apply elem_of_singleton in Hk. contradiction.
             - intros k Hk. apply Hout. intros Hk1.
               apply Hk, elem_of_union. right. exact Hk1. }
           destruct Hnew as (seen1 & Hsub & H1 & H2 & H3).
           exists seen1. split; [|split; [exact H1|split; [exact H2|]]].
           ++ intros k Hk. apply Hsub, elem_of_union. right. exact Hk.
           ++ intros e1 k He1 Hk Hk0. apply elem_of_cons in He1 as [->|He1].
              ** rewrite Hcid in Hk. injection Hk as <-.
                 apply Hsub, elem_of_union. left. apply elem_of_singleton.
                 reflexivity.
              ** exact (H3 e1 k He1 Hk Hk0).
    + destruct Hskip as (seen1 & Hsub & H1 & H2 & H3).
      exists seen1. repeat split; try assumption.
      intros e1 k He1 Hk Hk0. apply elem_of_cons in He1 as [->|He1].
      * congruence.
      * exact (H3 e1 k He1 Hk Hk0).
Qed.

(** For an entry that the map was built from, the map answers as the
    transport did for the chat of its driver. *)
Lemma fetch_chat_info_lookup fetch entries e :
  e ∈ entries ->
  chat_info_of (_fetch_chat_info fetch entries) e
  = if truthy_int (notify_chat_id (driver e))
    then notify_chat_id (driver e) ≫= fetch else None.
Proof.
  intros He. unfold chat_info_of, _fetch_chat_info.
  destruct (notify_chat_id (driver e)) as [cid|] eqn:Hcid; simpl; [|reflexivity].
  destruct (Z.eqb_spec cid 0) as [Hz|Hnz]; simpl; [reflexivity|].
  destruct (fetch_chats_known fetch entries ∅ ∅) as (seen1 & _ & H1 & _ & H3).
  - intros k Hk. apply elem_of_empty in Hk. contradiction.
  - intros k _. apply lookup_empty.
  - apply H1. exact (H3 e cid He Hcid Hnz).
Qed.

(** Every guard of the classification, turned into the condition that
    it tests, and the cases closed by propositional reasoning. *)
Ltac close_case :=
  simpl; unfold still_open in *; intuition (try congruence).

Ltac classify_guards lower c d now :=
  destruct (negb (String.eqb (lower (default ""%string (reason c))) "")
            && any_in EXCEPTION_KEYWORDS (lower (default ""%string (reason c))));
    [close_case|];
  destruct (String.eqb_spec (status c) "pass");
  destruct (recent now (reviewed_at c));
  (destruct (String.eqb_spec (status c) "excused"); [close_case|]);
  (destruct (String.eqb_spec (status c) "needs_fix"); [close_case|]);
  (destruct (String.eqb_spec (status c) "fail"); [close_case|]);
  destruct (str_in (status c) ["pending"; "submitted"]%string);
  destruct (recent now (last_pass_at d));
  close_case.

(** C5, as the code has it.  For a driver with a latest check-in the
    class is [exception] exactly when the reason holds a keyword or the
    status is [excused] or [needs_fix]; it is [compliant] exactly when the
    reason holds no keyword and either the check-in is a pass reviewed
    within the window or it is still open and the last pass of the driver
    lies within the window; it is [non_compliant] in every other case.
    For a driver without a check-in the class is [compliant] when the
    last pass lies within the window and [non_compliant] otherwise.  The
    report then turns a [non_compliant] entry into an exception exactly
    when the chat of its driver is known and paused, and leaves every
    other entry as it is. *)
Theorem evaluate_driver_spec (lower : string -> string)
    (date_of : datetime -> date) d c now
    (chat_map : gmap Z DriverChatInfo) e :
  ((_evaluate_driver lower date_of d (Some c) now).1.1 = "exception"%string
   <-> keyword_reason lower c \/ excused_or_needs_fix c)
  /\ ((_evaluate_driver lower date_of d (Some c) now).1.1 = "compliant"%string
      <-> ~ keyword_reason lower c /\ passed_or_covered now d c)
  /\ ((_evaluate_driver lower date_of d (Some c) now).1.1 = "non_compliant"%string
      <-> ~ (keyword_reason lower c \/ excused_or_needs_fix c)
          /\ ~ passed_or_covered now d c)
  /\ ((_evaluate_driver lower date_of d None now).1.1 = "compliant"%string
      <-> in_window now (last_pass_at d))
  /\ ((_evaluate_driver lower date_of d None now).1.1 = "non_compliant"%string
      <-> ~ in_window now (last_pass_at d))
  /\ (entry_status (reclassify lower chat_map e) = "exception"%string
      <-> entry_status e = "exception"%string
          \/ (entry_status e = "non_compliant"%string
              /\ chat_paused lower chat_map e))
  /\ (~ (entry_status e = "non_compliant"%string /\ chat_paused lower chat_map e)
      -> reclassify lower chat_map e = e).
Proof.
  pose proof (keyword_test_iff lower c) as Hkw.
  pose proof (recent_iff now (reviewed_at c)) as Hrev.
  pose proof (recent_iff now (last_pass_at d)) as Hlp.
  pose proof (open_iff c) as Hopen.
  assert (Hcases :
    (_evaluate_driver lower date_of d (Some c) now).1.1
    = (if negb (String.eqb (lower (default ""%string (reason c))) "")
          && any_in EXCEPTION_KEYWORDS (lower (default ""%string (reason c)))
       then "exception"
       else if String.eqb (status c) "pass" && recent now (reviewed_at c)
       then "compliant"
       else if String.eqb (status c) "excused" then "exception"
       else if String.eqb (status c) "needs_fix" then "exception"
       else if String.eqb (status c) "fail" then "non_compliant"
       else if str_in (status c) ["pending"; "submitted"]%string
               && recent now (last_pass_at d)
       then "compliant" else "non_compliant")%string).
  { unfold _evaluate_driver.
    repeat match goal with
           | |- context [if ?b then _ else _] => destruct b
           end; reflexivity. }
  rewrite Hcases. clear Hcases.
  unfold passed_or_covered, excused_or_needs_fix.
  split; [|split; [|split; [|split; [|split; [|split]]]]].
  - classify_guards lower c d now.
  - classify_guards lower c d now.
  - classify_guards lower c d now.
  - unfold _evaluate_driver. destruct (recent now (last_pass_at d)); simpl.
    + split; [intros _; apply Hlp; reflexivity | reflexivity].
    + split; [discriminate|]. intros H. apply Hlp in H. discriminate H.
  - unfold _evaluate_driver. destruct (recent now (last_pass_at d)); simpl.
    + split; [discriminate|]. intros H. exfalso. apply H, Hlp. reflexivity.
    + split; [|reflexivity]. intros _ H. apply Hlp in H. discriminate H.
  - unfold reclassify, chat_paused.
    destruct (String.eqb_spec (entry_status e) "non_compliant") as [E|E].
    + destruct (chat_info_of chat_map e) as [info|]; simpl.
      * destruct (_is_paused_chat lower (title info)) eqn:Ep; simpl.
        -- split; [|reflexivity]. intros _. right. split; [exact E|].
           exists info. split; [reflexivity | exact Ep].
        -- rewrite E. split; [discriminate|].
           intros [H | (_ & info1 & [= <-] & H)]; congruence.
      * rewrite E. split; [discriminate|].
        intros [H | (_ & info1 & H & _)]; congruence.
    + split; [intros H; left; exact H|]. intros [H | [H _]]; congruence.
  - intros Hnot. unfold reclassify, chat_paused in *.
    destruct (String.eqb_spec (entry_status e) "non_compliant") as [E|E];
      [|reflexivity].
    destruct (chat_info_of chat_map e) as [info|]; [|reflexivity].
    destruct (_is_paused_chat lower (title info)) eqn:Ep; [|reflexivity].
    exfalso. apply Hnot. split; [exact E|]. exists info. split; [reflexivity | exact Ep].
Qed.


(** A pass that was reviewed within the window counts as an exception
    when its reason names the shop, and an entry whose driver has no
    linked chat is left as it is. *)
Lemma evaluate_driver_spec_witness :
  (_evaluate_driver ascii_lower utc_date sample_driver (Some shop_row) 2000).1.1
  = "exception"%string
  /\ reclassify ascii_lower ∅ unlinked_entry = unlinked_entry.
Proof.
  destruct (evaluate_driver_spec ascii_lower utc_date sample_driver shop_row
              2000 ∅ unlinked_entry)
    as (Hexc & _ & _ & _ & _ & _ & Hkeep).
  split.
  - apply Hexc. left. vm_compute. reflexivity.
  - apply Hkeep. intros [_ (info & Hinfo & _)]. vm_compute in Hinfo.
    discriminate Hinfo.
Defined.

(** The sample driver passed a thousand seconds ago and has no check-in
    in the group: the class is [compliant]. *)
Lemma no_checkin_recent_pass_counterexample :
  ~ non_compliant_without_checkin_grounds ascii_lower utc_date 2000
      sample_driver None.
Proof.
  intros Hclaim.
  assert (E : (_evaluate_driver ascii_lower utc_date sample_driver None 2000).1.1
              = "non_compliant"%string).
  { apply Hclaim; intros (c1 & Hc & _); discriminate Hc. }
  vm_compute in E. discriminate E.
Qed.

End ComplianceFacts.

(** ** Follow-up scheduler *)

Section AutosendFacts.

Import Roles Autosend.

Variable lower : string -> string.
Variable zones : Zones.

Lemma lookup_foldl_delete (l : list job_id) (m : gmap job_id Job) k :
  foldl (fun s j => delete j s) m l !! k
  = if bool_decide (k ∈ l) then None else m !! k.
Proof.
  revert m. induction l as [|j l IH]; intros m; simpl.
  - reflexivity.
  - rewrite IH. destruct (decide (k ∈ l)) as [Hin|Hout].
    + rewrite !bool_decide_eq_true_2; [reflexivity | | exact Hin].
      apply elem_of_cons. right. exact Hin.
    + rewrite (bool_decide_eq_false_2 _ Hout).
      destruct (decide (k = j)) as [->|Hne].
      * rewrite bool_decide_eq_true_2 by apply list_elem_of_here.
        apply lookup_delete_eq.
      * rewrite bool_decide_eq_false_2
          by (intros [?|?]%elem_of_cons; contradiction).
        apply lookup_delete_ne. congruence.
Qed.

Lemma schedule_unfold svc c g d target now :
  schedule_followups zones svc c g d target now
  = {| scheduler :=
         <[(c, 2) := job_at zones c g d target now 2 (minutes 50)]>
           (<[(c, 1) := job_at zones c g d target now 1 (minutes 15)]>
              (scheduler (cancel_followups svc c)));
       _followup_jobs :=
         <[c := [(c, 1); (c, 2)]]> (_followup_jobs (cancel_followups svc c)) |}.
Proof. reflexivity. Qed.

(** Cancelling empties the store of the jobs of the check-in and leaves
    the jobs of every other check-in. *)
Lemma cancel_scheduler svc c c1 i :
  in_sync svc ->
  scheduler (cancel_followups svc c) !! (c1, i)
  = if bool_decide (c1 = c) then None else scheduler svc !! (c1, i).
Proof.
  intros (Hlist & Hstore & _). unfold cancel_followups. simpl.
  rewrite lookup_foldl_delete.
  destruct (_followup_jobs svc !! c) as [jobs|] eqn:Hjobs; simpl.
  - destruct (Hlist c jobs Hjobs) as (_ & _ & Hslots).
    destruct (decide (c1 = c)) as [->|Hne].
    + rewrite (bool_decide_eq_true_2 (c = c)) by reflexivity.
      destruct (decide ((c, i) ∈ jobs)) as [Hin|Hout].
      * rewrite bool_decide_eq_true_2 by exact Hin. reflexivity.
      * rewrite bool_decide_eq_false_2 by exact Hout.
        apply eq_None_not_Some. intros Hsome. apply Hstore in Hsome.
        destruct Hsome as (jobs1 & Hj & Hin). congruence.
    + rewrite (bool_decide_eq_false_2 (c1 = c)) by exact Hne.
      rewrite bool_decide_eq_false_2; [reflexivity|].
      intros Hin. destruct (Hslots _ Hin); congruence.
  - destruct (decide (c1 = c)) as [->|Hne].
    + rewrite bool_decide_eq_true_2 by reflexivity.
      apply eq_None_not_Some. intros Hsome. apply Hstore in Hsome.
      destruct Hsome as (jobs1 & Hj & _). congruence.
    + rewrite bool_decide_eq_false_2 by exact Hne. reflexivity.
Qed.

Lemma cancel_in_sync svc c : in_sync svc -> in_sync (cancel_followups svc c).
Proof.
  intros Hsync. pose proof Hsync as (Hlist & Hstore & Hargs).
  split; [|split].
  - intros c1 jobs. simpl. intros Hj.
    apply lookup_delete_Some in Hj as [_ Hj]. exact (Hlist c1 jobs Hj).
  - intros c1 i. rewrite (cancel_scheduler svc c c1 i Hsync). simpl.
    destruct (decide (c1 = c)) as [->|Hne].
    + rewrite bool_decide_eq_true_2 by reflexivity. rewrite lookup_delete_eq.
      split; [intros [x Hx]; discriminate Hx | intros (jobs & Hj & _); discriminate Hj].
    + rewrite bool_decide_eq_false_2 by exact Hne.
      rewrite lookup_delete_ne by congruence. apply Hstore.
  - intros [c1 i] job. rewrite (cancel_scheduler svc c c1 i Hsync).
    destruct (bool_decide (c1 = c)); [discriminate | apply Hargs].
Qed.

(** Scheduling leaves the check-in with the two jobs that it arms, and
    every other check-in with the jobs that it had. *)
Lemma cancel_index svc c :
  _followup_jobs (cancel_followups svc c) = delete c (_followup_jobs svc).
Proof. reflexivity. Qed.

Lemma schedule_scheduler svc c g d target now c1 i :
  in_sync svc ->
  scheduler (schedule_followups zones svc c g d target now) !! (c1, i)
  = if bool_decide (c1 = c) then
      if bool_decide (i = 1) then Some (job_at zones c g d target now 1 (minutes 15))
      else if bool_decide (i = 2) then Some (job_at zones c g d target now 2 (minutes 50))
      else None
    else scheduler svc !! (c1, i).
Proof.
  intros Hsync. rewrite schedule_unfold. cbn [scheduler _followup_jobs].
  destruct (decide (c1 = c)) as [->|Hne].
  - rewrite (bool_decide_eq_true_2 (c = c)) by reflexivity.
    destruct (decide (i = 2)) as [->|H2].
    + rewrite lookup_insert_eq. reflexivity.
    + rewrite lookup_insert_ne by congruence.
      rewrite (bool_decide_eq_false_2 (i = 2)) by exact H2.
      destruct (decide (i = 1)) as [->|H1].
      * rewrite lookup_insert_eq. reflexivity.
      * rewrite lookup_insert_ne by congruence.
        rewrite (bool_decide_eq_false_2 (i = 1)) by exact H1.
        rewrite (cancel_scheduler svc c c i Hsync).
        rewrite bool_decide_eq_true_2 by reflexivity. reflexivity.
  - rewrite (bool_decide_eq_false_2 (c1 = c)) by exact Hne.
    rewrite !lookup_insert_ne by congruence.
    rewrite (cancel_scheduler svc c c1 i Hsync).
    rewrite bool_decide_eq_false_2 by exact Hne. reflexivity.
Qed.

Lemma schedule_in_sync svc c g d target now :
  in_sync svc -> in_sync (schedule_followups zones svc c g d target now).
Proof.
  intros Hsync. pose proof Hsync as (Hlist & Hstore & Hargs).
  split; [|split].
  - intros c1 jobs. rewrite schedule_unfold. cbn [scheduler _followup_jobs].
    destruct (decide (c1 = c)) as [->|Hne].
    + rewrite lookup_insert_eq. intros [= <-]. split; [discriminate|]. split.
      * apply NoDup_cons. split; [|apply NoDup_singleton].
        intros Hin. apply list_elem_of_singleton in Hin. discriminate Hin.
      * intros j Hj. apply elem_of_cons in Hj as [->|Hj]; [left; reflexivity|].
        apply list_elem_of_singleton in Hj. right. exact Hj.
    + rewrite lookup_insert_ne by congruence. rewrite cancel_index. intros Hj.
      apply lookup_delete_Some in Hj as [_ Hj]. exact (Hlist c1 jobs Hj).
  - intros c1 i. rewrite (schedule_scheduler svc c g d target now c1 i Hsync).
    rewrite schedule_unfold. cbn [scheduler _followup_jobs].
    destruct (decide (c1 = c)) as [->|Hne].
    + rewrite bool_decide_eq_true_2 by reflexivity. rewrite lookup_insert_eq.
      destruct (decide (i = 1)) as [->|H1].
      * rewrite bool_decide_eq_true_2 by reflexivity.
        split; [|intros _; eexists; reflexivity].
        intros _. eexists. split; [reflexivity | apply list_elem_of_here].
      * rewrite (bool_decide_eq_false_2 (i = 1)) by exact H1.
        destruct (decide (i = 2)) as [->|H2].
        -- rewrite bool_decide_eq_true_2 by reflexivity.
           split; [|intros _; eexists; reflexivity].
           intros _. eexists. split; [reflexivity|].
           apply list_elem_of_further, list_elem_of_here.
        -- rewrite (bool_decide_eq_false_2 (i = 2)) by exact H2.
           split; [intros [x Hx]; discriminate Hx|].
           intros (jobs & [= <-] & Hin). exfalso.
           apply elem_of_cons in Hin as [Hin|Hin]; [congruence|].
           apply list_elem_of_singleton in Hin. congruence.
    + rewrite bool_decide_eq_false_2 by exact Hne.
      rewrite lookup_insert_ne by congruence. rewrite cancel_index.
      rewrite lookup_delete_ne by congruence. apply Hstore.
  - intros [c1 i] job.
    rewrite (schedule_scheduler svc c g d target now c1 i Hsync).
    destruct (decide (c1 = c)) as [->|Hne].
    + rewrite bool_decide_eq_true_2 by reflexivity.
      destruct (decide (i = 1)) as [->|H1].
      * rewrite bool_decide_eq_true_2 by reflexivity. intros [= <-]. reflexivity.
      * rewrite (bool_decide_eq_false_2 (i = 1)) by exact H1.
        destruct (decide (i = 2)) as [->|H2].
        -- rewrite bool_decide_eq_true_2 by reflexivity. intros [= <-]. reflexivity.
        -- rewrite (bool_decide_eq_false_2 (i = 2)) by exact H2. discriminate.
    + rewrite bool_decide_eq_false_2 by exact Hne. apply Hargs.
Qed.

Lemma elem_of_remove_first x y (l : list job_id) :
  NoDup l -> y ∈ remove_first x l <-> y ∈ l /\ y <> x.
Proof.
  induction l as [|z l IH]; simpl; intros Hnd.
  - split; [intros H; inversion H | intros [H _]; inversion H].
  - apply NoDup_cons in Hnd as [Hz Hnd].
    destruct (decide (z = x)) as [->|Hne].
    + rewrite bool_decide_eq_true_2 by reflexivity. rewrite elem_of_cons. split.
      * intros Hy. split; [right; exact Hy | intros ->; contradiction].
      * intros [[->|Hy] Hyx]; [contradiction | exact Hy].
    + rewrite bool_decide_eq_false_2 by exact Hne.
      rewrite !elem_of_cons, (IH Hnd). split.
      * intros [->|[Hy Hyx]]; [split; [left; reflexivity | exact Hne]|].
        split; [right; exact Hy | exact Hyx].
      * intros [[->|Hy] Hyx]; [left; reflexivity | right; split; assumption].
Qed.

Lemma NoDup_remove_first x (l : list job_id) :
  NoDup l -> NoDup (remove_first x l).
Proof.
  induction l as [|z l IH]; simpl; intros Hnd; [exact Hnd|].
  pose proof Hnd as [Hz Hl]%NoDup_cons.
  destruct (bool_decide (z = x)); [exact Hl|].
  apply NoDup_cons. split; [|exact (IH Hl)].
  intros Hin. apply (elem_of_remove_first x z l Hl) in Hin as [Hin _]. contradiction.
Qed.

(** What is left of the index when a job has taken itself out. *)
Lemma forget_index svc c i0 jobs c1 :
  _followup_jobs svc !! c = Some jobs -> (c, i0) ∈ jobs ->
  _followup_jobs (forget_job svc c i0) !! c1
  = if bool_decide (c1 = c) then
      match remove_first (c, i0) jobs with
      | [] => None
      | j :: rest => Some (j :: rest)
      end
    else _followup_jobs svc !! c1.
Proof.
  intros Hjobs Hin. unfold forget_job. rewrite Hjobs.
  rewrite (bool_decide_eq_true_2 _ Hin).
  rewrite bool_decide_eq_true_2 by (intros ->; inversion Hin).
  simpl. destruct (remove_first (c, i0) jobs) as [|j rest]; simpl.
  - destruct (decide (c1 = c)) as [->|Hne].
    + rewrite bool_decide_eq_true_2 by reflexivity. apply lookup_delete_eq.
    + rewrite bool_decide_eq_false_2 by exact Hne.
      apply lookup_delete_ne. congruence.
  - destruct (decide (c1 = c)) as [->|Hne].
    + rewrite bool_decide_eq_true_2 by reflexivity. apply lookup_insert_eq.
    + rewrite bool_decide_eq_false_2 by exact Hne.
      apply lookup_insert_ne. congruence.
Qed.

Lemma forget_scheduler svc c i0 :
  scheduler (forget_job svc c i0) = scheduler svc.
Proof.
  unfold forget_job. destruct (_followup_jobs svc !! c) as [jobs|]; [|reflexivity].
  destruct (bool_decide (jobs <> []) && bool_decide ((c, i0) ∈ jobs)); reflexivity.
Qed.

(** The store without the job that is run, and the index without its id,
    agree again. *)
Lemma forget_in_sync svc c i0 :
  in_sync svc -> is_Some (scheduler svc !! (c, i0)) ->
  in_sync (forget_job {| scheduler := delete (c, i0) (scheduler svc);
                         _followup_jobs := _followup_jobs svc |} c i0).
Proof.
  intros (Hlist & Hstore & Hargs) Hjob.
  pose proof (proj1 (Hstore c i0) Hjob) as (jobs & Hjobs & Hin).
  destruct (Hlist c jobs Hjobs) as (_ & Hnd & Hslots).
  set (svc0 := {| scheduler := delete (c, i0) (scheduler svc);
                  _followup_jobs := _followup_jobs svc |}).
  assert (Hidx : forall c1,
    _followup_jobs (forget_job svc0 c i0) !! c1
    = if bool_decide (c1 = c) then
        match remove_first (c, i0) jobs with
        | [] => None
        | j :: rest => Some (j :: rest)
        end
      else _followup_jobs svc !! c1)
    by (intros c1; apply (forget_index svc0 c i0 jobs c1 Hjobs Hin)).
  split; [|split].
  - intros c1 jobs1. rewrite Hidx.
    destruct (decide (c1 = c)) as [->|Hne].
    + rewrite bool_decide_eq_true_2 by reflexivity.
      pose proof (NoDup_remove_first (c, i0) jobs Hnd) as Hnd1.
      pose proof (fun y => elem_of_remove_first (c, i0) y jobs Hnd) as Hel.
      destruct (remove_first (c, i0) jobs) as [|j rest]; [discriminate|].
      intros [= <-]. split; [discriminate|]. split; [exact Hnd1|].
      intros j1 Hj1. apply Hslots. apply (Hel j1). exact Hj1.
    + rewrite bool_decide_eq_false_2 by exact Hne. apply Hlist.
  - intros c1 i. rewrite forget_scheduler. simpl.
    destruct (decide (c1 = c)) as [->|Hne].
    + assert (Hrem : is_Some (delete (c, i0) (scheduler svc) !! (c, i))
                     <-> (c, i) ∈ remove_first (c, i0) jobs).
      { rewrite (elem_of_remove_first (c, i0) (c, i) jobs Hnd).
        destruct (decide (i = i0)) as [->|Hi].
        - rewrite lookup_delete_eq.
          split; [intros [x Hx]; discriminate Hx|].
          intros [_ H]. exfalso. apply H. reflexivity.
        - rewrite lookup_delete_ne by congruence. rewrite Hstore. split.
          + intros (jobs1 & Hj1 & Hin1). rewrite Hjobs in Hj1.
            injection Hj1 as <-. split; [exact Hin1 | congruence].
          + intros [Hin1 _]. exists jobs. split; assumption. }
      rewrite Hrem. split.
      * intros Hin1. exists (remove_first (c, i0) jobs). split; [|exact Hin1].
        rewrite Hidx, bool_decide_eq_true_2 by reflexivity.
        destruct (remove_first (c, i0) jobs); [inversion Hin1 | reflexivity].
      * intros (jobs1 & Hj1 & Hin1).
        rewrite Hidx, bool_decide_eq_true_2 in Hj1 by reflexivity.
        destruct (remove_first (c, i0) jobs); [discriminate|].
        injection Hj1 as <-. exact Hin1.
    + rewrite lookup_delete_ne by congruence. rewrite Hstore.
      split; intros (jobs1 & Hj1 & Hin1); exists jobs1; split; try exact Hin1.
      * rewrite Hidx, bool_decide_eq_false_2 by exact Hne. exact Hj1.
      * rewrite Hidx, bool_decide_eq_false_2 in Hj1 by exact Hne. exact Hj1.
  - intros jid job. rewrite forget_scheduler. simpl. intros Hj.
    apply lookup_delete_Some in Hj as [_ Hj]. exact (Hargs jid job Hj).
Qed.

(** Whatever a job finds, it leaves the service as its first lines left
    it, or cancels what remains for the check-in. *)
Lemma run_job_service w svc db groups now a :
  (_run_followup_job lower w svc db groups now a).1.1
  = forget_job svc (arg_checkin_id a) (arg_slot a)
  \/ (_run_followup_job lower w svc db groups now a).1.1
     = cancel_followups (forget_job svc (arg_checkin_id a) (arg_slot a))
         (arg_checkin_id a).
Proof.
  unfold _run_followup_job.
  repeat match goal with
         | |- context [match ?x with _ => _ end] => destruct x
         end; simpl; auto.
Qed.

Lemma empty_in_sync : in_sync empty_service.
Proof.
  split; [|split]; simpl.
  - intros c jobs H. rewrite lookup_empty in H. discriminate H.
  - intros c i. rewrite lookup_empty. split.
    + intros [x Hx]. discriminate Hx.
    + intros (jobs & H & _). rewrite lookup_empty in H. discriminate H.
  - intros jid job H. rewrite lookup_empty in H. discriminate H.
Qed.



(** The jobs of a check-in, read off the store. *)
Lemma outstanding_lookup svc c c1 i :
  outstanding svc c !! (c1, i)
  = if bool_decide (c1 = c) then scheduler svc !! (c1, i) else None.
Proof.
  unfold outstanding. destruct (decide (c1 = c)) as [->|Hne].
  - rewrite bool_decide_eq_true_2 by reflexivity.
    destruct (scheduler svc !! (c, i)) as [job|] eqn:Hjob.
    + apply map_lookup_filter_Some. split; [exact Hjob | reflexivity].
    + apply map_lookup_filter_None. left. exact Hjob.
  - rewrite bool_decide_eq_false_2 by exact Hne.
    apply map_lookup_filter_None. right. intros job _. simpl. exact Hne.
Qed.




Lemma outstanding_cancelled svc c :
  in_sync svc -> outstanding (cancel_followups svc c) c = ∅.
Proof.
  intros Hsync. apply map_eq. intros [c1 i].
  rewrite outstanding_lookup, (cancel_scheduler svc c c1 i Hsync), lookup_empty.
  destruct (bool_decide (c1 = c)); reflexivity.
Qed.













End AutosendFacts.

(** ** The scheduler on the sample data *)






(** ** The ledger as a whole *)

Section LedgerFacts.

Import Checks.

Variable media_conflict : Media -> list Media -> bool.

(** The constraints speak of the rows and of the sequence only. *)
Lemma rows_updated_ok db db1 (q : Checkin -> bool) (f : Checkin -> Checkin) :
  daily_checkins db1 = update_where q f (daily_checkins db) ->
  checkin_seq db1 = checkin_seq db ->
  (forall r, checkin_id_of (f r) = checkin_id_of r) ->
  (forall r, day_key (f r) = day_key r) ->
  checkins_ok db -> checkins_ok db1.
Proof.
  intros Hrows Hseq Hfid Hfkey Hok.
  pose proof (update_where_ok db q f Hfid Hfkey Hok) as (Hid & Hkey & Hlt).
  simpl in *. unfold checkins_ok. rewrite Hrows, Hseq. repeat split; assumption.
Qed.

Lemma row_appended_ok db db1 c :
  daily_checkins db1 = daily_checkins db ++ [c] ->
  checkin_seq db1 = checkin_seq db + 1 ->
  checkin_id_of c = checkin_seq db ->
  find (by_day (driver_id c) (check_date_of c)) (daily_checkins db) = None ->
  checkins_ok db -> checkins_ok db1.
Proof.
  intros Hrows Hseq Hcid Hfind (Hid & Hkey & Hlt).
  unfold checkins_ok. rewrite Hrows, Hseq, !fmap_app. simpl. repeat split.
  - apply NoDup_app. split; [exact Hid|]. split; [|apply NoDup_singleton].
    intros i Hi Hnew. apply list_elem_of_singleton in Hnew. subst i.
    apply list_elem_of_fmap in Hi as (r & Hr & Hin).
    rewrite Forall_forall in Hlt. specialize (Hlt r Hin). lia.
  - apply NoDup_app. split; [exact Hkey|]. split; [|apply NoDup_singleton].
    intros k Hk Hnew. apply list_elem_of_singleton in Hnew. subst k.
    apply list_elem_of_fmap in Hk as (r & Hr & Hin).
    pose proof (find_none_elem _ _ r Hfind Hin) as Hno.
    assert (Hyes : by_day (driver_id c) (check_date_of c) r = true)
      by (apply (by_day_key (driver_id c, check_date_of c)); symmetry; exact Hr).
    congruence.
  - apply Forall_app. split.
    + eapply Forall_impl; [exact Hlt|]. intros r Hr. simpl in *. lia.
    + apply Forall_cons. split; [lia | apply Forall_nil; exact I].
Qed.

Lemma step_ok db o : checkins_ok db -> checkins_ok (step media_conflict db o).
Proof.
  intros Hok. destruct o; simpl.
  - apply upsert_checkin_ok, Hok.
  - unfold mark_notified, returning.
    destruct (find (by_id id) (daily_checkins db)); simpl; [|exact Hok].
    eapply rows_updated_ok; [reflexivity | reflexivity | | | exact Hok]; reflexivity.
  - unfold reset_checkin, returning.
    destruct (find (by_id id) (daily_checkins db)); simpl; [|exact Hok].
    eapply rows_updated_ok; [reflexivity | reflexivity | | | exact Hok]; reflexivity.
  - unfold record_media, returning.
    pose proof (upsert_checkin_ok db did gid day now Hok) as Hok1.
    destruct (upsert_checkin db did gid day now) as [db1 c]. simpl in Hok1.
    destruct (find (by_id (checkin_id_of c)) (daily_checkins db1)); simpl;
      [|exact Hok].
    eapply rows_updated_ok; [reflexivity | reflexivity | | | exact Hok1]; reflexivity.
  - eapply rows_updated_ok; [reflexivity | reflexivity | | | exact Hok]; reflexivity.
  - eapply rows_updated_ok; [reflexivity | reflexivity | | | exact Hok]; reflexivity.
  - unfold set_excused, returning.
    destruct (find (by_group_day did gid day) (daily_checkins db)); simpl.
    + eapply rows_updated_ok; [reflexivity | reflexivity | | | exact Hok]; reflexivity.
    + destruct (find (by_day did day) (daily_checkins db)) eqn:Hday; simpl;
        [apply (seq_grows_ok db); [reflexivity | simpl; lia | exact Hok]|].
      eapply row_appended_ok; [reflexivity | reflexivity | reflexivity | | exact Hok].
      exact Hday.
  - unfold update_review_status, returning.
    destruct (find (by_group_day did gid day) (daily_checkins db)); simpl;
      [|exact Hok].
    eapply rows_updated_ok; [reflexivity | reflexivity | | | exact Hok]; reflexivity.
  - unfold reopen_checkin, returning.
    destruct (find (by_group_day did gid day) (daily_checkins db)); simpl;
      [|exact Hok].
    eapply rows_updated_ok; [reflexivity | reflexivity | | | exact Hok]; reflexivity.
Qed.

Lemma empty_db_ok : checkins_ok empty_db.
Proof.
  unfold checkins_ok, empty_db. simpl.
  repeat split; try apply NoDup_nil_2. apply Forall_nil. exact I.
Qed.

(** X1. Whatever writes of the ledger are run, in whatever order and
    whether they succeed or raise, [daily_checkins] keeps its keys: no two
    rows share an id, no two rows share a driver and a day, and every id
    lies below the sequence. *)
Theorem ledger_keys_kept db ops :
  checkins_ok db -> checkins_ok (run media_conflict db ops).
Proof.
  unfold run. revert db.
  induction ops as [|o ops IH]; intros db Hok; simpl.
  - exact Hok.
  - apply IH, step_ok, Hok.
Qed.

Lemma elem_update_where {A} (q : A -> bool) (f : A -> A) (rows : list A) r :
  r ∈ rows -> (if q r then f r else r) ∈ update_where q f rows.
Proof.
  intros Hin. unfold update_where.
  apply (list_elem_of_fmap_2 (fun r => if q r then f r else r)), Hin.
Qed.

(** A row under an [UPDATE] that keeps the identity of its rows and does
    not lower their media count. *)
Lemma updated_row_kept (q : Checkin -> bool) (f : Checkin -> Checkin) rows r :
  (forall x, same_row x (f x)) ->
  (forall x, media_count x <= media_count (f x)) ->
  r ∈ rows ->
  exists r1, r1 ∈ update_where q f rows /\ same_row r r1
             /\ media_count r <= media_count r1.
Proof.
  intros Hsame Hcount Hin. exists (if q r then f r else r).
  split; [apply elem_update_where, Hin|].
  destruct (q r); [split; [apply Hsame | apply Hcount]|].
  split; [repeat split | lia].
Qed.

Lemma upsert_row_kept db did gid day now r :
  r ∈ daily_checkins db ->
  exists r1, r1 ∈ daily_checkins (upsert_checkin db did gid day now).1
             /\ same_row r r1 /\ media_count r <= media_count r1.
Proof.
  intros Hin. unfold upsert_checkin.
  destruct (find (by_day did day) (daily_checkins db)); simpl.
  - apply updated_row_kept; [| |exact Hin]; intros x; simpl;
      [repeat split | lia].
  - exists r. split; [apply elem_of_app; left; exact Hin|].
    split; [repeat split | lia].
Qed.

Ltac row_updated Hin :=
  apply updated_row_kept; [| |exact Hin]; intros ?; simpl; [repeat split | lia].

Lemma step_row_kept db o r :
  r ∈ daily_checkins db ->
  exists r1, r1 ∈ daily_checkins (step media_conflict db o) /\ same_row r r1
             /\ (is_reset o = false -> media_count r <= media_count r1).
Proof.
  intros Hin.
  assert (Hstay : exists r1, r1 ∈ daily_checkins db /\ same_row r r1
                             /\ media_count r <= media_count r1)
    by (exists r; split; [exact Hin | split; [repeat split | lia]]).
  assert (Hweak : forall rows : list Checkin,
             (exists r1, r1 ∈ rows /\ same_row r r1
                         /\ media_count r <= media_count r1) ->
             exists r1, r1 ∈ rows /\ same_row r r1
                        /\ (is_reset o = false -> media_count r <= media_count r1)).
  { intros rows (r1 & H1 & H2 & H3). exists r1. repeat split; try apply H2; auto. }
  destruct o; simpl.
  - apply Hweak, upsert_row_kept, Hin.
  - apply Hweak. unfold mark_notified, returning.
    destruct (find (by_id id) (daily_checkins db)); simpl; [|exact Hstay].
    row_updated Hin.
  - unfold reset_checkin, returning.
    destruct (find (by_id id) (daily_checkins db)); simpl;
      [|apply Hweak, Hstay].
    exists (if by_id id r then reset_row now r else r).
    split; [apply elem_update_where, Hin|].
    split; [destruct (by_id id r); repeat split | discriminate].
  - apply Hweak. unfold record_media, returning.
    pose proof (upsert_row_kept db did gid day now r Hin)
      as (r1 & Hin1 & Hsame1 & Hcount1).
    destruct (upsert_checkin db did gid day now) as [db1 c]. simpl in Hin1.
    destruct (find (by_id (checkin_id_of c)) (daily_checkins db1)); simpl;
      [|exact Hstay].
    destruct (updated_row_kept (by_id (checkin_id_of c)) (media_row now)
                (daily_checkins db1) r1) as (r2 & Hin2 & Hsame2 & Hcount2);
      [intros x; repeat split | intros x; simpl; lia | exact Hin1 |].
    exists r2. split; [exact Hin2|].
    destruct Hsame1 as (? & ? & ?), Hsame2 as (? & ? & ?).
    split; [repeat split; congruence | lia].
  - apply Hweak. row_updated Hin.
  - apply Hweak. row_updated Hin.
  - apply Hweak. unfold set_excused, returning.
    destruct (find (by_group_day did gid day) (daily_checkins db)); simpl.
    + row_updated Hin.
    + destruct (find (by_day did day) (daily_checkins db)); simpl;
        [exact Hstay|].
      exists r. split; [apply elem_of_app; left; exact Hin|].
      split; [repeat split | lia].
  - apply Hweak. unfold update_review_status, returning.
    destruct (find (by_group_day did gid day) (daily_checkins db)); simpl;
      [|exact Hstay].
    row_updated Hin.
  - apply Hweak. unfold reopen_checkin, returning.
    destruct (find (by_group_day did gid day) (daily_checkins db)); simpl;
      [|exact Hstay].
    row_updated Hin.
Qed.

(** X2. No write of the ledger deletes a check-in or moves it to another
    id, driver or day: a row of the table is still there after any
    sequence of writes.  Its media count has not gone down unless a
    [reset_checkin] was among them. *)
Theorem rows_survive db ops r :
  r ∈ daily_checkins db ->
  exists r1, r1 ∈ daily_checkins (run media_conflict db ops) /\ same_row r r1
             /\ (no_reset ops -> media_count r <= media_count r1).
Proof.
  unfold run. revert db r.
  induction ops as [|o ops IH]; intros db r Hin; simpl.
  - exists r. split; [exact Hin|]. split; [repeat split | lia].
  - destruct (step_row_kept db o r Hin) as (r1 & Hin1 & Hsame1 & Hcount1).
    destruct (IH _ r1 Hin1) as (r2 & Hin2 & Hsame2 & Hcount2).
    exists r2. split; [exact Hin2|].
    destruct Hsame1 as (? & ? & ?), Hsame2 as (? & ? & ?).
    split; [repeat split; congruence|].
    intros Hno. apply Forall_cons in Hno as [Ho Hops].
    specialize (Hcount1 Ho). specialize (Hcount2 Hops). lia.
Qed.

(** X3. [mark_notified] on a check-in that exists stores and returns the
    notification time that the row already had, or the time of the call
    when it had none; a later call returns the same time again. *)
Theorem mark_notified_keeps_first db id now now2 db1 c :
  mark_notified db id now = Some (db1, c) ->
  exists row db2 c2,
    fetch_checkin_by_id db id = Some row
    /\ sent_at c = Some (default now (sent_at row))
    /\ fetch_checkin_by_id db1 id = Some c
    /\ mark_notified db1 id now2 = Some (db2, c2)
    /\ sent_at c2 = sent_at c.
Proof.
  unfold mark_notified, returning, fetch_checkin_by_id.
  destruct (find (by_id id) (daily_checkins db)) as [row|] eqn:Hfind; simpl;
    [|discriminate].
  intros [= <- <-]. simpl.
  pose proof (find_elem _ _ _ Hfind) as [_ Hrow].
  rewrite (find_update_where (by_id id)) by reflexivity.
  rewrite Hfind. simpl. rewrite Hrow.
  eexists _, _, _. repeat split.
Qed.

(** X4. [set_excused] raises, and writes nothing, exactly when the driver
    has a row for the day under another group.  Otherwise the row of the
    driver, the group and the day is stored and returned as [excused] with
    the reason and the time of the call and without a reviewer; it keeps
    the media it had (none when the row is new), and no driver and no
    media item is touched. *)
Theorem set_excused_spec db did gid day why now :
  checkins_ok db ->
  (set_excused db did gid day why now = None
   <-> taken_by_other_group db did gid day)
  /\ forall db1 c,
       set_excused db did gid day why now = Some (db1, c) ->
       fetch_checkin db1 did gid day = Some c
       /\ status c = "excused"%string /\ reason c = Some why
       /\ reviewed_at c = Some now /\ reviewer_user_id c = None
       /\ media_count c
          = match fetch_checkin db did gid day with
            | Some r => media_count r
            | None => 0
            end
       /\ drivers db1 = drivers db /\ media db1 = media db.
Proof.
  intros (_ & Hkey & _). unfold set_excused, returning, fetch_checkin.
  assert (Hself : forall r, by_group_day did gid day r = true ->
                            by_day did day r = true).
  { intros r. unfold by_group_day, by_day. rewrite !andb_true_iff.
    intros [[? ?] ?]. split; assumption. }
  destruct (find (by_group_day did gid day) (daily_checkins db)) as [r|] eqn:Hg;
    simpl.
  - pose proof (find_elem _ _ _ Hg) as [Hin Hr]. split.
    + split; [discriminate|]. intros (r1 & Hin1 & Hd & Hday & Hne). exfalso.
      pose proof (find_by_day _ _ Hkey Hin1) as H1.
      pose proof (find_by_day _ _ Hkey Hin) as H2.
      apply Hself, (by_day_key (did, day)) in Hr. injection Hr as Hrd Hrday.
      rewrite Hd, Hday in H1. rewrite Hrd, Hrday in H2.
      rewrite H1 in H2. injection H2 as ->.
      unfold by_group_day in Hg. apply find_elem in Hg as [_ Hg].
      rewrite !andb_true_iff, !Z.eqb_eq in Hg. destruct Hg as [[_ ?] _]. congruence.
    + intros db1 c [= <- <-]. simpl.
      rewrite (find_update_where (by_group_day did gid day)) by reflexivity.
      rewrite Hg. simpl. rewrite Hr. repeat split.
  - destruct (find (by_day did day) (daily_checkins db)) as [r|] eqn:Hd.
    + split; [|discriminate]. split; [intros _|reflexivity].
      pose proof (find_elem _ _ _ Hd) as [Hin Hr].
      pose proof (find_none_elem _ _ r Hg Hin) as Hno.
      exists r. unfold by_day in Hr. unfold by_group_day in Hno.
      rewrite andb_true_iff, !Z.eqb_eq in Hr. destruct Hr as [Hr1 Hr2].
      repeat split; try assumption. intros Hgid.
      rewrite Hr1, Hr2, Hgid, !Z.eqb_refl in Hno. discriminate.
    + split.
      * split; [discriminate|]. intros (r & Hin & Hr1 & Hr2 & _). exfalso.
        pose proof (find_none_elem _ _ r Hd Hin) as Hno. unfold by_day in Hno.
        rewrite Hr1, Hr2, !Z.eqb_refl in Hno. discriminate.
      * intros db1 c [= <- <-]. simpl.
        rewrite (find_app_none _ _ _ Hg). simpl.
        unfold by_group_day at 1. simpl. rewrite !Z.eqb_refl. simpl.
        repeat split.
Qed.

End LedgerFacts.

(** Three writes on the sample ledger, one of which raises. *)
Lemma ledger_keys_kept_witness :
  Checks.checkins_ok
    (Checks.run (fun _ _ => false) sample_db
       [Checks.Ensure 8 100 41 2000; Checks.SetExcused 8 200 41 "sick" 2100;
        Checks.Reset 1 2200]).
Proof. apply ledger_keys_kept. exact sample_db_ok. Defined.

(** The passed day of the sample driver gets a fourth and a fifth media
    item and is reviewed again: the row with id 1 is still there, with no
    fewer than its three items. *)
Lemma rows_survive_witness :
  exists r1,
    r1 ∈ Checks.daily_checkins
           (Checks.run (fun _ _ => false) sample_db
              [Checks.RecordMedia 7 100 41 "photo" "f-4" None 2000;
               Checks.RecordMedia 7 100 41 "video" "f-5" None 2010;
               Checks.UpdateReview 7 100 41 "fail" 9 (Some "tyres"%string) 2100])
    /\ checkin_id_of r1 = 1 /\ 3 <= media_count r1.
Proof.
  destruct (rows_survive (fun _ _ => false) sample_db
              [Checks.RecordMedia 7 100 41 "photo" "f-4" None 2000;
               Checks.RecordMedia 7 100 41 "video" "f-5" None 2010;
               Checks.UpdateReview 7 100 41 "fail" 9 (Some "tyres"%string) 2100]
              sample_pass_row)
    as (r1 & Hin & (Hid & _ & _) & Hcount).
  - apply list_elem_of_here.
  - exists r1. split; [exact Hin|]. split; [exact Hid|]. apply Hcount.
    repeat (apply Forall_cons; split; [reflexivity|]). apply Forall_nil. exact I.
Defined.

(** The sample row was sent at 900: marking it at 2000 and again at 3000
    leaves 900. *)
Lemma mark_notified_keeps_first_witness :
  exists db1 c db2 c2,
    Checks.mark_notified sample_db 1 2000 = Some (db1, c)
    /\ Checks.mark_notified db1 1 3000 = Some (db2, c2)
    /\ sent_at c2 = Some 900.
Proof.
  destruct (Checks.mark_notified sample_db 1 2000) as [[db1 c]|] eqn:Hrun;
    [|discriminate Hrun].
  destruct (mark_notified_keeps_first sample_db 1 2000 3000 db1 c Hrun)
    as (row & db2 & c2 & Hrow & Hsent & _ & Hagain & Hsame).
  exists db1, c, db2, c2. split; [reflexivity|]. split; [exact Hagain|].
  rewrite Hsame, Hsent. injection Hrow as <-. reflexivity.
Defined.

(** The sample driver has day 41 under group 100: excusing the day for
    group 200 raises. *)
Lemma set_excused_spec_witness :
  Checks.set_excused sample_db 7 200 41 "sick" 2000 = None.
Proof.
  apply (set_excused_spec sample_db 7 200 41 "sick"%string 2000 sample_db_ok).
  exists sample_pass_row. split; [apply list_elem_of_here|].
  repeat split. simpl. lia.
Defined.

(** ** Follow-up jobs: what they leave alone *)

Section SchedulerFacts.

Import Roles Autosend.

Variable lower : string -> string.
Variable zones : Zones.

Lemma fire_service w svc db groups c i clock r :
  in_sync svc ->
  fire lower w svc db groups (c, i) clock = Some r ->
  exists job,
    scheduler svc !! (c, i) = Some job
    /\ arg_checkin_id (job_args job) = c /\ arg_slot (job_args job) = i
    /\ r = _run_followup_job lower w
             {| scheduler := delete (c, i) (scheduler svc);
                _followup_jobs := _followup_jobs svc |}
             db groups clock (job_args job).
Proof.
  intros (_ & _ & Hargs). unfold fire.
  destruct (scheduler svc !! (c, i)) as [job|] eqn:Hjob; [|discriminate].
  destruct (run_date job <=? clock); [|discriminate].
  intros [= <-]. exists job. specialize (Hargs _ _ Hjob).
  injection Hargs as H1 H2. repeat split; assumption.
Qed.

Lemma forget_index_other svc c i0 c1 :
  c1 <> c ->
  _followup_jobs (forget_job svc c i0) !! c1 = _followup_jobs svc !! c1.
Proof.
  intros Hne. unfold forget_job.
  destruct (_followup_jobs svc !! c) as [jobs|]; [|reflexivity].
  destruct (bool_decide (jobs ≠ []) && bool_decide ((c, i0) ∈ jobs));
    [|reflexivity].
  cbn [_followup_jobs].
  destruct (remove_first (c, i0) jobs);
    [rewrite lookup_delete_ne | rewrite lookup_insert_ne]; congruence.
Qed.

Lemma step_other svc o c i :
  in_sync svc -> op_checkin o <> c ->
  scheduler (step lower zones svc o) !! (c, i) = scheduler svc !! (c, i)
  /\ _followup_jobs (step lower zones svc o) !! c = _followup_jobs svc !! c.
Proof.
  intros Hsync Hne. destruct o as [c0 g d target now | c0 | w db groups [c0 i0] clock];
    simpl in Hne; cbn [step].
  - split.
    + rewrite (schedule_scheduler zones svc c0 g d target now c i Hsync).
      rewrite bool_decide_eq_false_2 by congruence. reflexivity.
    + rewrite schedule_unfold. cbn [_followup_jobs].
      rewrite lookup_insert_ne by congruence. rewrite cancel_index.
      rewrite lookup_delete_ne by congruence. reflexivity.
  - split.
    + rewrite (cancel_scheduler svc c0 c i Hsync).
      rewrite bool_decide_eq_false_2 by congruence. reflexivity.
    + rewrite cancel_index. rewrite lookup_delete_ne by congruence. reflexivity.
  - destruct (fire lower w svc db groups (c0, i0) clock) as [[[svc1 db1] out]|]
      eqn:Hfire; [|split; reflexivity].
    destruct (fire_service _ _ _ _ _ _ _ _ Hsync Hfire)
      as (job & Hjob & Hc & Hi & Hrun).
    assert (Hsome : is_Some (scheduler svc !! (c0, i0))) by (eexists; exact Hjob).
    pose proof (forget_in_sync svc c0 i0 Hsync Hsome) as Hsync1.
    pose proof (run_job_service lower w
                  {| scheduler := delete (c0, i0) (scheduler svc);
                     _followup_jobs := _followup_jobs svc |}
                  db groups clock (job_args job)) as Hsvc.
    rewrite <- Hrun, Hc, Hi in Hsvc. simpl in Hsvc.
    destruct Hsvc as [-> | ->].
    + split.
      * rewrite forget_scheduler. cbn [scheduler].
        rewrite lookup_delete_ne by congruence. reflexivity.
      * rewrite forget_index_other by congruence. reflexivity.
    + split.
      * rewrite (cancel_scheduler _ c0 c i Hsync1).
        rewrite bool_decide_eq_false_2 by congruence.
        rewrite forget_scheduler. cbn [scheduler].
        rewrite lookup_delete_ne by congruence. reflexivity.
      * rewrite cancel_index. rewrite lookup_delete_ne by congruence.
        rewrite forget_index_other by congruence. reflexivity.
Qed.

(** X5. Scheduling, cancelling or running the follow-ups of one check-in
    leaves the follow-ups of every other check-in as they are: the same
    jobs with the same due times in the store, and the same entry in the
    index. *)
Theorem followups_of_others_untouched svc o c :
  in_sync svc -> op_checkin o <> c ->
  outstanding (step lower zones svc o) c = outstanding svc c
  /\ _followup_jobs (step lower zones svc o) !! c = _followup_jobs svc !! c.
Proof.
  intros Hsync Hne. split; [|apply (step_other svc o c 0 Hsync Hne)].
  apply map_eq. intros [c1 i]. rewrite !outstanding_lookup.
  destruct (bool_decide (c1 = c)) eqn:Hc; [|reflexivity].
  apply bool_decide_eq_true in Hc. subst c1.
  apply (step_other svc o c i Hsync Hne).
Qed.

(** X6. A follow-up job that runs sends a message or writes to the ledger
    only for a check-in that is in the ledger, still [pending] or
    [submitted], and without a recorded response.  When the check-in is
    gone, closed or answered, the job sends nothing, leaves the ledger as
    it is, and takes every follow-up of the check-in out of the store. *)
Theorem reminder_needs_open_checkin w svc db groups c i clock svc2 db2 out :
  in_sync svc ->
  fire lower w svc db groups (c, i) clock = Some (svc2, db2, out) ->
  (out <> [] \/ db2 <> db ->
   exists row, Checks.fetch_checkin_by_id db c = Some row
               /\ still_open row /\ responded_at row = None)
  /\ (nothing_to_remind db c ->
      out = [] /\ db2 = db /\ outstanding svc2 c = ∅).
Proof.
  intros Hsync Hfire.
  destruct (fire_service _ _ _ _ _ _ _ _ Hsync Hfire)
    as (job & Hjob & Hc & Hi & Hrun).
  assert (Hsome : is_Some (scheduler svc !! (c, i))) by (eexists; exact Hjob).
  pose proof (forget_in_sync svc c i Hsync Hsome) as Hsync1.
  set (svc0 := {| scheduler := delete (c, i) (scheduler svc);
                  _followup_jobs := _followup_jobs svc |}) in *.
  assert (Hdrop : forall s d (o : list sent),
             (s, d, o) = (cancel_followups (forget_job svc0 c i) c, db, [])
             -> (o <> [] \/ d <> db ->
                 exists row, Checks.fetch_checkin_by_id db c = Some row
                             /\ still_open row /\ responded_at row = None)
                /\ (nothing_to_remind db c ->
                    o = [] /\ d = db /\ outstanding s c = ∅)).
  { intros s d o [= -> -> ->]. split.
    - intros [H | H]; exfalso; apply H; reflexivity.
    - intros _. repeat split. apply outstanding_cancelled, Hsync1. }
  unfold _run_followup_job in Hrun. rewrite Hc, Hi in Hrun.
  destruct (Checks.fetch_checkin_by_id db c) as [row|] eqn:Hrow;
    [|apply Hdrop, Hrun].
  destruct (negb (str_in (status row) ["pending"; "submitted"]%string)
            || truthy_dt (responded_at row)) eqn:Hguard;
    [apply Hdrop, Hrun|].
  apply orb_false_iff in Hguard as [Hopen Hresp].
  apply negb_false_iff in Hopen.
  assert (Hrow_open : still_open row /\ responded_at row = None).
  { split.
    - unfold still_open. unfold str_in in Hopen. simpl in Hopen.
      rewrite orb_false_r in Hopen. apply orb_true_iff in Hopen.
      destruct Hopen as [H | H]; apply String.eqb_eq in H; auto.
    - destruct (responded_at row); [discriminate | reflexivity]. }
  assert (Hopen_case :
            (out <> [] \/ db2 <> db ->
             exists row0, Some row = Some row0
                          /\ still_open row0 /\ responded_at row0 = None)
            /\ (nothing_to_remind db c ->
                out = [] /\ db2 = db /\ outstanding svc2 c = ∅)).
  { split.
    - intros _. exists row. split; [reflexivity | exact Hrow_open].
    - intros Hnothing. exfalso. destruct Hrow_open as [Ho Hr].
      destruct (Hnothing row Hrow) as [H | H]; [apply H, Ho | apply H, Hr]. }
  destruct (Checks.find_driver_by_id db (arg_driver_id (job_args job)));
    [|apply Hdrop, Hrun].
  destruct (fetch_group groups (arg_group_id (job_args job)));
    [|apply Hdrop, Hrun].
  destruct (arg_target_chat_id (job_args job) <? 0); [|exact Hopen_case].
  destruct (get_chat w (arg_target_chat_id (job_args job)));
    [|apply Hdrop, Hrun].
  destruct (is_driver_chat_paused lower (Some c0)); [apply Hdrop, Hrun|].
  exact Hopen_case.
Qed.

End SchedulerFacts.

(** Check-in 3 has its two follow-ups; cancelling those of check-in 4
    leaves them. *)
Lemma followups_of_others_untouched_witness :
  Autosend.outstanding
    (Autosend.cancel_followups
       (Autosend.schedule_followups utc_zones Autosend.empty_service 3 sample_group
          sample_driver (-500) 5000) 4) 3
  = Autosend.outstanding
      (Autosend.schedule_followups utc_zones Autosend.empty_service 3 sample_group
         sample_driver (-500) 5000) 3.
Proof.
  apply (followups_of_others_untouched ascii_lower utc_zones
           (Autosend.schedule_followups utc_zones Autosend.empty_service 3 sample_group
              sample_driver (-500) 5000)
           (Autosend.Cancel 4) 3).
  - apply schedule_in_sync, empty_in_sync.
  - simpl. lia.
Defined.

(** The driver of check-in 3 has answered: the first follow-up sends
    nothing and takes the second one with it. *)
Lemma reminder_needs_open_checkin_witness :
  exists svc2,
    Autosend.fire ascii_lower quiet_world
      (Autosend.schedule_followups utc_zones Autosend.empty_service 3 sample_group
         sample_driver (-500) 5000)
      answered_db [sample_group] (3, 1) 5900
    = Some (svc2, answered_db, [])
    /\ Autosend.outstanding svc2 3 = ∅.
Proof.
  destruct (Autosend.fire ascii_lower quiet_world
              (Autosend.schedule_followups utc_zones Autosend.empty_service 3 sample_group
                 sample_driver (-500) 5000)
              answered_db [sample_group] (3, 1) 5900)
    as [[[svc2 db2] out]|] eqn:Hfire; [|vm_compute in Hfire; discriminate Hfire].
  destruct (reminder_needs_open_checkin ascii_lower quiet_world _ _ _ _ _ _ _ _ _
              (schedule_in_sync _ _ 3 sample_group sample_driver (-500) 5000
                 empty_in_sync) Hfire) as [_ Hquiet].
  destruct Hquiet as (-> & -> & Hnone).
  - intros row [= <-]. right. discriminate.
  - exists svc2. split; [reflexivity | exact Hnone].
Defined.

(** ** Groups and dispatchers *)

Section RolesFacts.

Import Roles.

Lemma fetch_group_id groups gid g :
  fetch_group groups gid = Some g -> group_id_of g = gid.
Proof.
  unfold fetch_group. intros H. apply find_elem in H as [_ H].
  apply Z.eqb_eq in H. exact H.
Qed.

Lemma refresh_result get_chat groups group groups1 g1 :
  refresh_group_pause get_chat groups group = Some (groups1, g1) ->
  paused g1 = false /\ settings_of g1 = settings_of group
  /\ ((groups1 = groups /\ g1 = group)
      \/ exists t, groups1 = Checks.update_where (by_group (group_id_of group))
                               (renamed t) groups
                   /\ g1 = renamed t group).
Proof.
  unfold refresh_group_pause. destruct (get_chat (group_id_of group)) as [chat|];
    simpl; [|discriminate].
  destruct (negb (String.eqb (str_or (chat_title chat) (group_title group))
                    (group_title group)) || paused group) eqn:Hcond.
  - intros [= <- <-]. repeat split. right. eexists. split; reflexivity.
  - intros [= <- <-]. apply orb_false_iff in Hcond as [_ Hp].
    repeat split; [exact Hp | left; split; reflexivity].
Qed.

(** X7. [refresh_group_pause], when the transport answers, never returns
    a paused group: the group that it returns has [paused = False] and
    every setting of the group it was given but the title.  When it was
    given the stored row of the group, the stored row afterwards is the
    group that it returns; the rows of the other groups are as they
    were. *)
Theorem refresh_never_paused get_chat groups group groups1 g1 :
  refresh_group_pause get_chat groups group = Some (groups1, g1) ->
  paused g1 = false
  /\ settings_of g1 = settings_of group
  /\ (fetch_group groups (group_id_of group) = Some group ->
      fetch_group groups1 (group_id_of group) = Some g1)
  /\ (forall gid, gid <> group_id_of group ->
      fetch_group groups1 gid = fetch_group groups gid).
Proof.
  intros Hrun.
  destruct (refresh_result _ _ _ _ _ Hrun) as (Hp & Hset & [[-> ->] | (t & -> & ->)]).
  - repeat split; auto.
  - split; [exact Hp|]. split; [exact Hset|]. unfold fetch_group. split.
    + intros Hfetch.
      rewrite (find_update_where (fun g => group_id_of g =? group_id_of group))
        by reflexivity.
      rewrite Hfetch. simpl. unfold by_group. rewrite Z.eqb_refl. reflexivity.
    + intros gid Hne.
      rewrite (find_update_where (fun g => group_id_of g =? gid)) by reflexivity.
      destruct (find (fun g => group_id_of g =? gid) groups) as [r|] eqn:Hr;
        [|reflexivity].
      simpl. apply find_elem in Hr as [_ Hr]. apply Z.eqb_eq in Hr.
      unfold by_group. destruct (Z.eqb_spec (group_id_of r) (group_id_of group));
        [congruence | reflexivity].
Qed.

(** X8. Whoever gets through [ensure_dispatcher_context] is in the saved
    rolling topic of the configured group of the chat, is known to the
    transport as a member that has neither left nor been kicked, and is an
    administrator or the creator when admin rights are required; the group
    that is handed on is not paused.  A call that succeeds with admin
    rights required succeeds with the same result without them. *)
Theorem dispatcher_context_sound get_chat get_chat_member groups chat_id thread
    user require_admin groups1 g1 :
  ensure_dispatcher_context get_chat get_chat_member groups chat_id thread user
    require_admin = inr (groups1, g1) ->
  group_id_of g1 = chat_id
  /\ thread = Some (rolling_topic_id g1)
  /\ paused g1 = false
  /\ (exists status,
        get_chat_member chat_id user = Some status
        /\ status <> "left"%string /\ status <> "kicked"%string
        /\ (require_admin = true ->
            status = "administrator"%string \/ status = "creator"%string))
  /\ ensure_dispatcher_context get_chat get_chat_member groups chat_id thread
       user false = inr (groups1, g1).
Proof.
  unfold ensure_dispatcher_context.
  destruct (fetch_group groups chat_id) as [group|] eqn:Hgroup; [|discriminate].
  destruct (bool_decide (Some (rolling_topic_id group) = thread)) eqn:Hthread;
    simpl; [|discriminate].
  apply bool_decide_eq_true in Hthread.
  destruct (get_chat_member chat_id user) as [status|]; [|discriminate].
  unfold _validate_membership.
  destruct (str_in status ["left"; "kicked"]%string) eqn:Hgone; [discriminate|].
  destruct (require_admin
            && negb (str_in status ["administrator"; "creator"]%string))
    eqn:Hadmin; [discriminate|].
  destruct (refresh_group_pause get_chat groups group) as [[gs g]|] eqn:Hrun;
    [|discriminate].
  intros [= <- <-].
  destruct (refresh_result _ _ _ _ _ Hrun) as (Hp & Hset & _).
  unfold settings_of in Hset. injection Hset as Hid Htopic _ _ _ _ _ _.
  apply fetch_group_id in Hgroup.
  split; [congruence|]. split; [rewrite Htopic; symmetry; exact Hthread|].
  split; [exact Hp|]. split; [|reflexivity].
  exists status. split; [reflexivity|].
  unfold str_in in Hgone, Hadmin. simpl in Hgone, Hadmin.
  rewrite orb_false_r in Hgone. apply orb_false_iff in Hgone as [H1 H2].
  apply String.eqb_neq in H1, H2. split; [exact H1|]. split; [exact H2|].
  intros ->. simpl in Hadmin. apply negb_false_iff in Hadmin.
  rewrite orb_false_r in Hadmin. apply orb_true_iff in Hadmin.
  destruct Hadmin as [H | H]; apply String.eqb_eq in H; auto.
Qed.

End RolesFacts.

(** The paused group under an unchanged title comes back unpaused, in
    the table as well. *)
Lemma refresh_never_paused_witness :
  exists groups1 g1,
    Roles.refresh_group_pause dispatch_chat [paused_group] paused_group
    = Some (groups1, g1)
    /\ Roles.paused g1 = false
    /\ Roles.fetch_group groups1 100 = Some g1.
Proof.
  destruct (Roles.refresh_group_pause dispatch_chat [paused_group] paused_group)
    as [[groups1 g1]|] eqn:Hrun; [|discriminate Hrun].
  destruct (refresh_never_paused _ _ _ _ _ Hrun) as (Hp & _ & Hstored & _).
  exists groups1, g1. split; [reflexivity|]. split; [exact Hp|].
  apply Hstored. reflexivity.
Defined.

(** An administrator in topic 5 of the sample group gets through, with
    and without admin rights required. *)
Lemma dispatcher_context_sound_witness :
  exists groups1 g1,
    Roles.ensure_dispatcher_context dispatch_chat
      (fun _ _ => Some "administrator"%string) [sample_group] 100 (Some 5) 9 false
    = inr (groups1, g1)
    /\ Roles.paused g1 = false.
Proof.
  destruct (Roles.ensure_dispatcher_context dispatch_chat
              (fun _ _ => Some "administrator"%string) [sample_group] 100
              (Some 5) 9 true) as [e|[groups1 g1]] eqn:Hrun;
    [discriminate Hrun|].
  destruct (dispatcher_context_sound _ _ _ _ _ _ _ _ _ Hrun)
    as (_ & _ & Hp & _ & Hweak).
  exists groups1, g1. split; [exact Hweak | exact Hp].
Defined.

(** ** The cron jobs of a group *)

Section CronFacts.

Import Roles Autosend.

Lemma schedule_union store g :
  _schedule_group store g = _schedule_group ∅ g ∪ store.
Proof.
  unfold _schedule_group. cbv zeta.
  destruct (autosend_time g) as [t|], (autosend_enabled g),
    (truthy_int (compliance_topic_id g));
    rewrite <- ?insert_union_l, (left_id_L ∅ (∪)); reflexivity.
Qed.

Lemma schedule_fresh g kind gid1 j :
  _schedule_group ∅ g !! (kind, gid1) = Some j ->
  gid1 = group_id_of g /\ kind ∈ GROUP_JOB_KINDS.
Proof.
  unfold _schedule_group, _job_id, GROUP_JOB_KINDS. cbv zeta.
  destruct (autosend_time g) as [t|], (autosend_enabled g),
    (truthy_int (compliance_topic_id g));
    intros H;
    repeat (apply lookup_insert_Some in H as [[H _] | [_ H]];
            [injection H as <- <-; split; [reflexivity|];
             repeat first [apply list_elem_of_here | apply list_elem_of_further]
            |]);
    rewrite lookup_empty in H; discriminate H.
Qed.

Lemma remove_lookup store gid kind gid1 :
  _remove_group_jobs store gid !! (kind, gid1)
  = if bool_decide (gid1 = gid /\ kind ∈ GROUP_JOB_KINDS) then None
    else store !! (kind, gid1).
Proof.
  destruct (bool_decide (gid1 = gid /\ kind ∈ GROUP_JOB_KINDS)) eqn:Hd;
    unfold _remove_group_jobs, GROUP_JOB_KINDS, _job_id; simpl.
  - apply bool_decide_eq_true in Hd as [-> Hkind].
    unfold GROUP_JOB_KINDS in Hkind.
    repeat (apply elem_of_cons in Hkind as [-> | Hkind];
            [repeat first [apply lookup_delete_eq
                          | rewrite lookup_delete_ne by discriminate]|]).
    inversion Hkind.
  - apply bool_decide_eq_false in Hd.
    rewrite !lookup_delete_ne; [reflexivity | | | | |];
      intros [= <- <-]; apply Hd; (split; [reflexivity|]);
      unfold GROUP_JOB_KINDS;
      repeat first [apply list_elem_of_here | apply list_elem_of_further].
Qed.

Lemma refresh_lookup store groups gid kind gid1 :
  cron_kinds_ok store ->
  refresh_group store groups gid !! (kind, gid1)
  = if bool_decide (gid1 = gid)
    then g ← fetch_group groups gid; _schedule_group ∅ g !! (kind, gid)
    else store !! (kind, gid1).
Proof.
  intros Hkinds.
  assert (Hgone : _remove_group_jobs store gid !! (kind, gid) = None).
  { rewrite remove_lookup. destruct (bool_decide (gid = gid /\ kind ∈ GROUP_JOB_KINDS))
      eqn:Hd; [reflexivity|].
    apply bool_decide_eq_false in Hd.
    destruct (store !! (kind, gid)) as [j|] eqn:Hj; [|reflexivity].
    exfalso. apply Hd. split; [reflexivity|].
    apply (Hkinds kind gid). eexists. exact Hj. }
  unfold refresh_group.
  destruct (bool_decide (gid1 = gid)) eqn:Hg.
  - apply bool_decide_eq_true in Hg. subst gid1.
    destruct (fetch_group groups gid) as [g|]; simpl; [|exact Hgone].
    rewrite schedule_union. apply lookup_union_l, Hgone.
  - apply bool_decide_eq_false in Hg.
    assert (Hkeep : _remove_group_jobs store gid !! (kind, gid1)
                    = store !! (kind, gid1)).
    { rewrite remove_lookup. rewrite bool_decide_eq_false_2; [reflexivity|].
      intros [? _]. contradiction. }
    destruct (fetch_group groups gid) as [g|] eqn:Hfetch; [|exact Hkeep].
    rewrite schedule_union, lookup_union_r; [exact Hkeep|].
    destruct (_schedule_group ∅ g !! (kind, gid1)) as [j|] eqn:Hj; [|reflexivity].
    apply schedule_fresh in Hj as [Hj _]. apply fetch_group_id in Hfetch.
    congruence.
Qed.

Lemma refresh_kinds_ok store groups gid :
  cron_kinds_ok store -> cron_kinds_ok (refresh_group store groups gid).
Proof.
  intros Hkinds kind gid1 [j Hj]. rewrite refresh_lookup in Hj by exact Hkinds.
  destruct (bool_decide (gid1 = gid)).
  - destruct (fetch_group groups gid) as [g|]; simpl in Hj; [|discriminate].
    apply schedule_fresh in Hj as [_ Hj]. exact Hj.
  - apply (Hkinds kind gid1). eexists. exact Hj.
Qed.

(** X9. [refresh_group] leaves a group with exactly the cron jobs that
    [_schedule_group] gives the stored settings of the group on an empty
    store, and with none when the group is not stored: no job of an
    earlier setting survives.  So the group has an autosend job exactly
    when autosend is enabled and has a time, and a compliance job exactly
    when it has a compliance topic.  The jobs of the other groups are as
    they were, and a second refresh changes nothing. *)
Theorem refresh_group_jobs store groups gid :
  cron_kinds_ok store ->
  (forall kind,
     refresh_group store groups gid !! (kind, gid)
     = g ← fetch_group groups gid; _schedule_group ∅ g !! (kind, gid))
  /\ (is_Some (refresh_group store groups gid !! ("autosend"%string, gid))
      <-> exists g, fetch_group groups gid = Some g
                    /\ autosend_enabled g = true /\ is_Some (autosend_time g))
  /\ (is_Some (refresh_group store groups gid !! ("compliance"%string, gid))
      <-> exists g, fetch_group groups gid = Some g
                    /\ truthy_int (compliance_topic_id g) = true)
  /\ (forall kind gid1, gid1 <> gid ->
        refresh_group store groups gid !! (kind, gid1) = store !! (kind, gid1))
  /\ refresh_group (refresh_group store groups gid) groups gid
     = refresh_group store groups gid.
Proof.
  intros Hkinds.
  assert (Hown : forall kind,
             refresh_group store groups gid !! (kind, gid)
             = g ← fetch_group groups gid; _schedule_group ∅ g !! (kind, gid)).
  { intros kind. rewrite refresh_lookup by exact Hkinds.
    rewrite bool_decide_eq_true_2 by reflexivity. reflexivity. }
  split; [exact Hown|]. split; [|split; [|split]].
  - rewrite Hown. destruct (fetch_group groups gid) as [g|] eqn:Hfetch; simpl.
    + pose proof (fetch_group_id _ _ _ Hfetch) as Hid.
      unfold _schedule_group, _job_id. cbv zeta. rewrite Hid.
      destruct (autosend_time g) as [t|] eqn:Ht, (autosend_enabled g) eqn:He,
        (truthy_int (compliance_topic_id g));
        rewrite ?lookup_insert_eq, ?lookup_insert_ne, ?lookup_insert_eq,
          ?lookup_insert_ne, ?lookup_empty by discriminate;
        (split; [intros Hs | intros (g1 & [= <-] & He1 & Ht1)]);
        first [ destruct Hs; discriminate
              | congruence
              | rewrite Ht in Ht1; destruct Ht1; discriminate
              | exists g; rewrite He, Ht; repeat split; eauto
              | eauto ].
    + split; [intros [? ?]; discriminate | intros (g & ? & _); discriminate].
  - rewrite Hown. destruct (fetch_group groups gid) as [g|] eqn:Hfetch; simpl.
    + pose proof (fetch_group_id _ _ _ Hfetch) as Hid.
      unfold _schedule_group, _job_id. cbv zeta. rewrite Hid.
      destruct (autosend_time g) as [t|], (autosend_enabled g),
        (truthy_int (compliance_topic_id g)) eqn:Hc;
        rewrite ?lookup_insert_eq, ?lookup_insert_ne, ?lookup_insert_eq,
          ?lookup_insert_ne, ?lookup_empty by discriminate;
        (split; [intros Hs | intros (g1 & [= <-] & Hc1)]);
        first [ destruct Hs; discriminate
              | congruence
              | exists g; rewrite Hc; repeat split; eauto
              | eauto ].
    + split; [intros [? ?]; discriminate | intros (g & ? & _); discriminate].
  - intros kind gid1 Hne. rewrite refresh_lookup by exact Hkinds.
    rewrite bool_decide_eq_false_2 by exact Hne. reflexivity.
  - apply map_eq. intros [kind gid1].
    rewrite (refresh_lookup (refresh_group store groups gid))
      by (apply refresh_kinds_ok, Hkinds).
    destruct (bool_decide (gid1 = gid)) eqn:Hg; [|reflexivity].
    apply bool_decide_eq_true in Hg. subst gid1. symmetry. apply Hown.
Qed.

Lemma schedule_kinds_ok store g :
  cron_kinds_ok store -> cron_kinds_ok (_schedule_group store g).
Proof.
  intros Hkinds kind gid [j Hj]. rewrite schedule_union in Hj.
  apply lookup_union_Some_raw in Hj as [Hj | [_ Hj]].
  - apply schedule_fresh in Hj as [_ Hj]. exact Hj.
  - apply (Hkinds kind gid). eexists. exact Hj.
Qed.

Lemma initialize_kinds_ok store groups :
  cron_kinds_ok store -> cron_kinds_ok (initialize store groups).
Proof.
  unfold initialize. revert store.
  induction groups as [|g groups IH]; intros store Hkinds; simpl;
    [exact Hkinds | apply IH, schedule_kinds_ok, Hkinds].
Qed.

End CronFacts.

(** The jobs of the sample group were set up while autosend was on; the
    setting is switched off and the group refreshed: the autosend job is
    gone. *)
Lemma refresh_group_jobs_witness :
  ~ is_Some (Autosend.refresh_group
               (Autosend.initialize ∅ [sample_group]) [manual_group] 100
             !! ("autosend"%string, 100)).
Proof.
  intros Hjob.
  destruct (refresh_group_jobs (Autosend.initialize ∅ [sample_group])
              [manual_group] 100) as (_ & Hauto & _).
  - apply initialize_kinds_ok. intros kind gid [j Hj].
    rewrite lookup_empty in Hj. discriminate Hj.
  - apply Hauto in Hjob as (g & Hg & He & _).
    injection Hg as <-. discriminate He.
Defined.

(** ** The autosend job *)

Section AutosendJobFacts.

Import Roles Autosend.

Variable lower : string -> string.
Variable local_date : string -> datetime -> date.
Variable zones : Zones.
Variable media_conflict : Media -> list Media -> bool.

(** The row that [ensure_checkin] returns is the row of the driver and
    the day in the table; its notification time is that of the row that
    was there, if any. *)
Lemma ensure_stored db did gid day now :
  find (Checks.by_day did day)
    (Checks.daily_checkins (Checks.ensure_checkin db did gid day now).1)
  = Some (Checks.ensure_checkin db did gid day now).2
  /\ (sent_at (Checks.ensure_checkin db did gid day now).2 = None
      \/ exists row,
           find (Checks.by_day did day) (Checks.daily_checkins db) = Some row
           /\ sent_at (Checks.ensure_checkin db did gid day now).2 = sent_at row).
Proof.
  unfold Checks.ensure_checkin, Checks.upsert_checkin.
  destruct (find (Checks.by_day did day) (Checks.daily_checkins db)) as [c|]
    eqn:Hfind; simpl.
  - pose proof (find_elem _ _ _ Hfind) as [_ Hc]. split.
    + rewrite (find_update_where (Checks.by_day did day)) by reflexivity.
      rewrite Hfind. simpl. rewrite Hc. reflexivity.
    + right. exists c. split; reflexivity.
  - split; [|left; reflexivity].
    rewrite (find_app_none _ _ _ Hfind). simpl.
    unfold Checks.by_day at 1. simpl. rewrite !Z.eqb_refl. reflexivity.
Qed.

Lemma reset_stored db id now db2 c2 (p : Checkin -> bool) r :
  Checks.reset_checkin db id now = Some (db2, c2) ->
  (forall x, p (Checks.reset_row now x) = p x) ->
  find p (Checks.daily_checkins db) = Some r -> checkin_id_of r = id ->
  find p (Checks.daily_checkins db2) = Some (Checks.reset_row now r)
  /\ checkin_id_of c2 = id.
Proof.
  unfold Checks.reset_checkin, Checks.returning. intros Hrun Hp Hfind Hid.
  destruct (find (Checks.by_id id) (Checks.daily_checkins db)) as [x|] eqn:Hx;
    [|discriminate].
  simpl in Hrun. injection Hrun as <- <-. simpl.
  apply find_elem in Hx as [_ Hx]. apply by_id_key in Hx. split; [|exact Hx].
  rewrite (find_update_where p) by exact Hp. rewrite Hfind. simpl.
  assert (Hself : Checks.by_id id r = true) by (apply by_id_key; exact Hid).
  rewrite Hself. reflexivity.
Qed.

Lemma mark_stored db id now db3 c3 (p : Checkin -> bool) r :
  Checks.mark_notified db id now = Some (db3, c3) ->
  (forall x, p (Checks.notified_row now x) = p x) ->
  find p (Checks.daily_checkins db) = Some r -> checkin_id_of r = id ->
  find p (Checks.daily_checkins db3) = Some (Checks.notified_row now r)
  /\ checkin_id_of c3 = id.
Proof.
  unfold Checks.mark_notified, Checks.returning. intros Hrun Hp Hfind Hid.
  destruct (find (Checks.by_id id) (Checks.daily_checkins db)) as [x|] eqn:Hx;
    [|discriminate].
  simpl in Hrun. injection Hrun as <- <-. simpl.
  apply find_elem in Hx as [_ Hx]. apply by_id_key in Hx. split; [|exact Hx].
  rewrite (find_update_where p) by exact Hp. rewrite Hfind. simpl.
  assert (Hself : Checks.by_id id r = true) by (apply by_id_key; exact Hid).
  rewrite Hself. reflexivity.
Qed.

(** A day that was notified today is passed over. *)
Lemma autosend_skips w group today now svc db d row t :
  find (Checks.by_day (driver_id_of d) today) (Checks.daily_checkins db)
  = Some row ->
  sent_at row = Some t -> local_date (tz group) t = today ->
  exists db2,
    autosend_driver lower local_date zones w group today now svc db d = (svc, db2, []).
Proof.
  intros Hfind Hsent Hday. unfold autosend_driver.
  destruct (truthy_int (notify_chat_id d)
            && match get_chat w (default 0 (notify_chat_id d)) with
               | Some chat => is_driver_chat_paused lower (Some chat)
               | None => false
               end); [eexists; reflexivity|].
  unfold Checks.ensure_checkin, Checks.upsert_checkin. rewrite Hfind.
  cbn [sent_at Checks.touch_row]. rewrite Hsent, Hday, Z.eqb_refl.
  eexists. reflexivity.
Qed.

Lemma autosend_marks w group today now svc db d svc1 db1 out1 :
  notified_today_only local_date group d today db ->
  autosend_driver lower local_date zones w group today now svc db d
  = (svc1, db1, out1) ->
  out1 <> [] ->
  exists row,
    find (Checks.by_day (driver_id_of d) today) (Checks.daily_checkins db1)
    = Some row
    /\ sent_at row = Some now.
Proof.
  intros Hfresh Hrun Hout. unfold autosend_driver in Hrun.
  assert (Hno : forall (s : SchedulerService) (b : Checks.DB),
             (s, b, @nil sent) = (svc1, db1, out1) -> False)
    by (intros s b [= _ _ <-]; apply Hout; reflexivity).
  destruct (truthy_int (notify_chat_id d)
            && match get_chat w (default 0 (notify_chat_id d)) with
               | Some chat => is_driver_chat_paused lower (Some chat)
               | None => false
               end); [destruct (Hno _ _ Hrun)|].
  pose proof (ensure_stored db (driver_id_of d) (group_id_of group) today now)
    as [Hstored Hsent].
  destruct (Checks.ensure_checkin db (driver_id_of d) (group_id_of group) today now)
    as [db0 checkin]. simpl in Hstored, Hsent.
  destruct (match sent_at checkin with
            | Some t => local_date (tz group) t =? today
            | None => false
            end) eqn:Hcheck; [destruct (Hno _ _ Hrun)|].
  assert (Hnone : sent_at checkin = None).
  { destruct (sent_at checkin) as [t|] eqn:Ht; [|reflexivity].
    destruct Hsent as [Hsent | (row & Hrow & Hsent)]; [discriminate|].
    rewrite (Hfresh row t Hrow (eq_sym Hsent)), Z.eqb_refl in Hcheck.
    discriminate. }
  assert (Hready : exists db2 c2 r2,
             (if (0 <? media_count checkin)
                 || negb (str_in (status checkin) ["pending"; "submitted"]%string)
              then Checks.reset_checkin db0 (checkin_id_of checkin) now
              else Some (db0, checkin)) = Some (db2, c2)
             /\ find (Checks.by_day (driver_id_of d) today)
                  (Checks.daily_checkins db2) = Some r2
             /\ checkin_id_of r2 = checkin_id_of c2 /\ sent_at r2 = None).
  { destruct ((0 <? media_count checkin)
              || negb (str_in (status checkin) ["pending"; "submitted"]%string)).
    - destruct (Checks.reset_checkin db0 (checkin_id_of checkin) now)
        as [[db2 c2]|] eqn:Hreset; [|destruct (Hno _ _ Hrun)].
      destruct (reset_stored _ _ _ _ _ (Checks.by_day (driver_id_of d) today)
                  checkin Hreset) as [Hfind Hid];
        [reflexivity | exact Hstored | reflexivity |].
      exists db2, c2, (Checks.reset_row now checkin).
      repeat split; [exact Hfind | simpl; congruence].
    - exists db0, checkin, checkin. repeat split; assumption. }
  destruct Hready as (db2 & c2 & r2 & Hstep & Hfind2 & Hid2 & Hsent2).
  rewrite Hstep in Hrun.
  destruct (Checks.mark_notified db2 (checkin_id_of c2) now) as [[db3 c3]|]
    eqn:Hmark; [|destruct (Hno _ _ Hrun)].
  destruct (mark_stored _ _ _ _ _ (Checks.by_day (driver_id_of d) today) r2 Hmark)
    as [Hfind3 _]; [reflexivity | exact Hfind2 | exact Hid2 |].
  assert (Hdone : exists row,
             find (Checks.by_day (driver_id_of d) today) (Checks.daily_checkins db3)
             = Some row /\ sent_at row = Some now).
  { eexists. split; [exact Hfind3|]. simpl. rewrite Hsent2. reflexivity. }
  destruct (negb (delivers w (DriverNotification (target_chat None d)
                                (checkin_id_of c3) today)));
    [destruct (Hno _ _ Hrun)|].
  destruct (negb (delivers w (ReplyPrompt (target_chat None d))));
    [injection Hrun as _ <- _; exact Hdone|].
  destruct (sync_card w c3) as [[mid|]|];
    injection Hrun as _ <- _; try exact Hdone.
  destruct Hdone as (row & Hrow & Hsent3). simpl.
  rewrite (find_update_where (Checks.by_day (driver_id_of d) today))
    by reflexivity.
  rewrite Hrow. simpl. eexists. split; [reflexivity|].
  destruct (Checks.by_id (checkin_id_of c3) row); exact Hsent3.
Qed.

Lemma find_app_some {A} (p : A -> bool) (l l' : list A) r :
  find p l = Some r -> find p (l ++ l') = Some r.
Proof.
  induction l as [|x l IH]; simpl; [discriminate|].
  destruct (p x); [intros H; exact H | exact IH].
Qed.

Lemma notice_updated group d today c db db1 (q : Checkin -> bool) f :
  Checks.daily_checkins db1 = Checks.update_where q f (Checks.daily_checkins db) ->
  keeps_notice f ->
  notified_today local_date group d today c db ->
  notified_today local_date group d today c db1.
Proof.
  intros Hrows Hf (row & t & Hfind & Hid & Hsent & Hday).
  unfold notified_today. rewrite Hrows.
  rewrite (find_update_where (Checks.by_day (driver_id_of d) today))
    by (intros r; unfold Checks.by_day; destruct (Hf r) as (_ & -> & -> & _);
        reflexivity).
  rewrite Hfind. simpl. exists (if q row then f row else row), t.
  split; [reflexivity|].
  destruct (q row); [|repeat split; assumption].
  destruct (Hf row) as (Hi & _ & _ & Hs).
  rewrite Hi. repeat split; [exact Hid | apply Hs, Hsent | exact Hday].
Qed.

Lemma notice_appended group d today c db db1 x :
  Checks.daily_checkins db1 = Checks.daily_checkins db ++ [x] ->
  notified_today local_date group d today c db ->
  notified_today local_date group d today c db1.
Proof.
  intros Hrows (row & t & Hfind & Hrest). exists row, t.
  rewrite Hrows. split; [apply find_app_some, Hfind | exact Hrest].
Qed.

Lemma notice_not_reset group d today c db db1 id now :
  Checks.daily_checkins db1
  = Checks.update_where (Checks.by_id id) (Checks.reset_row now)
      (Checks.daily_checkins db) ->
  id <> c ->
  notified_today local_date group d today c db ->
  notified_today local_date group d today c db1.
Proof.
  intros Hrows Hne (row & t & Hfind & Hid & Hsent & Hday).
  unfold notified_today. rewrite Hrows.
  rewrite (find_update_where (Checks.by_day (driver_id_of d) today))
    by reflexivity.
  rewrite Hfind. simpl. exists row, t.
  assert (Hother : Checks.by_id id row = false).
  { unfold Checks.by_id. apply Z.eqb_neq. congruence. }
  rewrite Hother. repeat split; assumption.
Qed.

Lemma notice_upsert group d today c db did gid day now :
  notified_today local_date group d today c db ->
  notified_today local_date group d today c
    (Checks.upsert_checkin db did gid day now).1.
Proof.
  intros Hn. unfold Checks.upsert_checkin.
  destruct (find (Checks.by_day did day) (Checks.daily_checkins db)); simpl.
  - eapply notice_updated; [reflexivity | | exact Hn].
    intros x. repeat split. intros t Ht. exact Ht.
  - eapply notice_appended; [reflexivity | exact Hn].
Qed.

Ltac notice_kept Hn :=
  eapply notice_updated; [reflexivity | | exact Hn];
  intros ?; repeat split; intros ? Hsome; simpl; rewrite ?Hsome; reflexivity.

(** No write of the ledger but a reset of the check-in takes the
    notification time away. *)
Lemma step_notice group d today c db o :
  spares (Some c) (Written o) ->
  notified_today local_date group d today c db ->
  notified_today local_date group d today c (Checks.step media_conflict db o).
Proof.
  intros Hspare Hn. destruct o; simpl.
  - apply notice_upsert, Hn.
  - unfold Checks.mark_notified, Checks.returning.
    destruct (find (Checks.by_id id) (Checks.daily_checkins db)); simpl;
      [|exact Hn].
    notice_kept Hn.
  - unfold Checks.reset_checkin, Checks.returning.
    destruct (find (Checks.by_id id) (Checks.daily_checkins db)); simpl;
      [|exact Hn].
    eapply notice_not_reset; [reflexivity | | exact Hn].
    simpl in Hspare. congruence.
  - unfold Checks.record_media, Checks.returning.
    pose proof (notice_upsert group d today c db did gid day now Hn) as Hn1.
    destruct (Checks.upsert_checkin db did gid day now) as [db1 x].
    simpl in Hn1.
    destruct (find (Checks.by_id (checkin_id_of x)) (Checks.daily_checkins db1));
      simpl; [|exact Hn].
    notice_kept Hn1.
  - notice_kept Hn.
  - notice_kept Hn.
  - unfold Checks.set_excused, Checks.returning.
    destruct (find (Checks.by_group_day did gid day) (Checks.daily_checkins db));
      simpl.
    + notice_kept Hn.
    + destruct (find (Checks.by_day did day) (Checks.daily_checkins db)); simpl;
        [exact Hn|].
      eapply notice_appended; [reflexivity | exact Hn].
  - unfold Checks.update_review_status, Checks.returning.
    destruct (find (Checks.by_group_day did gid day) (Checks.daily_checkins db));
      simpl; [|exact Hn].
    notice_kept Hn.
  - unfold Checks.reopen_checkin, Checks.returning.
    destruct (find (Checks.by_group_day did gid day) (Checks.daily_checkins db));
      simpl; [|exact Hn].
    notice_kept Hn.
Qed.

Lemma run_ok db ops :
  Checks.checkins_ok db -> Checks.checkins_ok (Checks.run media_conflict db ops).
Proof.
  unfold Checks.run. revert db.
  induction ops as [|o ops IH]; intros db Hok; simpl; [exact Hok|].
  apply IH, step_ok, Hok.
Qed.

Lemma run_notice group d today c db ops :
  Forall (fun o => spares (Some c) (Written o)) ops ->
  notified_today local_date group d today c db ->
  notified_today local_date group d today c (Checks.run media_conflict db ops).
Proof.
  unfold Checks.run. revert db.
  induction ops as [|o ops IH]; intros db Hops Hn; simpl; [exact Hn|].
  apply Forall_cons in Hops as [Ho Hops].
  apply IH; [exact Hops | apply step_notice; assumption].
Qed.

(** What the body of the job writes for a driver: nothing, or the writes
    of [ensure_checkin] and then, when the check-in does not carry a
    notification time of the day, of [reset_checkin] on that check-in,
    [mark_notified] and [set_review_message], as far as it gets. *)
Lemma autosend_ledger w group today now svc db d :
  (autosend_driver lower local_date zones w group today now svc db d).1.2 = db
  \/ exists ops,
       (autosend_driver lower local_date zones w group today now svc db d).1.2
       = Checks.run media_conflict db
           (Checks.Ensure (driver_id_of d) (group_id_of group) today now :: ops)
       /\ (ops = []
           \/ match sent_at (Checks.ensure_checkin db (driver_id_of d)
                               (group_id_of group) today now).2 with
              | Some t => local_date (tz group) t =? today
              | None => false
              end = false
              /\ Forall (fun o =>
                           match o with
                           | Checks.Reset id _ =>
                               id = checkin_id_of
                                      (Checks.ensure_checkin db (driver_id_of d)
                                         (group_id_of group) today now).2
                           | _ => True
                           end) ops).
Proof.
  unfold autosend_driver.
  destruct (truthy_int (notify_chat_id d)
            && match get_chat w (default 0 (notify_chat_id d)) with
               | Some chat => is_driver_chat_paused lower (Some chat)
               | None => false
               end); [left; reflexivity|].
  right. unfold Checks.run. cbn [foldl Checks.step].
  destruct (Checks.ensure_checkin db (driver_id_of d) (group_id_of group) today now)
    as [db0 checkin]. cbn [fst snd].
  destruct (match sent_at checkin with
            | Some t => local_date (tz group) t =? today
            | None => false
            end) eqn:Hcheck;
    [exists []; split; [reflexivity | left; reflexivity]|].
  assert (Hmark : forall svc1 dbr (cr : Checkin) (pre : list Checks.op),
             foldl (Checks.step media_conflict) db0 pre = dbr ->
             Forall (fun o => match o with
                              | Checks.Reset id _ => id = checkin_id_of checkin
                              | _ => True
                              end) pre ->
             exists ops,
               (match Checks.mark_notified dbr (checkin_id_of cr) now with
                | None => (svc1, dbr, [])
                | Some (db3, checkin3) =>
                    let target := target_chat None d in
                    let m1 := DriverNotification target (checkin_id_of checkin3)
                                today in
                    let m2 := ReplyPrompt target in
                    if negb (delivers w m1) then (svc1, db3, [])
                    else if negb (delivers w m2) then (svc1, db3, [m1])
                    else
                      match sync_card w checkin3 with
                      | None => (svc1, db3, [m1; m2])
                      | Some card =>
                          let db4 :=
                            match card with
                            | Some mid =>
                                Checks.set_review_message db3
                                  (checkin_id_of checkin3) mid now
                            | None => db3
                            end in
                          (schedule_followups zones svc1 (checkin_id_of checkin3)
                             group d target now,
                           db4, [m1; m2])
                      end
                end).1.2
               = foldl (Checks.step media_conflict) db0 ops
               /\ (ops = []
                   \/ false = false
                      /\ Forall (fun o => match o with
                                          | Checks.Reset id _ =>
                                              id = checkin_id_of checkin
                                          | _ => True
                                          end) ops)).
  { intros svc1 dbr cr pre Hpre Hfor.
    destruct (Checks.mark_notified dbr (checkin_id_of cr) now) as [[db3 c3]|]
      eqn:Hm.
    - assert (H3 : foldl (Checks.step media_conflict) db0
                     (pre ++ [Checks.MarkNotified (checkin_id_of cr) now]) = db3).
      { rewrite foldl_app, Hpre. simpl. rewrite Hm. reflexivity. }
      assert (Hfor3 : Forall (fun o => match o with
                                       | Checks.Reset id _ =>
                                           id = checkin_id_of checkin
                                       | _ => True
                                       end)
                        (pre ++ [Checks.MarkNotified (checkin_id_of cr) now])).
      { apply Forall_app. split; [exact Hfor|].
        apply Forall_cons. split; [exact I | apply Forall_nil; exact I]. }
      cbv zeta.
      destruct (negb (delivers w (DriverNotification (target_chat None d)
                                    (checkin_id_of c3) today)));
        [eexists; split; [symmetry; exact H3 | right; split; [reflexivity | exact Hfor3]]|].
      destruct (negb (delivers w (ReplyPrompt (target_chat None d))));
        [eexists; split; [symmetry; exact H3 | right; split; [reflexivity | exact Hfor3]]|].
      destruct (sync_card w c3) as [[mid|]|];
        try (eexists; split;
             [symmetry; exact H3 | right; split; [reflexivity | exact Hfor3]]).
      exists ((pre ++ [Checks.MarkNotified (checkin_id_of cr) now])
              ++ [Checks.SetReviewMessage (checkin_id_of c3) mid now]).
      split; [rewrite foldl_app, H3; reflexivity|].
      right. split; [reflexivity|]. apply Forall_app. split; [exact Hfor3|].
      apply Forall_cons. split; [exact I | apply Forall_nil; exact I].
    - exists pre. split; [symmetry; exact Hpre|].
      right. split; [reflexivity | exact Hfor]. }
  destruct ((0 <? media_count checkin)
            || negb (str_in (status checkin) ["pending"; "submitted"]%string)).
  - destruct (Checks.reset_checkin db0 (checkin_id_of checkin) now)
      as [[db2 c2]|] eqn:Hreset.
    + apply (Hmark _ db2 c2 [Checks.Reset (checkin_id_of checkin) now]).
      * simpl. rewrite Hreset. reflexivity.
      * apply Forall_cons. split; [reflexivity | apply Forall_nil; exact I].
    + exists []. split; [reflexivity | left; reflexivity].
  - apply (Hmark _ db0 checkin []); [reflexivity | apply Forall_nil; exact I].
Qed.

Lemma autosend_ok w group today now svc db d :
  Checks.checkins_ok db ->
  Checks.checkins_ok
    (autosend_driver lower local_date zones w group today now svc db d).1.2.
Proof.
  intros Hok.
  destruct (autosend_ledger w group today now svc db d) as [-> | (ops & -> & _)];
    [exact Hok | apply run_ok, Hok].
Qed.

(** The body of the job, for whatever driver, leaves the notification
    time of a check-in that carries one of the day. *)
Lemma autosend_notice w group today now svc db d d2 c :
  Checks.checkins_ok db ->
  notified_today local_date group d today c db ->
  notified_today local_date group d today c
    (autosend_driver lower local_date zones w group today now svc db d2).1.2.
Proof.
  intros Hok Hn.
  destruct (autosend_ledger w group today now svc db d2)
    as [-> | (ops & -> & Hops)]; [exact Hn|].
  apply run_notice; [|exact Hn].
  apply Forall_cons. split; [exact I|].
  destruct Hops as [-> | [Hcheck Hops]]; [apply Forall_nil; exact I|].
  pose proof (ensure_stored db (driver_id_of d2) (group_id_of group) today now)
    as [Hstored _].
  pose proof (upsert_checkin_ok db (driver_id_of d2) (group_id_of group) today
                now Hok) as Hok0.
  pose proof (notice_upsert group d today c db (driver_id_of d2)
                (group_id_of group) today now Hn)
    as (row & t & Hrow & Hid & Hsent & Hday).
  unfold Checks.ensure_checkin in *.
  destruct (Checks.upsert_checkin db (driver_id_of d2) (group_id_of group) today now)
    as [db0 checkin]. simpl in *.
  eapply Forall_impl; [exact Hops|]. intros o Ho.
  destruct o as [| |id0 n0| | | | | |]; try exact I. simpl. intros [= Hc].
  apply find_elem in Hstored as [Hin1 _]. apply find_elem in Hrow as [Hin2 _].
  destruct Hok0 as (Hids & _ & _).
  pose proof (find_by_id _ _ Hids Hin1) as H1.
  pose proof (find_by_id _ _ Hids Hin2) as H2.
  assert (Heq : checkin_id_of row = checkin_id_of checkin) by congruence.
  rewrite Heq, H1 in H2. injection H2 as Hrc.
  rewrite Hrc, Hsent, Hday, Z.eqb_refl in Hcheck. discriminate.
Qed.

Lemma later_kept group today d c events db :
  Forall (spares (Some c)) events ->
  Checks.checkins_ok db ->
  notified_today local_date group d today c db ->
  Checks.checkins_ok
    (later_db lower local_date zones media_conflict group today db events)
  /\ notified_today local_date group d today c
       (later_db lower local_date zones media_conflict group today db events).
Proof.
  unfold later_db. revert db.
  induction events as [|e events IH]; intros db Hspare Hok Hn; simpl;
    [split; assumption|].
  apply Forall_cons in Hspare as [He Hspare].
  apply IH; [exact Hspare | |]; destruct e as [o | w svc now d2]; simpl.
  - apply step_ok, Hok.
  - apply autosend_ok, Hok.
  - apply step_notice; assumption.
  - apply autosend_notice; assumption.
Qed.

(** X10. The autosend job does not notify a driver twice on one day.
    When its body for a driver has sent something, the row of the driver
    and the day carries the time of that run as its notification time,
    and a later run on the same day, in whatever state the transport and
    the scheduler are, sends nothing for the driver and leaves the
    scheduler as it is.  So does every run after that, however many
    there are and whatever was written to the ledger in between, by the
    job for the group and the day on any driver or by any other write,
    as long as no [reset_checkin] was run on the check-in of the driver
    and the day: that one clears the notification time, and the next run
    notifies again.  This needs the notification time that the row had
    before the first run, if it had one, to be of the day: [mark_notified]
    keeps a time that is there. *)
Theorem autosend_once_a_day w w2 group today now now2 svc svc2 db d svc1 db1 out1 :
  local_date (tz group) now = today ->
  notified_today_only local_date group d today db ->
  autosend_driver lower local_date zones w group today now svc db d
  = (svc1, db1, out1) ->
  out1 <> [] ->
  (exists row,
     find (Checks.by_day (driver_id_of d) today) (Checks.daily_checkins db1)
     = Some row
     /\ sent_at row = Some now)
  /\ (exists db2,
        autosend_driver lower local_date zones w2 group today now2 svc2 db1 d
        = (svc2, db2, []))
  /\ (Checks.checkins_ok db ->
      forall events,
        Forall (spares (checkin_of db1 (driver_id_of d) today)) events ->
        forall w3 now3 svc3,
        exists db3,
          autosend_driver lower local_date zones w3 group today now3 svc3
            (later_db lower local_date zones media_conflict group today db1
               events) d
          = (svc3, db3, [])).
Proof.
  intros Hday Hfresh Hrun Hout.
  destruct (autosend_marks _ _ _ _ _ _ _ _ _ _ Hfresh Hrun Hout)
    as (row & Hrow & Hsent).
  split; [exists row; split; assumption|].
  split;
    [apply (autosend_skips w2 group today now2 svc2 db1 d row now Hrow Hsent Hday)|].
  intros Hok events Hspare w3 now3 svc3.
  assert (Hok1 : Checks.checkins_ok db1).
  { pose proof (autosend_ok w group today now svc db d Hok) as H.
    rewrite Hrun in H. exact H. }
  assert (Hn1 : notified_today local_date group d today (checkin_id_of row) db1)
    by (exists row, now; repeat split; assumption).
  unfold checkin_of in Hspare. rewrite Hrow in Hspare. simpl in Hspare.
  destruct (later_kept group today d (checkin_id_of row) events db1 Hspare Hok1 Hn1)
    as [_ (row3 & t3 & Hrow3 & _ & Hsent3 & Hday3)].
  apply (autosend_skips w3 group today now3 svc3 _ d row3 t3 Hrow3 Hsent3 Hday3).
Qed.

End AutosendJobFacts.

(** Day 42 of the sample driver: the first run of the morning sends the
    two messages, and a run five minutes later sends nothing.  Nor does a
    third run, after a photo of the driver has been recorded, the second
    run has passed, and the notice has been marked again. *)
Lemma autosend_once_a_day_witness :
  exists svc1 db1 out1 db2 db3,
    Autosend.autosend_driver ascii_lower (fun _ => utc_date) utc_zones quiet_world
      sample_group 42 3628900 Autosend.empty_service sample_db sample_driver
    = (svc1, db1, out1)
    /\ length out1 = 2%nat
    /\ Autosend.autosend_driver ascii_lower (fun _ => utc_date) utc_zones quiet_world
         sample_group 42 3629200 svc1 db1 sample_driver
       = (svc1, db2, [])
    /\ Autosend.autosend_driver ascii_lower (fun _ => utc_date) utc_zones quiet_world
         sample_group 42 3629800 svc1
         (later_db ascii_lower (fun _ => utc_date) utc_zones (fun _ _ => false)
            sample_group 42 db1
            [Written (Checks.RecordMedia 7 100 42 "photo" "f-9" None 3629000);
             Pass quiet_world svc1 3629200 sample_driver;
             Written (Checks.MarkNotified 2 3629500)])
         sample_driver
       = (svc1, db3, []).
Proof.
  destruct (Autosend.autosend_driver ascii_lower (fun _ => utc_date) utc_zones quiet_world
              sample_group 42 3628900 Autosend.empty_service sample_db
              sample_driver) as [[svc1 db1] out1] eqn:Hrun.
  assert (Hout : length out1 = 2%nat)
    by (vm_compute in Hrun; injection Hrun as _ _ <-; reflexivity).
  destruct (autosend_once_a_day ascii_lower (fun _ => utc_date) utc_zones
              (fun _ _ => false) quiet_world
              quiet_world sample_group 42 3628900 3629200
              Autosend.empty_service svc1 sample_db sample_driver svc1 db1 out1)
    as (_ & (db2 & Hagain) & Hlater).
  - reflexivity.
  - intros row t Hrow. vm_compute in Hrow. discriminate Hrow.
  - exact Hrun.
  - intros ->. discriminate Hout.
  - destruct (Hlater sample_db_ok
                [Written (Checks.RecordMedia 7 100 42 "photo" "f-9" None 3629000);
                 Pass quiet_world svc1 3629200 sample_driver;
                 Written (Checks.MarkNotified 2 3629500)])
      with (w3 := quiet_world) (now3 := 3629800) (svc3 := svc1)
      as (db3 & Hthird).
    + repeat (apply Forall_cons; split; [exact I|]). apply Forall_nil. exact I.
    + exists svc1, db1, out1, db2, db3. repeat split; assumption.
Defined.

(** ** The numbers of the hourly report *)

Section ReportFacts.

Import Compliance.

Variable lower : string -> string.
Variable date_of : datetime -> date.
Variable fetch_chat : Z -> option DriverChatInfo.

Lemma evaluate_status latest now d :
  entry_status (evaluate_entry lower date_of latest now d) = "compliant"%string
  \/ entry_status (evaluate_entry lower date_of latest now d) = "exception"%string
  \/ entry_status (evaluate_entry lower date_of latest now d)
     = "non_compliant"%string.
Proof.
  assert (Hd : forall c,
             (_evaluate_driver lower date_of d c now).1.1 = "compliant"%string
             \/ (_evaluate_driver lower date_of d c now).1.1 = "exception"%string
             \/ (_evaluate_driver lower date_of d c now).1.1
                = "non_compliant"%string).
  { intros c. unfold _evaluate_driver. destruct c as [c|];
      repeat match goal with
             | |- context [if ?b then _ else _] => destruct b
             end; simpl; auto. }
  unfold evaluate_entry. specialize (Hd (latest !! driver_id_of d)).
  destruct (_evaluate_driver lower date_of d (latest !! driver_id_of d) now)
    as [[st why] day]. exact Hd.
Qed.

Lemma reclassify_status m e :
  entry_status (reclassify lower m e)
  = if String.eqb (entry_status e) "non_compliant" && inactive_chat lower m e
    then "exception"%string else entry_status e.
Proof.
  unfold reclassify, inactive_chat.
  destruct (String.eqb (entry_status e) "non_compliant"); [|reflexivity].
  destruct (chat_info_of m e) as [info|]; [|reflexivity].
  destruct (_is_paused_chat lower (title info)); reflexivity.
Qed.

Lemma length_filter_cons {A} (P : A -> Prop) `{!forall x, Decision (P x)} x l :
  length (filter P (x :: l))
  = ((if decide (P x) then 1 else 0) + length (filter P l))%nat.
Proof. rewrite filter_cons. destruct (decide (P x)); reflexivity. Qed.

Lemma counts_split m (l : list ComplianceEntry) :
  Forall (fun e => entry_status e = "compliant"%string
                   \/ entry_status e = "exception"%string
                   \/ entry_status e = "non_compliant"%string) l ->
  length (filter (fun e => entry_status e = "non_compliant"%string)
            (reclassify lower m <$> l))
  = length (filter (fun e => inactive_chat lower m e = false)
              (filter (fun e => entry_status e = "non_compliant"%string) l))
  /\ (length (filter (fun e => entry_status e = "compliant"%string)
                (reclassify lower m <$> l))
      + length (filter (fun e => entry_status e = "exception"%string)
                  (reclassify lower m <$> l))
      + length (filter (fun e => entry_status e = "non_compliant"%string)
                  (reclassify lower m <$> l))
      = length l)%nat.
Proof.
  induction 1 as [|e l He _ [IH1 IH2]]; [split; reflexivity|].
  rewrite fmap_cons, list_filter_filter, !length_filter_cons.
  rewrite list_filter_filter in IH1. rewrite IH1 in *.
  rewrite !reclassify_status. simpl length.
  destruct He as [He | [He | He]]; rewrite !He; simpl;
    destruct (inactive_chat lower m e); simpl;
    repeat destruct (decide _); try discriminate; try tauto;
    try (exfalso; intuition congruence); split; lia.
Qed.

(** X11. The numbers of the summary of the hourly report add up.  Every
    active driver is counted once, as compliant, as pending or as an
    exception; the number behind the tick mark is the number of entries
    that are [compliant] when the summary is written, the number of pending
    drivers is the number of entries that are [non_compliant], and the
    denominator is the sum of the two.  Neither [max] ever clamps. *)
Theorem report_counts_add_up drivers latest now :
  let s := report_summary lower date_of fetch_chat drivers latest now in
  let entries := classify_all lower date_of fetch_chat drivers latest now in
  compliant_count s = compliant_total s
  /\ compliant_count s
     = Z.of_nat (length (filter (fun e => entry_status e = "compliant"%string)
                           entries))
  /\ pending_total s
     = Z.of_nat (length (filter (fun e => entry_status e = "non_compliant"%string)
                           entries))
  /\ exception_total s
     = Z.of_nat (length (filter (fun e => entry_status e = "exception"%string)
                           entries))
  /\ effective_total s = compliant_count s + pending_total s
  /\ compliant_count s + pending_total s + exception_total s
     = Z.of_nat (length drivers).
Proof.
  unfold report_summary, classify_all. cbv zeta. simpl.
  set (entries0 := evaluate_entry lower date_of latest now <$> drivers).
  set (m := _fetch_chat_info fetch_chat
              (filter (fun e => entry_status e = "non_compliant"%string) entries0)).
  assert (Hthree : Forall (fun e => entry_status e = "compliant"%string
                                    \/ entry_status e = "exception"%string
                                    \/ entry_status e = "non_compliant"%string)
                     entries0).
  { apply Forall_fmap, Forall_forall. intros d _. apply evaluate_status. }
  destruct (counts_split m entries0 Hthree) as [Hpending Hsum].
  assert (Hlen : length entries0 = length drivers) by apply length_fmap.
  rewrite <- Hpending. lia.
Qed.

End ReportFacts.

(** ** Comment prompts *)

Section PromptFacts.

Import Compliance.

Variable blank : ComplianceState.

Lemma store_prompt_row (tracking : gmap Z ComplianceState) did m :
  exists row,
    store_comment_prompt blank tracking did m = <[did := row]> tracking
    /\ last_comment_thread_id row = Some m
    /\ (forall old, tracking !! did = Some old -> counters_of row = counters_of old).
Proof.
  unfold store_comment_prompt. destruct (tracking !! did) as [old|].
  - eexists. split; [reflexivity|]. split; [reflexivity|].
    intros ? [= <-]. reflexivity.
  - eexists. split; [reflexivity|]. split; [reflexivity|]. discriminate.
Qed.

(** X12. A comment prompt that is stored for a driver is resolved to that
    driver, once: [resolve_comment_prompt] with the message of the prompt
    returns the driver and clears the prompt, and a second call with the
    same message returns nothing and changes nothing.  The counters and
    alert times of the driver are those from before the prompt, and the
    rows of the other drivers are untouched.  This needs that no other
    driver waits for the same message. *)
Theorem comment_prompt_round_trip (tracking : gmap Z ComplianceState) did m :
  prompt_free tracking did m ->
  exists t2,
    resolve_comment_prompt (store_comment_prompt blank tracking did m) m
    = (t2, Some did)
    /\ resolve_comment_prompt t2 m = (t2, None)
    /\ (exists s, t2 !! did = Some s /\ last_comment_thread_id s = None
                  /\ forall old, tracking !! did = Some old ->
                                 counters_of s = counters_of old)
    /\ (forall d, d <> did -> t2 !! d = tracking !! d).
Proof.
  intros Hfree.
  destruct (store_prompt_row tracking did m) as (row & -> & Hrow & Hold).
  assert (Hone : filter (fun kv : Z * ComplianceState =>
                           last_comment_thread_id kv.2 = Some m)
                        (<[did := row]> tracking)
                 = {[did := row]}).
  { apply map_eq. intros k. destruct (decide (k = did)) as [-> | Hk].
    - rewrite lookup_singleton_eq. apply map_lookup_filter_Some.
      split; [apply lookup_insert_eq | exact Hrow].
    - rewrite lookup_singleton_ne by congruence.
      apply map_lookup_filter_None. right. intros s Hs.
      rewrite lookup_insert_ne in Hs by congruence. simpl.
      apply (Hfree k s Hs Hk). }
  assert (Hnone : filter (fun kv : Z * ComplianceState =>
                            last_comment_thread_id kv.2 = Some m)
                         (alter (prompt_row None) did (<[did := row]> tracking))
                  = ∅).
  { apply map_eq. intros k. rewrite lookup_empty.
    apply map_lookup_filter_None. right. intros s Hs. simpl.
    destruct (decide (k = did)) as [-> | Hk].
    - rewrite lookup_alter_eq, lookup_insert_eq in Hs. injection Hs as <-.
      discriminate.
    - rewrite lookup_alter_ne, lookup_insert_ne in Hs by congruence.
      apply (Hfree k s Hs Hk). }
  exists (alter (prompt_row None) did (<[did := row]> tracking)).
  unfold resolve_comment_prompt. rewrite Hone, map_to_list_singleton, Hnone,
    map_to_list_empty.
  split; [reflexivity|]. split; [reflexivity|]. split.
  - exists (prompt_row None row). rewrite lookup_alter_eq, lookup_insert_eq.
    split; [reflexivity|]. split; [reflexivity|].
    intros old Hlook. rewrite <- (Hold old Hlook). reflexivity.
  - intros d Hd. rewrite lookup_alter_ne, lookup_insert_ne by congruence.
    reflexivity.
Qed.

End PromptFacts.

(** Driver 7 has one report on record; a prompt with message 55 is stored
    and resolved: the answer is driver 7, and the report is still there. *)
Lemma comment_prompt_round_trip_witness :
  exists t2 s,
    Compliance.resolve_comment_prompt
      (Compliance.store_comment_prompt (one_report 0 0) {[7 := one_report 7 0]}
         7 55) 55
    = (t2, Some 7)
    /\ t2 !! 7 = Some s /\ Compliance.consecutive_reports s = 1.
Proof.
  destruct (comment_prompt_round_trip (one_report 0 0) {[7 := one_report 7 0]}
              7 55) as (t2 & Hrun & _ & (s & Hs & _ & Hold) & _).
  - intros d s Hs Hd. rewrite lookup_singleton_ne in Hs by congruence.
    discriminate Hs.
  - exists t2, s. split; [exact Hrun|]. split; [exact Hs|].
    specialize (Hold _ (lookup_singleton_eq 7 (one_report 7 0))).
    unfold counters_of in Hold. injection Hold as -> _ _ _ _. reflexivity.
Defined.

(** ** The tracker over several ticks *)

Section TimelineFacts.

Import Compliance.

Lemma track_entry_other (tracking : gmap Z ComplianceState) now d st did :
  driver_id_of d <> did ->
  (track_entry tracking now d st).1.1 !! did = tracking !! did.
Proof.
  intros Hne. unfold track_entry, _upsert_state, _mark_driver_alert,
    _mark_dispatch_alert, _reset_state. simpl.
  repeat match goal with
         | |- context [if ?b then _ else _] => destruct b
         end; simpl;
    rewrite ?lookup_alter_ne, ?lookup_insert_ne by exact Hne; reflexivity.
Qed.

Lemma track_entries_app (tracking : gmap Z ComplianceState) now a b :
  track_entries tracking now (a ++ b)
  = ((track_entries (track_entries tracking now a).1 now b).1,
     (track_entries tracking now a).2
     ++ (track_entries (track_entries tracking now a).1 now b).2).
Proof.
  revert tracking. induction a as [|[d st] a IH]; intros tracking; simpl.
  - destruct (track_entries tracking now b); reflexivity.
  - destruct (track_entry tracking now d st) as [[t1 nudge] escalate].
    rewrite IH. destruct (track_entries t1 now a) as [t2 alerts]. simpl.
    destruct (track_entries t2 now b) as [t3 more]. simpl.
    rewrite <- !app_assoc. reflexivity.
Qed.

Lemma track_entries_others (tracking : gmap Z ComplianceState) now entries did k :
  Forall (fun e : Driver * string => driver_id_of e.1 <> did) entries ->
  (track_entries tracking now entries).1 !! did = tracking !! did
  /\ alert_times k did (track_entries tracking now entries).2 = [].
Proof.
  intros Hall. revert tracking.
  induction Hall as [|[d st] rest Hd _ IH]; intros tracking; simpl;
    [split; reflexivity|].
  pose proof (track_entry_other tracking now d st did Hd) as Hkeep.
  destruct (track_entry tracking now d st) as [[t1 nudge] escalate].
  simpl in Hkeep. destruct (IH t1) as [IHl IHa].
  destruct (track_entries t1 now rest) as [t2 alerts]. simpl in *.
  split; [congruence|].
  rewrite alert_times_entry, IHa.
  assert (Hz : (driver_id_of d =? did) = false) by (apply Z.eqb_neq; exact Hd).
  rewrite Hz, andb_false_r. reflexivity.
Qed.

Lemma upsert_row (tracking : gmap Z ComplianceState) did st now :
  (_upsert_state tracking did st now).1 !! did
  = Some (_upsert_state tracking did st now).2.
Proof. unfold _upsert_state. simpl. apply lookup_insert_eq. Qed.

Lemma upsert_streak (tracking : gmap Z ComplianceState) did now :
  consecutive_reports (_upsert_state tracking did "non_compliant" now).2
  = streak_of tracking did + 1
  /\ last_status (_upsert_state tracking did "non_compliant" now).2
     = Some "non_compliant"%string.
Proof.
  unfold _upsert_state, streak_of.
  destruct (tracking !! did) as [old|]; simpl; [|split; reflexivity].
  destruct (bool_decide (last_status old = Some "non_compliant"%string));
    split; reflexivity.
Qed.

Lemma should_alert_driver_first state now :
  last_driver_alert_at state = None ->
  _should_alert_driver state now = (2 <=? consecutive_reports state).
Proof.
  intros Hlast. unfold _should_alert_driver. rewrite Hlast.
  destruct (Z.ltb_spec (consecutive_reports state) 2),
    (Z.leb_spec 2 (consecutive_reports state)); first [reflexivity | lia].
Qed.

Lemma should_alert_dispatch_first state now :
  last_dispatch_alert_at state = None ->
  _should_alert_dispatch state now = (3 <=? consecutive_reports state).
Proof.
  intros Hlast. unfold _should_alert_dispatch. rewrite Hlast.
  destruct (Z.ltb_spec (consecutive_reports state) 3),
    (Z.leb_spec 3 (consecutive_reports state)); first [reflexivity | lia].
Qed.

(** The entry of the driver: the counter is one more than the stored
    streak, and with no alert of a kind on record the alert is decided by
    the counter, and by the linked chat for the nudge. *)
Lemma track_entry_self (tracking : gmap Z ComplianceState) now d :
  streak_of (track_entry tracking now d "non_compliant").1.1 (driver_id_of d)
  = streak_of tracking (driver_id_of d) + 1
  /\ (last_alert_of DriverAlert tracking (driver_id_of d) = None ->
      (track_entry tracking now d "non_compliant").1.2
      = truthy_int (notify_chat_id d)
        && (2 <=? streak_of tracking (driver_id_of d) + 1))
  /\ (last_alert_of DispatchAlert tracking (driver_id_of d) = None ->
      (track_entry tracking now d "non_compliant").2
      = (3 <=? streak_of tracking (driver_id_of d) + 1)).
Proof.
  pose proof (upsert_row tracking (driver_id_of d) "non_compliant" now) as Hrow.
  pose proof (upsert_streak tracking (driver_id_of d) now) as [Hcount Hstatus].
  pose proof (upsert_last_alert DriverAlert tracking (driver_id_of d)
                "non_compliant" now) as Hdriver.
  pose proof (upsert_last_alert DispatchAlert tracking (driver_id_of d)
                "non_compliant" now) as Hdispatch.
  unfold track_entry.
  destruct (_upsert_state tracking (driver_id_of d) "non_compliant" now)
    as [t1 state].
  simpl in Hrow, Hcount, Hstatus, Hdriver, Hdispatch. simpl.
  split; [|split].
  - unfold streak_of, _mark_driver_alert, _mark_dispatch_alert.
    destruct (truthy_int (notify_chat_id d) && _should_alert_driver state now),
      (_should_alert_dispatch state now); simpl;
      rewrite ?lookup_alter_eq, Hrow; simpl; rewrite Hstatus;
      rewrite bool_decide_eq_true_2 by reflexivity; exact Hcount.
  - intros Hnone. rewrite Hnone in Hdriver.
    rewrite (should_alert_driver_first state now Hdriver), Hcount.
    destruct (_should_alert_dispatch state now),
      (truthy_int (notify_chat_id d) && (2 <=? streak_of tracking (driver_id_of d) + 1));
      reflexivity.
  - intros Hnone. rewrite Hnone in Hdispatch.
    rewrite (should_alert_dispatch_first state now Hdispatch), Hcount.
    destruct (3 <=? streak_of tracking (driver_id_of d) + 1),
      (truthy_int (notify_chat_id d) && _should_alert_driver state now);
      reflexivity.
Qed.

Lemma streak_of_ext (t1 t2 : gmap Z ComplianceState) did :
  t1 !! did = t2 !! did -> streak_of t1 did = streak_of t2 did.
Proof. unfold streak_of. intros ->. reflexivity. Qed.

Lemma last_alert_of_ext k (t1 t2 : gmap Z ComplianceState) did :
  t1 !! did = t2 !! did -> last_alert_of k t1 did = last_alert_of k t2 did.
Proof. unfold last_alert_of. intros ->. reflexivity. Qed.

(** A tick that lists the driver once, as non-compliant. *)
Lemma tick_self (tracking : gmap Z ComplianceState) now d entries k :
  reported_once d entries ->
  streak_of (track_entries tracking now entries).1 (driver_id_of d)
  = streak_of tracking (driver_id_of d) + 1
  /\ (last_alert_of k tracking (driver_id_of d) = None ->
      alert_times k (driver_id_of d) (track_entries tracking now entries).2
      = (if alert_due k d (streak_of tracking (driver_id_of d) + 1)
         then [now] else [])
      /\ last_alert_of k (track_entries tracking now entries).1 (driver_id_of d)
         = (if alert_due k d (streak_of tracking (driver_id_of d) + 1)
            then Some now else None)).
Proof.
  intros (pre & post & -> & Hpre & Hpost).
  rewrite track_entries_app.
  destruct (track_entries_others tracking now pre (driver_id_of d) k Hpre)
    as [Hpre_row Hpre_alerts].
  destruct (track_entries tracking now pre) as [t1 a1].
  simpl in Hpre_row, Hpre_alerts. cbn [fst snd]. cbn [track_entries].
  pose proof (track_entry_self t1 now d) as (Hstreak & Hnudge & Hescalate).
  pose proof (track_entry_last_alert k t1 now d "non_compliant" (driver_id_of d))
    as Hlast.
  destruct (track_entry t1 now d "non_compliant") as [[t2 nudge] escalate].
  simpl in Hstreak, Hnudge, Hescalate, Hlast.
  destruct (track_entries_others t2 now post (driver_id_of d) k Hpost)
    as [Hpost_row Hpost_alerts].
  destruct (track_entries t2 now post) as [t3 a3].
  simpl in Hpost_row, Hpost_alerts. cbn [fst snd].
  rewrite (streak_of_ext _ _ _ Hpost_row), Hstreak,
    (streak_of_ext _ _ _ Hpre_row).
  split; [reflexivity|]. intros Hnone.
  rewrite <- (last_alert_of_ext k _ _ _ Hpre_row) in Hnone.
  rewrite (streak_of_ext _ _ _ Hpre_row) in Hnudge, Hescalate.
  assert (Hfired : fired k nudge escalate
                   = alert_due k d (streak_of tracking (driver_id_of d) + 1)).
  { destruct k; simpl; [apply Hnudge | apply Hescalate]; exact Hnone. }
  rewrite alert_times_app, Hpre_alerts, alert_times_entry, Hpost_alerts.
  rewrite (last_alert_of_ext k _ _ _ Hpost_row), Hlast, Hnone.
  rewrite Z.eqb_refl, andb_true_r, Hfired.
  destruct (alert_due k d (streak_of tracking (driver_id_of d) + 1));
    split; reflexivity.
Qed.

Lemma run_ticks_streak d ticks :
  forall tracking : gmap Z ComplianceState,
    Forall (fun t : datetime * list (Driver * string) => reported_once d t.2)
      ticks ->
    streak_of (run_ticks tracking ticks).1 (driver_id_of d)
    = streak_of tracking (driver_id_of d) + Z.of_nat (length ticks).
Proof.
  induction ticks as [|[now entries] ticks IH]; intros tracking Hall.
  - simpl. lia.
  - apply Forall_cons in Hall as [Hone Hall]. simpl in Hone.
    destruct (tick_self tracking now d entries DriverAlert Hone) as [Hstreak _].
    cbn [run_ticks].
    destruct (track_entries tracking now entries) as [t1 a1]. simpl in Hstreak.
    specialize (IH t1 Hall).
    destruct (run_ticks t1 ticks) as [t2 a2]. cbn [fst snd] in IH |- *.
    rewrite IH, Hstreak. cbn [length]. lia.
Qed.

(** X13. A driver who has no row in the tracking table, as after
    [clear_tracking], and whom every tick lists once as non-compliant,
    whoever else is listed: the stored counter is the number of the ticks.
    The first tick decides no alert for the driver; the second decides the
    nudge, if the driver has a linked chat, and no escalation; the third
    decides the escalation. *)
Theorem overdue_timeline (tracking : gmap Z ComplianceState) d n1 e1 n2 e2 n3 e3 :
  tracking !! driver_id_of d = None ->
  reported_once d e1 -> reported_once d e2 -> reported_once d e3 ->
  (forall ticks,
     Forall (fun t : datetime * list (Driver * string) => reported_once d t.2)
       ticks ->
     streak_of (run_ticks tracking ticks).1 (driver_id_of d)
     = Z.of_nat (length ticks))
  /\ (forall k, alert_times k (driver_id_of d) (run_ticks tracking [(n1, e1)]).2
                = [])
  /\ alert_times DriverAlert (driver_id_of d)
       (run_ticks tracking [(n1, e1); (n2, e2)]).2
     = (if truthy_int (notify_chat_id d) then [n2] else [])
  /\ alert_times DispatchAlert (driver_id_of d)
       (run_ticks tracking [(n1, e1); (n2, e2)]).2 = []
  /\ alert_times DispatchAlert (driver_id_of d)
       (run_ticks tracking [(n1, e1); (n2, e2); (n3, e3)]).2 = [n3].
Proof.
  intros Hnew H1 H2 H3.
  assert (Hzero : streak_of tracking (driver_id_of d) = 0)
    by (unfold streak_of; rewrite Hnew; reflexivity).
  assert (Hnone : forall k, last_alert_of k tracking (driver_id_of d) = None)
    by (intros k; unfold last_alert_of; rewrite Hnew; reflexivity).
  split.
  { intros ticks Hall. rewrite run_ticks_streak by exact Hall. lia. }
  cbn [run_ticks].
  pose proof (fun k => tick_self tracking n1 d e1 k H1) as Hfirst.
  destruct (track_entries tracking n1 e1) as [t1 a1]. cbn [fst snd] in Hfirst.
  assert (Hs1 : streak_of t1 (driver_id_of d) = 1)
    by (destruct (Hfirst DriverAlert) as [-> _]; lia).
  assert (Ha1 : forall k, alert_times k (driver_id_of d) a1 = []
                          /\ last_alert_of k t1 (driver_id_of d) = None).
  { intros k. destruct (Hfirst k) as [_ Hk]. destruct (Hk (Hnone k)) as [-> ->].
    rewrite Hzero. destruct k; simpl; rewrite ?andb_false_r; split; reflexivity. }
  pose proof (fun k => tick_self t1 n2 d e2 k H2) as Hsecond.
  destruct (track_entries t1 n2 e2) as [t2 a2]. cbn [fst snd] in Hsecond.
  assert (Hs2 : streak_of t2 (driver_id_of d) = 2)
    by (destruct (Hsecond DriverAlert) as [-> _]; lia).
  assert (Ha2 : alert_times DriverAlert (driver_id_of d) a2
                = (if truthy_int (notify_chat_id d) then [n2] else [])
                /\ alert_times DispatchAlert (driver_id_of d) a2 = []
                /\ last_alert_of DispatchAlert t2 (driver_id_of d) = None).
  { destruct (Hsecond DriverAlert) as [_ Hk].
    destruct (Hk (proj2 (Ha1 DriverAlert))) as [-> _].
    destruct (Hsecond DispatchAlert) as [_ Hk2].
    destruct (Hk2 (proj2 (Ha1 DispatchAlert))) as [-> ->].
    rewrite Hs1. simpl. rewrite andb_true_r. repeat split. }
  destruct Ha2 as (Hd2 & Hx2 & Hl2).
  pose proof (tick_self t2 n3 d e3 DispatchAlert H3) as [_ Hthird].
  destruct (track_entries t2 n3 e3) as [t3 a3]. cbn [fst snd] in Hthird.
  destruct (Hthird Hl2) as [Hx3 _]. rewrite Hs2 in Hx3. simpl in Hx3.
  cbn [fst snd]. rewrite !app_nil_r.
  split; [intros k; apply (Ha1 k)|].
  rewrite !alert_times_app, Hd2, Hx2, Hx3.
  rewrite (proj1 (Ha1 DriverAlert)), (proj1 (Ha1 DispatchAlert)).
  repeat split.
Qed.

End TimelineFacts.

(** The sample driver, pending in three ticks beside a compliant driver:
    no escalation after two ticks, the escalation at the third. *)
Lemma overdue_timeline_witness :
  alert_times Compliance.DispatchAlert 7
    (Compliance.run_ticks ∅ (take 2 busy_ticks)).2 = []
  /\ alert_times Compliance.DispatchAlert 7 (Compliance.run_ticks ∅ busy_ticks).2
     = [14400].
Proof.
  destruct (overdue_timeline ∅ sample_driver
              0 [(unlinked_driver, "compliant"%string);
                 (sample_driver, "non_compliant"%string)]
              7200 [(sample_driver, "non_compliant"%string);
                    (unlinked_driver, "compliant"%string)]
              14400 [(unlinked_driver, "compliant"%string);
                     (sample_driver, "non_compliant"%string)])
    as (_ & _ & _ & Htwo & Hthree).
  - apply lookup_empty.
  - exists [(unlinked_driver, "compliant"%string)], [].
    split; [reflexivity|]. split; [|apply Forall_nil; exact I].
    apply Forall_cons. split; [simpl; lia | apply Forall_nil; exact I].
  - exists [], [(unlinked_driver, "compliant"%string)].
    split; [reflexivity|]. split; [apply Forall_nil; exact I|].
    apply Forall_cons. split; [simpl; lia | apply Forall_nil; exact I].
  - exists [(unlinked_driver, "compliant"%string)], [].
    split; [reflexivity|]. split; [|apply Forall_nil; exact I].
    apply Forall_cons. split; [simpl; lia | apply Forall_nil; exact I].
  - split; [exact Htwo | exact Hthree].
Defined.

(** ** The review handler *)

Section ReviewFacts.

Import Roles Autosend Handlers.

Variable local_date : string -> datetime -> date.
Variable weekday : date -> Z.
Variable stored_date : datetime -> date.
Variable lower : string -> string.
Variable date_of : datetime -> date.

Lemma update_after_pass_where now l id day :
  Streaks.update_after_pass now l id day
  = Checks.update_where (Checks.by_driver id) (Streaks.pass_row now day) l.
Proof. reflexivity. Qed.

(** The congratulation writes [last_congrats_at] and nothing else. *)
Lemma congrats_effect send_ok db0 group d event_time now db4 chat :
  pass_congrats local_date weekday stored_date send_ok db0 group d event_time now
  = (db4, chat) ->
  Checks.daily_checkins db4 = Checks.daily_checkins db0
  /\ forall did x,
       find (Checks.by_driver did) (Checks.drivers db0) = Some x ->
       exists y,
         find (Checks.by_driver did) (Checks.drivers db4) = Some y
         /\ (streak_current y, streak_best y, last_pass_at y, last_check_date y)
            = (streak_current x, streak_best x, last_pass_at x, last_check_date x).
Proof.
  unfold pass_congrats. cbv zeta.
  assert (Hsame : forall db5 chat5, (db0, chat5) = (db5, chat) ->
            Checks.daily_checkins db5 = Checks.daily_checkins db0
            /\ forall did x,
                 find (Checks.by_driver did) (Checks.drivers db0) = Some x ->
                 exists y,
                   find (Checks.by_driver did) (Checks.drivers db5) = Some y
                   /\ (streak_current y, streak_best y, last_pass_at y,
                       last_check_date y)
                      = (streak_current x, streak_best x, last_pass_at x,
                         last_check_date x)).
  { intros db5 chat5 [= <- _]. split; [reflexivity|].
    intros did x Hx. exists x. split; [exact Hx | reflexivity]. }
  destruct (5 <=? _); [|intros H; exact (Hsame _ _ H)].
  destruct (match last_congrats_at d with
            | Some t => stored_date t <? _
            | None => true
            end); [|intros H; exact (Hsame _ _ H)].
  destruct (send_ok _); [|intros H; exact (Hsame _ _ H)].
  intros [= <- _]. simpl. split; [reflexivity|].
  intros did x Hx. rewrite (find_update_where (Checks.by_driver did)) by reflexivity.
  rewrite Hx. simpl. eexists. split; [reflexivity|].
  destruct (Checks.by_driver (driver_id_of d) x); reflexivity.
Qed.

(** X14. The pass of a dispatcher on a check-in of the group, when the
    review card can be synchronised: the check-in is stored as [pass]
    with the reviewer and the time and without a reason, and keeps its
    media count; the driver has one more day of streak, a best streak
    that is at least the new streak, this pass as the last pass and the
    day as the last day checked; the check-in has no follow-up left; the
    tracker holds the driver as compliant with a counter of zero; and
    every evaluation within the report window after the pass finds the
    driver compliant on this check-in.  None of this looks at the status
    that the check-in had: a pass on a check-in that is a pass already
    adds to the streak again. *)
Theorem pass_action_spec w send_ok st group did day reviewer now d c :
  in_sync (Handlers.svc st) ->
  Checks.find_driver_by_id (Handlers.db st) did = Some d ->
  Checks.fetch_checkin (Handlers.db st) did (group_id_of group) day = Some c ->
  paused group = false ->
  is_Some (sync_card w (Checks.review_row "pass" None reviewer now c)) ->
  exists st1 c1 d1 s1,
    pass_action local_date weekday stored_date w send_ok st group did day
      reviewer now = (st1, MarkedPass)
    /\ Checks.fetch_checkin (Handlers.db st1) did (group_id_of group) day = Some c1
    /\ status c1 = "pass"%string /\ reviewer_user_id c1 = Some reviewer
    /\ reviewed_at c1 = Some now /\ reason c1 = None
    /\ media_count c1 = media_count c
    /\ Checks.find_driver_by_id (Handlers.db st1) did = Some d1
    /\ streak_current d1 = streak_current d + 1
    /\ streak_best d1 = Z.max (streak_best d) (streak_current d + 1)
    /\ last_pass_at d1 = Some now /\ last_check_date d1 = Some day
    /\ outstanding (Handlers.svc st1) (checkin_id_of c) = ∅
    /\ in_sync (Handlers.svc st1)
    /\ Handlers.tracking st1 !! did = Some s1
    /\ Compliance.consecutive_reports s1 = 0
    /\ Compliance.last_status s1 = Some "compliant"%string
    /\ (lower "" = ""%string ->
        forall later, later - now <= Compliance.REPORT_WINDOW ->
          (Compliance._evaluate_driver lower date_of d1 (Some c1) later).1.1
          = "compliant"%string).
Proof.
  intros Hsync Hdriver Hfetch Hpaused [card Hcard].
  assert (Hid : driver_id_of d = did).
  { unfold Checks.find_driver_by_id in Hdriver.
    apply find_elem in Hdriver as [_ H]. apply Z.eqb_eq in H. exact H. }
  pose proof (find_elem _ _ _ Hfetch) as [_ Hc].
  unfold pass_action. rewrite Hdriver, Hid, Hfetch, Hpaused.
  unfold Checks.update_review_status, Checks.returning.
  unfold Checks.fetch_checkin in Hfetch. rewrite Hfetch.
  cbn [fmap option_fmap option_map]. simpl String.eqb. cbv iota.
  cbn [checkin_id_of Checks.review_row reviewed_at default
       Checks.drivers Checks.daily_checkins Checks.media Checks.checkin_seq].
  rewrite Hcard.
  unfold Checks.find_driver_by_id.
  cbn [checkin_id_of Checks.review_row reviewed_at default
       Checks.drivers Checks.daily_checkins Checks.media Checks.checkin_seq].
  change (id now) with now.
  set (rows1 := Checks.update_where (Checks.by_group_day did (group_id_of group) day)
                  (Checks.review_row "pass" None reviewer now)
                  (Checks.daily_checkins (Handlers.db st))).
  set (drivers2 := Streaks.update_after_pass now
                     (Checks.update_where (Checks.by_driver did)
                        (Checks.set_last_pass (Some now) now)
                        (Checks.drivers (Handlers.db st))) did day).
  assert (Hd2 : find (Checks.by_driver did) drivers2
                = Some (Streaks.pass_row now day
                          (Checks.set_last_pass (Some now) now d))).
  { unfold drivers2. rewrite update_after_pass_where.
    rewrite !(find_update_where (Checks.by_driver did)) by reflexivity.
    unfold Checks.find_driver_by_id in Hdriver. rewrite Hdriver. simpl.
    assert (Hself : Checks.by_driver did d = true)
      by (apply Z.eqb_eq; exact Hid).
    rewrite Hself. simpl. unfold Checks.by_driver at 1. simpl.
    rewrite Hid, Z.eqb_refl. reflexivity. }
  assert (Hrow1 : find (Checks.by_group_day did (group_id_of group) day) rows1
                  = Some (Checks.review_row "pass" None reviewer now c)).
  { unfold rows1.
    rewrite (find_update_where (Checks.by_group_day did (group_id_of group) day))
      by reflexivity.
    rewrite Hfetch. simpl. rewrite Hc. reflexivity. }
  rewrite Hd2.
  cbn [default]. simpl driver_id_of. rewrite ?Hid.
  match goal with
  | |- context [pass_congrats _ _ _ _ ?db3 _ ?dr _ _] =>
      destruct (pass_congrats local_date weekday stored_date send_ok db3 group dr
                  now now) as [db4 chat] eqn:Hcong;
      pose proof (congrats_effect _ _ _ _ _ _ _ _ Hcong) as [Hrows4 Hdrivers4];
      destruct (Hdrivers4 did (Streaks.pass_row now day
                                 (Checks.set_last_pass (Some now) now d)))
        as (d1 & Hd1 & Hfields)
  end.
  { destruct card; exact Hd2. }
  assert (Hrow4 : exists c1,
             find (Checks.by_group_day did (group_id_of group) day)
               (Checks.daily_checkins db4) = Some c1
             /\ status c1 = "pass"%string /\ reviewer_user_id c1 = Some reviewer
             /\ reviewed_at c1 = Some now /\ reason c1 = None
             /\ media_count c1 = media_count c).
  { rewrite Hrows4. destruct card as [mid|]; cbn [Checks.daily_checkins].
    - unfold Checks.set_review_message. cbn [Checks.daily_checkins].
      rewrite (find_update_where (Checks.by_group_day did (group_id_of group) day))
        by reflexivity.
      rewrite Hrow1. simpl. eexists. split; [reflexivity|].
      destruct (Checks.by_id (checkin_id_of c) _); repeat split.
    - rewrite Hrow1. eexists. split; [reflexivity|]. repeat split. }
  destruct Hrow4 as (c1 & Hc1 & Hst & Hrev & Hat & Hreason & Hmedia).
  injection Hfields as Hf1 Hf2 Hf3 Hf4. simpl in Hf1, Hf2, Hf3, Hf4.
  eexists _, c1, d1, _. split; [reflexivity|].
  cbn [Handlers.db Handlers.svc Handlers.tracking].
  split; [exact Hc1|]. split; [exact Hst|]. split; [exact Hrev|].
  split; [exact Hat|]. split; [exact Hreason|]. split; [exact Hmedia|].
  split; [exact Hd1|]. split; [exact Hf1|]. split; [exact Hf2|].
  split; [exact Hf3|]. split; [exact Hf4|].
  split; [apply outstanding_cancelled, Hsync|].
  split; [apply cancel_in_sync, Hsync|].
  split.
  { unfold Compliance.handle_pass_event, Compliance._upsert_state,
      Compliance._reset_state. simpl.
    rewrite lookup_alter_eq, lookup_insert_eq. reflexivity. }
  split; [reflexivity|]. split; [reflexivity|].
  intros Hlower later Hlater. unfold Compliance._evaluate_driver.
  rewrite Hreason, Hst, Hat. cbn [default]. rewrite Hlower. simpl.
  unfold Compliance.within_window.
  rewrite (proj2 (Z.leb_le _ _) Hlater). reflexivity.
Qed.

End ReviewFacts.

(** The sample driver has a streak of three and day 41 passed; the pass
    is pressed again: the streak is four. *)
Lemma pass_action_spec_witness :
  exists st1 d1,
    Handlers.pass_action (fun _ => utc_date) (fun day => (day + 3) mod 7) utc_date
      quiet_world (fun _ => true)
      {| Handlers.svc := Autosend.empty_service; Handlers.db := sample_db;
         Handlers.tracking := ∅ |}
      sample_group 7 41 9 2000
    = (st1, Handlers.MarkedPass)
    /\ Checks.find_driver_by_id (Handlers.db st1) 7 = Some d1
    /\ streak_current d1 = 4.
Proof.
  destruct (pass_action_spec (fun _ => utc_date) (fun day => (day + 3) mod 7)
              utc_date ascii_lower utc_date quiet_world (fun _ => true)
              {| Handlers.svc := Autosend.empty_service; Handlers.db := sample_db;
                 Handlers.tracking := ∅ |}
              sample_group 7 41 9 2000 sample_driver sample_pass_row)
    as (st1 & c1 & d1 & s1 & Hrun & _ & _ & _ & _ & _ & _ & Hd1 & Hstreak & _).
  - apply empty_in_sync.
  - reflexivity.
  - reflexivity.
  - reflexivity.
  - eexists. reflexivity.
  - exists st1, d1. split; [exact Hrun|]. split; [exact Hd1 | exact Hstreak].
Defined.

(** ** The media handler *)

Section MediaFacts.

Import Roles Autosend Handlers.

Variable media_conflict : Media -> list Media -> bool.

Lemma group_day_is_day did gid day c :
  Checks.by_group_day did gid day c = true -> Checks.by_day did day c = true.
Proof.
  unfold Checks.by_group_day, Checks.by_day. rewrite !andb_true_iff.
  intros [[? ?] ?]. split; assumption.
Qed.

Lemma find_touched did gid day now rows :
  find (Checks.by_group_day did gid day)
    (Checks.update_where (Checks.by_day did day) (Checks.touch_row gid now) rows)
  = Checks.touch_row gid now <$> find (Checks.by_day did day) rows.
Proof.
  induction rows as [|x rows IH]; simpl; [reflexivity|].
  destruct (Checks.by_day did day x) eqn:Hday.
  - assert (Hg : Checks.by_group_day did gid day (Checks.touch_row gid now x) = true).
    { unfold Checks.by_day in Hday. unfold Checks.by_group_day. simpl.
      apply andb_true_iff in Hday as [-> ->]. rewrite Z.eqb_refl. reflexivity. }
    rewrite Hg. reflexivity.
  - destruct (Checks.by_group_day did gid day x) eqn:Hg; [|exact IH].
    apply group_day_is_day in Hg. congruence.
Qed.

(** The row that [ensure_checkin] returns is the row that
    [fetch_checkin] finds for the group. *)
Lemma ensure_group_stored db0 did gid day now :
  Checks.fetch_checkin (Checks.ensure_checkin db0 did gid day now).1 did gid day
  = Some (Checks.ensure_checkin db0 did gid day now).2.
Proof.
  unfold Checks.fetch_checkin, Checks.ensure_checkin, Checks.upsert_checkin.
  destruct (find (Checks.by_day did day) (Checks.daily_checkins db0)) as [c|]
    eqn:Hfind; simpl.
  - rewrite find_touched, Hfind. reflexivity.
  - assert (Hnone : find (Checks.by_group_day did gid day)
                      (Checks.daily_checkins db0) = None).
    { destruct (find (Checks.by_group_day did gid day) (Checks.daily_checkins db0))
        as [r|] eqn:Hr; [|reflexivity].
      apply find_elem in Hr as [Hin Hr]. apply group_day_is_day in Hr.
      pose proof (find_none_elem _ _ r Hfind Hin). congruence. }
    rewrite (find_app_none _ _ _ Hnone). simpl.
    unfold Checks.by_group_day at 1. simpl. rewrite !Z.eqb_refl. reflexivity.
Qed.

Lemma ensure_counted db0 did gid day now :
  counted <$> Checks.daily_checkins (Checks.ensure_checkin db0 did gid day now).1
  = counted <$> Checks.daily_checkins db0
  \/ counted <$> Checks.daily_checkins (Checks.ensure_checkin db0 did gid day now).1
     = (counted <$> Checks.daily_checkins db0)
       ++ [(Checks.checkin_seq db0, did, day, None, "pending"%string, 0)].
Proof.
  unfold Checks.ensure_checkin, Checks.upsert_checkin.
  destruct (find (Checks.by_day did day) (Checks.daily_checkins db0)); simpl.
  - left. apply fmap_update_where. reflexivity.
  - right. rewrite fmap_app. reflexivity.
Qed.

Lemma ensure_media db0 did gid day now :
  Checks.media (Checks.ensure_checkin db0 did gid day now).1 = Checks.media db0.
Proof.
  unfold Checks.ensure_checkin, Checks.upsert_checkin.
  destruct (find (Checks.by_day did day) (Checks.daily_checkins db0)); reflexivity.
Qed.

(** Once the warning is on the row of the group and the day, an upload
    outside the thread is blocked. *)
Lemma warned_blocks w ok svc0 db0 driver group today now u e :
  private u = false -> is_reply u = false ->
  Checks.fetch_checkin db0 (driver_id_of driver) (group_id_of group) today = Some e ->
  reason e = Some "offthread_warning"%string ->
  handle_media_message media_conflict w ok svc0 db0 driver group today now u
  = (svc0, db0, Blocked).
Proof.
  intros Hp Hr He Hw. unfold handle_media_message. rewrite He, Hp, Hr, Hw. simpl.
  rewrite orb_true_r. reflexivity.
Qed.

(** The warning on the row that [fetch_checkin] finds. *)
Lemma warning_stored db0 did gid day now c :
  Checks.fetch_checkin db0 did gid day = Some c ->
  Checks.fetch_checkin (Checks.set_offthread_warning db0 (checkin_id_of c) true now)
    did gid day
  = Some (Checks.warning_row true now c).
Proof.
  unfold Checks.fetch_checkin, Checks.set_offthread_warning. simpl. intros Hc.
  rewrite (find_update_where (Checks.by_group_day did gid day)) by reflexivity.
  rewrite Hc. simpl. unfold Checks.by_id. rewrite Z.eqb_refl. reflexivity.
Qed.

(** X15. Media that a driver posts in a group chat without replying to
    the bot is never counted.  The handler either does nothing at all, or
    it ensures the day, cancels the follow-ups of the check-in and puts
    the off-thread warning on it: no media item is stored, and no row
    changes its response time, its status or its media count.  After the
    warning every further upload outside the thread is blocked and leaves
    everything as it is. *)
Theorem offthread_media_not_counted w ok svc0 db0 driver group today now u
    svc1 db1 out :
  private u = false -> is_reply u = false ->
  (forall e,
     Checks.fetch_checkin db0 (driver_id_of driver) (group_id_of group) today
     = Some e -> 0 <= media_count e) ->
  handle_media_message media_conflict w ok svc0 db0 driver group today now u
  = (svc1, db1, out) ->
  Checks.media db1 = Checks.media db0
  /\ (counted <$> Checks.daily_checkins db1 = counted <$> Checks.daily_checkins db0
      \/ counted <$> Checks.daily_checkins db1
         = (counted <$> Checks.daily_checkins db0)
           ++ [(Checks.checkin_seq db0, driver_id_of driver, today, None,
                "pending"%string, 0)])
  /\ ((out = Blocked /\ svc1 = svc0 /\ db1 = db0)
      \/ exists c c1,
           out = Warned c
           /\ svc1 = cancel_followups svc0 (checkin_id_of c)
           /\ Checks.fetch_checkin db1 (driver_id_of driver) (group_id_of group)
                today = Some c1
           /\ reason c1 = Some "offthread_warning"%string
           /\ forall w2 ok2 now2 u2,
                private u2 = false -> is_reply u2 = false ->
                handle_media_message media_conflict w2 ok2 svc1 db1 driver group
                  today now2 u2
                = (svc1, db1, Blocked)).
Proof.
  intros Hp Hr Hcount. unfold handle_media_message. rewrite Hp, Hr.
  cbn [negb andb].
  destruct (Checks.fetch_checkin db0 (driver_id_of driver) (group_id_of group)
              today) as [e|] eqn:He.
  - specialize (Hcount e eq_refl).
    destruct ((1 <=? media_count e)
              || bool_decide (reason e = Some "offthread_warning"%string))
      eqn:Hblock.
    + intros [= <- <- <-]. split; [reflexivity|]. split; [left; reflexivity|].
      left. repeat split.
    + apply orb_false_iff in Hblock as [Hone _]. apply Z.leb_gt in Hone.
      assert (Hzero : (media_count e =? 0) = true) by (apply Z.eqb_eq; lia).
      rewrite Hzero. intros [= <- <- <-].
      split; [reflexivity|]. split.
      { left. simpl. apply fmap_update_where. reflexivity. }
      right. exists e, (Checks.warning_row true now e).
      split; [reflexivity|]. split; [reflexivity|].
      pose proof (warning_stored db0 _ _ _ now e He) as Hstored.
      split; [exact Hstored|]. split; [reflexivity|].
      intros w2 ok2 now2 u2 Hp2 Hr2.
      apply (warned_blocks w2 ok2 _ _ driver group today now2 u2 _ Hp2 Hr2 Hstored).
      reflexivity.
  - cbn [orb Z.leb Z.compare Z.eqb].
    pose proof (ensure_group_stored db0 (driver_id_of driver) (group_id_of group)
                  today now) as Hens.
    pose proof (ensure_counted db0 (driver_id_of driver) (group_id_of group)
                  today now) as Hcounted.
    pose proof (ensure_media db0 (driver_id_of driver) (group_id_of group)
                  today now) as Hmedia.
    destruct (Checks.ensure_checkin db0 (driver_id_of driver) (group_id_of group)
                today now) as [db2 c]. simpl in Hens, Hcounted, Hmedia.
    intros [= <- <- <-]. split; [exact Hmedia|]. split.
    { simpl. rewrite (fmap_update_where counted) by reflexivity. exact Hcounted. }
    right. exists c, (Checks.warning_row true now c).
    split; [reflexivity|]. split; [reflexivity|].
    pose proof (warning_stored db2 _ _ _ now c Hens) as Hstored.
    split; [exact Hstored|]. split; [reflexivity|].
    intros w2 ok2 now2 u2 Hp2 Hr2.
    apply (warned_blocks w2 ok2 _ _ driver group today now2 u2 _ Hp2 Hr2 Hstored).
    reflexivity.
Qed.

(** X16. Media that the handler stores has come in a private chat or as
    a reply to the bot, and storing it takes every follow-up of the
    check-in out of the scheduler: the driver who has answered is not
    reminded again. *)
Theorem stored_media_cancels_followups w ok svc0 db0 driver group today now u
    svc1 db1 c first_media :
  in_sync svc0 ->
  (forall e,
     Checks.fetch_checkin db0 (driver_id_of driver) (group_id_of group) today
     = Some e -> 0 <= media_count e) ->
  handle_media_message media_conflict w ok svc0 db0 driver group today now u
  = (svc1, db1, Stored c first_media) ->
  (private u = true \/ is_reply u = true)
  /\ outstanding svc1 (checkin_id_of c) = ∅
  /\ exists db2,
       Checks.record_media media_conflict db0 (driver_id_of driver)
         (group_id_of group) today (upload_kind u) (upload_file_id u)
         (upload_media_group_id u) now
       = Some (db2, c, first_media).
Proof.
  intros Hsync Hcount. unfold handle_media_message.
  assert (Hprev : 0 <= match Checks.fetch_checkin db0 (driver_id_of driver)
                               (group_id_of group) today with
                       | Some e => media_count e
                       | None => 0
                       end).
  { destruct (Checks.fetch_checkin db0 (driver_id_of driver) (group_id_of group)
                today) as [e|]; [apply Hcount; reflexivity | lia]. }
  destruct (negb (private u) && negb (is_reply u)) eqn:Hoff.
  - cbn [andb].
    destruct ((1 <=? _) || _) eqn:Hblock; [discriminate|].
    apply orb_false_iff in Hblock as [Hone _]. apply Z.leb_gt in Hone.
    match goal with
    | |- context [?n =? 0] =>
        assert (Hzero : (n =? 0) = true) by (apply Z.eqb_eq; lia);
        rewrite Hzero
    end.
    destruct (match Checks.fetch_checkin db0 (driver_id_of driver)
                      (group_id_of group) today with
              | Some e => (db0, e)
              | None => Checks.ensure_checkin db0 (driver_id_of driver)
                          (group_id_of group) today now
              end). discriminate.
  - cbn [andb].
    assert (Hin : private u || is_reply u = true).
    { destruct (private u), (is_reply u); try reflexivity. discriminate Hoff. }
    destruct (Checks.record_media media_conflict db0 (driver_id_of driver)
                (group_id_of group) today (upload_kind u) (upload_file_id u)
                (upload_media_group_id u) now) as [[[db2 c2] fm]|];
      [|discriminate].
    destruct (private u && fm && negb ok); [discriminate|].
    rewrite Hin. destruct (sync_card w c2) as [card|]; [|discriminate].
    intros [= <- _ <- <-]. split.
    + apply orb_true_iff in Hin. exact Hin.
    + split; [apply outstanding_cancelled, Hsync|]. eexists. reflexivity.
Qed.

End MediaFacts.

(** Day 43 of the sample driver waits for an answer; a photo posted in
    the group chat outside the thread is not counted, and the check-in
    carries the warning. *)
Lemma offthread_media_not_counted_witness :
  exists svc1 db1 c c1,
    Handlers.handle_media_message (fun _ _ => false) quiet_world true
      Autosend.empty_service waiting_db sample_driver sample_group 43 6000
      offthread_upload
    = (svc1, db1, Handlers.Warned c)
    /\ Checks.media db1 = []
    /\ Checks.fetch_checkin db1 7 100 43 = Some c1
    /\ reason c1 = Some "offthread_warning"%string.
Proof.
  destruct (Handlers.handle_media_message (fun _ _ => false) quiet_world true
              Autosend.empty_service waiting_db sample_driver sample_group 43 6000
              offthread_upload) as [[svc1 db1] out] eqn:Hrun.
  destruct (offthread_media_not_counted (fun _ _ => false) quiet_world true
              Autosend.empty_service waiting_db sample_driver sample_group 43 6000
              offthread_upload svc1 db1 out)
    as (Hmedia & _ & [(Hout & _) | (c & c1 & Hout & _ & Hc1 & Hreason & _)]).
  - reflexivity.
  - reflexivity.
  - intros e [= <-]. simpl. lia.
  - exact Hrun.
  - subst out. vm_compute in Hrun. discriminate Hrun.
  - subst out. exists svc1, db1, c, c1. repeat split; assumption.
Defined.

(** The same day, the photo sent as a reply: it is stored as the first
    media of the day, and no follow-up is left. *)
Lemma stored_media_cancels_followups_witness :
  exists svc1 db1 c,
    Handlers.handle_media_message (fun _ _ => false) quiet_world true
      (Autosend.schedule_followups utc_zones Autosend.empty_service 3 sample_group
         sample_driver (-500) 5000)
      waiting_db sample_driver sample_group 43 6000
      {| Handlers.private := false; Handlers.is_reply := true;
         Handlers.upload_kind := "photo"; Handlers.upload_file_id := "f-9";
         Handlers.upload_media_group_id := None |}
    = (svc1, db1, Handlers.Stored c true)
    /\ checkin_id_of c = 3
    /\ Autosend.outstanding svc1 3 = ∅.
Proof.
  destruct (Handlers.handle_media_message (fun _ _ => false) quiet_world true
              (Autosend.schedule_followups utc_zones Autosend.empty_service 3 sample_group
                 sample_driver (-500) 5000)
              waiting_db sample_driver sample_group 43 6000
              {| Handlers.private := false; Handlers.is_reply := true;
                 Handlers.upload_kind := "photo"; Handlers.upload_file_id := "f-9";
                 Handlers.upload_media_group_id := None |})
    as [[svc1 db1] out] eqn:Hrun.
  assert (Hout : exists c, out = Handlers.Stored c true /\ checkin_id_of c = 3).
  { unfold Handlers.handle_media_message in Hrun. simpl in Hrun.
    injection Hrun as _ _ <-. eexists. split; reflexivity. }
  destruct Hout as (c & -> & Hid).
  destruct (stored_media_cancels_followups (fun _ _ => false) quiet_world true
              (Autosend.schedule_followups utc_zones Autosend.empty_service 3 sample_group
                 sample_driver (-500) 5000)
              waiting_db sample_driver sample_group 43 6000
              {| Handlers.private := false; Handlers.is_reply := true;
                 Handlers.upload_kind := "photo"; Handlers.upload_file_id := "f-9";
                 Handlers.upload_media_group_id := None |}
              svc1 db1 c true) as (_ & Hnone & _).
  - apply schedule_in_sync, empty_in_sync.
  - intros e [= <-]. simpl. lia.
  - exact Hrun.
  - exists svc1, db1, c. rewrite Hid in Hnone. repeat split; assumption.
Defined.
